(** * Escrow project lifecycle (routes/escrow.js)

    A shallow embedding of the escrow state machine of the marketplace
    backend: the Mongoose documents it reads and writes
    (models/EscrowProject.js, models/Transaction.js, WorkerReview,
    Notification), the Express handlers of routes/escrow.js, and the
    properties the design document states about them.  The handlers that
    read what the state machine writes are embedded with it: the reading
    endpoints of routes/escrow.js and the notification and device routes
    (routes/notifications.js, models/DeviceToken.js), then the phone
    number format of services/sms.js and the presence routes.

    Conventions of the embedding.
    - A JavaScript Number is modelled by an exact rational ([Q]); [==] on
      [Q] is the numeric equality of the source.  The handlers compute in
      binary64: for whole amounts of money the binary64 product with 0.1,
      0.9 or 0.05 misses the exact one by far less than its distance to a
      tie, and is exact on a tie, so [Math.round] returns the whole number
      of the rational reading (the last section checks the examples in
      binary64).  Request bodies carry their fields with the types of the
      API: a Number, a string, a date, or nothing.
    - An ObjectId is a natural number; the handlers only compare ids.
    - [new Date()] reads the clock of the environment ([now]); a Date is a
      number of milliseconds.
    - An [async] handler is a function on the database ([World]) that may
      throw; [await] is sequencing.  A thrown error keeps the writes made
      before it, as the source does (no transaction wraps a handler).
    - The fields [createdAt]/[updatedAt] and the [_id] of sub-documents are
      maintained by the ODM, not by the handlers, and are not modelled.
    - [populate] is read on databases whose references resolve: the
      populated path carries the stored id and the name of that user.
    - The validators of the schemas (required, min, max) run inside the
      ODM when a document is saved; the handlers are read on payloads that
      pass them. *)

From Stdlib Require Import QArith Qround Qminmax ZArith String Ascii List Lia Lqa.
From Stdlib Require Import PrimFloat.
From stdpp Require Import gmap strings pretty.
Import ListNotations.

Local Open Scope Q_scope.
Local Open Scope string_scope.

Definition ObjectId := nat.
Definition Date := Z.

(** ** JavaScript values used by the handlers *)

Module JS.

(** [!x] for a Number: [0] is falsy (NaN does not arise from rationals). *)
Definition truthy (x : Q) : bool := negb (Qeq_bool x 0).

(** [a || b] where [a] is a nullable Number. *)
Definition or (a : option Q) (b : Q) : Q :=
  match a with
  | Some x => if truthy x then x else b
  | None => b
  end.

(** [a ?? b]. *)
Definition nullish {A : Type} (a : option A) (b : A) : A :=
  match a with
  | Some x => x
  | None => b
  end.

(** [Math.round]: the nearest integer, ties towards +infinity. *)
Definition Math_round (x : Q) : Q := inject_Z (Qfloor (x + (1 # 2))).

Definition Math_max (a b : Q) : Q := Qmax a b.
Definition Math_min (a b : Q) : Q := Qmin a b.

Definition is_space (c : ascii) : bool :=
  match nat_of_ascii c with
  | 9%nat | 10%nat | 11%nat | 12%nat | 13%nat | 32%nat => true
  | _ => false
  end.

Fixpoint trimStart (s : string) : string :=
  match s with
  | EmptyString => EmptyString
  | String c s' => if is_space c then trimStart s' else s
  end.

(** [s.trim()] *)
Definition trim (s : string) : string :=
  String.rev (trimStart (String.rev (trimStart s))).

(** The double-quote character inside template strings. *)
Definition dquote : string := String (ascii_of_nat 34) EmptyString.
Definition quoted (s : string) : string := dquote +:+ s +:+ dquote.

(** Template rendering of a Number; whole amounts print as decimals. *)
Definition show (x : Q) : string :=
  let r := Qred x in
  match Qden r with
  | 1%positive => pretty (Qnum r)
  | d => pretty (Qnum r) +:+ "/" +:+ pretty (Zpos d)
  end.

End JS.

(** ** Documents *)

Inductive Status :=
| offer_sent | accepted | rejected | pending_advance | in_progress
| mid_level | completed | completed_released | cancelled.

#[global] Instance Status_eq_dec : EqDecision Status.
Proof. solve_decision. Defined.

Inductive Canceller := by_client | by_worker | by_admin.

Module Milestone.
Record t := {
  title : string;
  description : string;
  progressPercent : Q;
  completedAt : option Date
}.
End Milestone.

Module EscrowProject.
Record t := {
  clientId : ObjectId;
  workerId : ObjectId;
  chatWithUserId : ObjectId;
  title : string;
  description : string;
  budget : Q;
  deadline : Date;
  agreedBudget : option Q;
  agreedDeadline : option Date;
  agreedTimeline : string;
  lockedAt : option Date;
  status : Status;
  progressPercent : Q;
  milestones : list Milestone.t;
  advancePaidAt : option Date;
  advanceAmount : Q;
  finalPaidAt : option Date;
  finalAmount : Q;
  platformCommissionPercent : Q;
  platformCommissionAmount : Q;
  workerPayoutAmount : Q;
  workerPayoutAt : option Date;
  rating : option Q;
  review : string;
  ratedAt : option Date;
  cancelledBy : option Canceller;
  cancelReason : string;
  cancelledAt : option Date
}.

(** Field assignments [project.f = v]. *)
Definition set_agreedBudget (v : option Q) (p : t) : t :=
  {| clientId := clientId p; workerId := workerId p; chatWithUserId := chatWithUserId
     p; title := title p; description := description p; budget := budget p; deadline
     := deadline p; agreedBudget := v; agreedDeadline := agreedDeadline p;
     agreedTimeline := agreedTimeline p; lockedAt := lockedAt p; status := status p;
     progressPercent := progressPercent p; milestones := milestones p; advancePaidAt
     := advancePaidAt p; advanceAmount := advanceAmount p; finalPaidAt := finalPaidAt
     p; finalAmount := finalAmount p; platformCommissionPercent :=
     platformCommissionPercent p; platformCommissionAmount := platformCommissionAmount
     p; workerPayoutAmount := workerPayoutAmount p; workerPayoutAt := workerPayoutAt
     p; rating := rating p; review := review p; ratedAt := ratedAt p; cancelledBy :=
     cancelledBy p; cancelReason := cancelReason p; cancelledAt := cancelledAt p |}.
Definition set_agreedDeadline (v : option Date) (p : t) : t :=
  {| clientId := clientId p; workerId := workerId p; chatWithUserId := chatWithUserId
     p; title := title p; description := description p; budget := budget p; deadline
     := deadline p; agreedBudget := agreedBudget p; agreedDeadline := v;
     agreedTimeline := agreedTimeline p; lockedAt := lockedAt p; status := status p;
     progressPercent := progressPercent p; milestones := milestones p; advancePaidAt
     := advancePaidAt p; advanceAmount := advanceAmount p; finalPaidAt := finalPaidAt
     p; finalAmount := finalAmount p; platformCommissionPercent :=
     platformCommissionPercent p; platformCommissionAmount := platformCommissionAmount
     p; workerPayoutAmount := workerPayoutAmount p; workerPayoutAt := workerPayoutAt
     p; rating := rating p; review := review p; ratedAt := ratedAt p; cancelledBy :=
     cancelledBy p; cancelReason := cancelReason p; cancelledAt := cancelledAt p |}.
Definition set_agreedTimeline (v : string) (p : t) : t :=
  {| clientId := clientId p; workerId := workerId p; chatWithUserId := chatWithUserId
     p; title := title p; description := description p; budget := budget p; deadline
     := deadline p; agreedBudget := agreedBudget p; agreedDeadline := agreedDeadline
     p; agreedTimeline := v; lockedAt := lockedAt p; status := status p;
     progressPercent := progressPercent p; milestones := milestones p; advancePaidAt
     := advancePaidAt p; advanceAmount := advanceAmount p; finalPaidAt := finalPaidAt
     p; finalAmount := finalAmount p; platformCommissionPercent :=
     platformCommissionPercent p; platformCommissionAmount := platformCommissionAmount
     p; workerPayoutAmount := workerPayoutAmount p; workerPayoutAt := workerPayoutAt
     p; rating := rating p; review := review p; ratedAt := ratedAt p; cancelledBy :=
     cancelledBy p; cancelReason := cancelReason p; cancelledAt := cancelledAt p |}.
Definition set_lockedAt (v : option Date) (p : t) : t :=
  {| clientId := clientId p; workerId := workerId p; chatWithUserId := chatWithUserId
     p; title := title p; description := description p; budget := budget p; deadline
     := deadline p; agreedBudget := agreedBudget p; agreedDeadline := agreedDeadline
     p; agreedTimeline := agreedTimeline p; lockedAt := v; status := status p;
     progressPercent := progressPercent p; milestones := milestones p; advancePaidAt
     := advancePaidAt p; advanceAmount := advanceAmount p; finalPaidAt := finalPaidAt
     p; finalAmount := finalAmount p; platformCommissionPercent :=
     platformCommissionPercent p; platformCommissionAmount := platformCommissionAmount
     p; workerPayoutAmount := workerPayoutAmount p; workerPayoutAt := workerPayoutAt
     p; rating := rating p; review := review p; ratedAt := ratedAt p; cancelledBy :=
     cancelledBy p; cancelReason := cancelReason p; cancelledAt := cancelledAt p |}.
Definition set_status (v : Status) (p : t) : t :=
  {| clientId := clientId p; workerId := workerId p; chatWithUserId := chatWithUserId
     p; title := title p; description := description p; budget := budget p; deadline
     := deadline p; agreedBudget := agreedBudget p; agreedDeadline := agreedDeadline
     p; agreedTimeline := agreedTimeline p; lockedAt := lockedAt p; status := v;
     progressPercent := progressPercent p; milestones := milestones p; advancePaidAt
     := advancePaidAt p; advanceAmount := advanceAmount p; finalPaidAt := finalPaidAt
     p; finalAmount := finalAmount p; platformCommissionPercent :=
     platformCommissionPercent p; platformCommissionAmount := platformCommissionAmount
     p; workerPayoutAmount := workerPayoutAmount p; workerPayoutAt := workerPayoutAt
     p; rating := rating p; review := review p; ratedAt := ratedAt p; cancelledBy :=
     cancelledBy p; cancelReason := cancelReason p; cancelledAt := cancelledAt p |}.
Definition set_progressPercent (v : Q) (p : t) : t :=
  {| clientId := clientId p; workerId := workerId p; chatWithUserId := chatWithUserId
     p; title := title p; description := description p; budget := budget p; deadline
     := deadline p; agreedBudget := agreedBudget p; agreedDeadline := agreedDeadline
     p; agreedTimeline := agreedTimeline p; lockedAt := lockedAt p; status := status
     p; progressPercent := v; milestones := milestones p; advancePaidAt :=
     advancePaidAt p; advanceAmount := advanceAmount p; finalPaidAt := finalPaidAt p;
     finalAmount := finalAmount p; platformCommissionPercent :=
     platformCommissionPercent p; platformCommissionAmount := platformCommissionAmount
     p; workerPayoutAmount := workerPayoutAmount p; workerPayoutAt := workerPayoutAt
     p; rating := rating p; review := review p; ratedAt := ratedAt p; cancelledBy :=
     cancelledBy p; cancelReason := cancelReason p; cancelledAt := cancelledAt p |}.
Definition set_milestones (v : list Milestone.t) (p : t) : t :=
  {| clientId := clientId p; workerId := workerId p; chatWithUserId := chatWithUserId
     p; title := title p; description := description p; budget := budget p; deadline
     := deadline p; agreedBudget := agreedBudget p; agreedDeadline := agreedDeadline
     p; agreedTimeline := agreedTimeline p; lockedAt := lockedAt p; status := status
     p; progressPercent := progressPercent p; milestones := v; advancePaidAt :=
     advancePaidAt p; advanceAmount := advanceAmount p; finalPaidAt := finalPaidAt p;
     finalAmount := finalAmount p; platformCommissionPercent :=
     platformCommissionPercent p; platformCommissionAmount := platformCommissionAmount
     p; workerPayoutAmount := workerPayoutAmount p; workerPayoutAt := workerPayoutAt
     p; rating := rating p; review := review p; ratedAt := ratedAt p; cancelledBy :=
     cancelledBy p; cancelReason := cancelReason p; cancelledAt := cancelledAt p |}.
Definition set_advancePaidAt (v : option Date) (p : t) : t :=
  {| clientId := clientId p; workerId := workerId p; chatWithUserId := chatWithUserId
     p; title := title p; description := description p; budget := budget p; deadline
     := deadline p; agreedBudget := agreedBudget p; agreedDeadline := agreedDeadline
     p; agreedTimeline := agreedTimeline p; lockedAt := lockedAt p; status := status
     p; progressPercent := progressPercent p; milestones := milestones p;
     advancePaidAt := v; advanceAmount := advanceAmount p; finalPaidAt := finalPaidAt
     p; finalAmount := finalAmount p; platformCommissionPercent :=
     platformCommissionPercent p; platformCommissionAmount := platformCommissionAmount
     p; workerPayoutAmount := workerPayoutAmount p; workerPayoutAt := workerPayoutAt
     p; rating := rating p; review := review p; ratedAt := ratedAt p; cancelledBy :=
     cancelledBy p; cancelReason := cancelReason p; cancelledAt := cancelledAt p |}.
Definition set_advanceAmount (v : Q) (p : t) : t :=
  {| clientId := clientId p; workerId := workerId p; chatWithUserId := chatWithUserId
     p; title := title p; description := description p; budget := budget p; deadline
     := deadline p; agreedBudget := agreedBudget p; agreedDeadline := agreedDeadline
     p; agreedTimeline := agreedTimeline p; lockedAt := lockedAt p; status := status
     p; progressPercent := progressPercent p; milestones := milestones p;
     advancePaidAt := advancePaidAt p; advanceAmount := v; finalPaidAt := finalPaidAt
     p; finalAmount := finalAmount p; platformCommissionPercent :=
     platformCommissionPercent p; platformCommissionAmount := platformCommissionAmount
     p; workerPayoutAmount := workerPayoutAmount p; workerPayoutAt := workerPayoutAt
     p; rating := rating p; review := review p; ratedAt := ratedAt p; cancelledBy :=
     cancelledBy p; cancelReason := cancelReason p; cancelledAt := cancelledAt p |}.
Definition set_finalPaidAt (v : option Date) (p : t) : t :=
  {| clientId := clientId p; workerId := workerId p; chatWithUserId := chatWithUserId
     p; title := title p; description := description p; budget := budget p; deadline
     := deadline p; agreedBudget := agreedBudget p; agreedDeadline := agreedDeadline
     p; agreedTimeline := agreedTimeline p; lockedAt := lockedAt p; status := status
     p; progressPercent := progressPercent p; milestones := milestones p;
     advancePaidAt := advancePaidAt p; advanceAmount := advanceAmount p; finalPaidAt
     := v; finalAmount := finalAmount p; platformCommissionPercent :=
     platformCommissionPercent p; platformCommissionAmount := platformCommissionAmount
     p; workerPayoutAmount := workerPayoutAmount p; workerPayoutAt := workerPayoutAt
     p; rating := rating p; review := review p; ratedAt := ratedAt p; cancelledBy :=
     cancelledBy p; cancelReason := cancelReason p; cancelledAt := cancelledAt p |}.
Definition set_finalAmount (v : Q) (p : t) : t :=
  {| clientId := clientId p; workerId := workerId p; chatWithUserId := chatWithUserId
     p; title := title p; description := description p; budget := budget p; deadline
     := deadline p; agreedBudget := agreedBudget p; agreedDeadline := agreedDeadline
     p; agreedTimeline := agreedTimeline p; lockedAt := lockedAt p; status := status
     p; progressPercent := progressPercent p; milestones := milestones p;
     advancePaidAt := advancePaidAt p; advanceAmount := advanceAmount p; finalPaidAt
     := finalPaidAt p; finalAmount := v; platformCommissionPercent :=
     platformCommissionPercent p; platformCommissionAmount := platformCommissionAmount
     p; workerPayoutAmount := workerPayoutAmount p; workerPayoutAt := workerPayoutAt
     p; rating := rating p; review := review p; ratedAt := ratedAt p; cancelledBy :=
     cancelledBy p; cancelReason := cancelReason p; cancelledAt := cancelledAt p |}.
Definition set_platformCommissionAmount (v : Q) (p : t) : t :=
  {| clientId := clientId p; workerId := workerId p; chatWithUserId := chatWithUserId
     p; title := title p; description := description p; budget := budget p; deadline
     := deadline p; agreedBudget := agreedBudget p; agreedDeadline := agreedDeadline
     p; agreedTimeline := agreedTimeline p; lockedAt := lockedAt p; status := status
     p; progressPercent := progressPercent p; milestones := milestones p;
     advancePaidAt := advancePaidAt p; advanceAmount := advanceAmount p; finalPaidAt
     := finalPaidAt p; finalAmount := finalAmount p; platformCommissionPercent :=
     platformCommissionPercent p; platformCommissionAmount := v; workerPayoutAmount :=
     workerPayoutAmount p; workerPayoutAt := workerPayoutAt p; rating := rating p;
     review := review p; ratedAt := ratedAt p; cancelledBy := cancelledBy p;
     cancelReason := cancelReason p; cancelledAt := cancelledAt p |}.
Definition set_workerPayoutAmount (v : Q) (p : t) : t :=
  {| clientId := clientId p; workerId := workerId p; chatWithUserId := chatWithUserId
     p; title := title p; description := description p; budget := budget p; deadline
     := deadline p; agreedBudget := agreedBudget p; agreedDeadline := agreedDeadline
     p; agreedTimeline := agreedTimeline p; lockedAt := lockedAt p; status := status
     p; progressPercent := progressPercent p; milestones := milestones p;
     advancePaidAt := advancePaidAt p; advanceAmount := advanceAmount p; finalPaidAt
     := finalPaidAt p; finalAmount := finalAmount p; platformCommissionPercent :=
     platformCommissionPercent p; platformCommissionAmount := platformCommissionAmount
     p; workerPayoutAmount := v; workerPayoutAt := workerPayoutAt p; rating := rating
     p; review := review p; ratedAt := ratedAt p; cancelledBy := cancelledBy p;
     cancelReason := cancelReason p; cancelledAt := cancelledAt p |}.
Definition set_workerPayoutAt (v : option Date) (p : t) : t :=
  {| clientId := clientId p; workerId := workerId p; chatWithUserId := chatWithUserId
     p; title := title p; description := description p; budget := budget p; deadline
     := deadline p; agreedBudget := agreedBudget p; agreedDeadline := agreedDeadline
     p; agreedTimeline := agreedTimeline p; lockedAt := lockedAt p; status := status
     p; progressPercent := progressPercent p; milestones := milestones p;
     advancePaidAt := advancePaidAt p; advanceAmount := advanceAmount p; finalPaidAt
     := finalPaidAt p; finalAmount := finalAmount p; platformCommissionPercent :=
     platformCommissionPercent p; platformCommissionAmount := platformCommissionAmount
     p; workerPayoutAmount := workerPayoutAmount p; workerPayoutAt := v; rating :=
     rating p; review := review p; ratedAt := ratedAt p; cancelledBy := cancelledBy p;
     cancelReason := cancelReason p; cancelledAt := cancelledAt p |}.
Definition set_rating (v : option Q) (p : t) : t :=
  {| clientId := clientId p; workerId := workerId p; chatWithUserId := chatWithUserId
     p; title := title p; description := description p; budget := budget p; deadline
     := deadline p; agreedBudget := agreedBudget p; agreedDeadline := agreedDeadline
     p; agreedTimeline := agreedTimeline p; lockedAt := lockedAt p; status := status
     p; progressPercent := progressPercent p; milestones := milestones p;
     advancePaidAt := advancePaidAt p; advanceAmount := advanceAmount p; finalPaidAt
     := finalPaidAt p; finalAmount := finalAmount p; platformCommissionPercent :=
     platformCommissionPercent p; platformCommissionAmount := platformCommissionAmount
     p; workerPayoutAmount := workerPayoutAmount p; workerPayoutAt := workerPayoutAt
     p; rating := v; review := review p; ratedAt := ratedAt p; cancelledBy :=
     cancelledBy p; cancelReason := cancelReason p; cancelledAt := cancelledAt p |}.
Definition set_review (v : string) (p : t) : t :=
  {| clientId := clientId p; workerId := workerId p; chatWithUserId := chatWithUserId
     p; title := title p; description := description p; budget := budget p; deadline
     := deadline p; agreedBudget := agreedBudget p; agreedDeadline := agreedDeadline
     p; agreedTimeline := agreedTimeline p; lockedAt := lockedAt p; status := status
     p; progressPercent := progressPercent p; milestones := milestones p;
     advancePaidAt := advancePaidAt p; advanceAmount := advanceAmount p; finalPaidAt
     := finalPaidAt p; finalAmount := finalAmount p; platformCommissionPercent :=
     platformCommissionPercent p; platformCommissionAmount := platformCommissionAmount
     p; workerPayoutAmount := workerPayoutAmount p; workerPayoutAt := workerPayoutAt
     p; rating := rating p; review := v; ratedAt := ratedAt p; cancelledBy :=
     cancelledBy p; cancelReason := cancelReason p; cancelledAt := cancelledAt p |}.
Definition set_ratedAt (v : option Date) (p : t) : t :=
  {| clientId := clientId p; workerId := workerId p; chatWithUserId := chatWithUserId
     p; title := title p; description := description p; budget := budget p; deadline
     := deadline p; agreedBudget := agreedBudget p; agreedDeadline := agreedDeadline
     p; agreedTimeline := agreedTimeline p; lockedAt := lockedAt p; status := status
     p; progressPercent := progressPercent p; milestones := milestones p;
     advancePaidAt := advancePaidAt p; advanceAmount := advanceAmount p; finalPaidAt
     := finalPaidAt p; finalAmount := finalAmount p; platformCommissionPercent :=
     platformCommissionPercent p; platformCommissionAmount := platformCommissionAmount
     p; workerPayoutAmount := workerPayoutAmount p; workerPayoutAt := workerPayoutAt
     p; rating := rating p; review := review p; ratedAt := v; cancelledBy :=
     cancelledBy p; cancelReason := cancelReason p; cancelledAt := cancelledAt p |}.
End EscrowProject.

Inductive TransactionType :=
| advance_payment | final_payment | platform_commission | worker_payout | refund.

#[global] Instance TransactionType_eq_dec : EqDecision TransactionType.
Proof. solve_decision. Defined.

Inductive TransactionStatus := txn_pending | txn_completed | txn_failed | txn_refunded.

Module Transaction.
Record t := {
  escrowProjectId : ObjectId;
  type : TransactionType;
  amount : Q;
  currency : string;
  fromUserId : option ObjectId;
  toUserId : option ObjectId;
  status : TransactionStatus;
  paymentGatewayRef : string;
  metadata : string
}.
End Transaction.

Module WorkerReview.
Record t := {
  workerId : ObjectId;
  clientId : ObjectId;
  escrowProjectId : ObjectId;
  rating : Q;
  review : string
}.
End WorkerReview.

Inductive NotificationType :=
| project_offer | project_accepted | project_rejected | advance_paid
| project_mid_level | project_completed | final_payment_required
| payment_released | project_cancelled | new_message.

Module Notification.
Record t := {
  userId : ObjectId;
  type : NotificationType;
  title : string;
  message : string;
  escrowProjectId : option ObjectId;
  read : bool;
  readAt : option Date
}.
End Notification.

(** Modelled from the spec: models/UserCard.js is not part of the sources
    read here; the rate handler uses a card's [rating] and [ratingCount]
    only, and finds the card by its [userId]. *)
Module UserCard.
Record t := {
  rating : Q;
  ratingCount : nat
}.
End UserCard.

(** Modelled from the spec: models/User.js is not part of the sources read
    here; the handlers read a user's [name] and [email]. *)
Module User.
Record t := {
  name : string;
  email : option string
}.
End User.

(** What the mail and push services were asked to deliver. *)
Module Email.
Record t := {
  toEmail : string;
  toName : string;
  fromName : string;
  projectTitle : string;
  description : string;
  budget : Q;
  deadline : Date
}.
End Email.

Module Push.
Record t := {
  userId : ObjectId;
  title : string;
  body : string;
  projectId : ObjectId;
  fromUserId : ObjectId
}.
End Push.

(** ** The database and the environment of a request *)

Record World := {
  escrow_projects : gmap ObjectId EscrowProject.t;
  transactions : list Transaction.t;
  notifications : list Notification.t;
  worker_reviews : list WorkerReview.t;
  user_cards : gmap ObjectId UserCard.t;
  users : gmap ObjectId User.t;
  outbox : list Email.t;
  pushes : list Push.t;
  console : list string
}.

Definition set_escrow_projects (v : gmap ObjectId EscrowProject.t) (w : World) : World
     :=
  {| escrow_projects := v; transactions := transactions w; notifications :=
     notifications w; worker_reviews := worker_reviews w; user_cards := user_cards w;
     users := users w; outbox := outbox w; pushes := pushes w; console := console w
     |}.
Definition set_transactions (v : list Transaction.t) (w : World) : World :=
  {| escrow_projects := escrow_projects w; transactions := v; notifications :=
     notifications w; worker_reviews := worker_reviews w; user_cards := user_cards w;
     users := users w; outbox := outbox w; pushes := pushes w; console := console w
     |}.
Definition set_notifications (v : list Notification.t) (w : World) : World :=
  {| escrow_projects := escrow_projects w; transactions := transactions w;
     notifications := v; worker_reviews := worker_reviews w; user_cards := user_cards
     w; users := users w; outbox := outbox w; pushes := pushes w; console := console w
     |}.
Definition set_worker_reviews (v : list WorkerReview.t) (w : World) : World :=
  {| escrow_projects := escrow_projects w; transactions := transactions w;
     notifications := notifications w; worker_reviews := v; user_cards := user_cards
     w; users := users w; outbox := outbox w; pushes := pushes w; console := console w
     |}.
Definition set_user_cards (v : gmap ObjectId UserCard.t) (w : World) : World :=
  {| escrow_projects := escrow_projects w; transactions := transactions w;
     notifications := notifications w; worker_reviews := worker_reviews w; user_cards
     := v; users := users w; outbox := outbox w; pushes := pushes w; console :=
     console w |}.
Definition set_outbox (v : list Email.t) (w : World) : World :=
  {| escrow_projects := escrow_projects w; transactions := transactions w;
     notifications := notifications w; worker_reviews := worker_reviews w; user_cards
     := user_cards w; users := users w; outbox := v; pushes := pushes w; console :=
     console w |}.
Definition set_pushes (v : list Push.t) (w : World) : World :=
  {| escrow_projects := escrow_projects w; transactions := transactions w;
     notifications := notifications w; worker_reviews := worker_reviews w; user_cards
     := user_cards w; users := users w; outbox := outbox w; pushes := v; console :=
     console w |}.
Definition set_console (v : list string) (w : World) : World :=
  {| escrow_projects := escrow_projects w; transactions := transactions w;
     notifications := notifications w; worker_reviews := worker_reviews w; user_cards
     := user_cards w; users := users w; outbox := outbox w; pushes := pushes w;
     console := v |}.

(** The clock, and the faults of the three notification sinks: [Some msg]
    makes the call reject with an error whose message is [msg]. *)
Record Env := {
  now : Date;
  notificationFault : option string;
  emailFault : option string;
  pushFault : option string
}.

(** ** Responses *)

Module ProjectJson.
Record t := {
  id : ObjectId;
  clientId : ObjectId;
  workerId : ObjectId;
  clientName : option string;
  workerName : option string;
  title : string;
  description : string;
  budget : Q;
  deadline : Date;
  agreedBudget : option Q;
  agreedDeadline : option Date;
  agreedTimeline : string;
  status : Status;
  progressPercent : Q;
  milestones : list Milestone.t;
  advancePaidAt : option Date;
  advanceAmount : Q;
  finalPaidAt : option Date;
  finalAmount : Q;
  platformCommissionAmount : Q;
  workerPayoutAmount : Q;
  rating : option Q;
  review : string;
  ratedAt : option Date
}.
End ProjectJson.

Inductive Json :=
| JError (error : string)
| JProject (project : ProjectJson.t).

Record Response := {
  statusCode : nat;
  json : Json
}.

(** [res.status(c).json({ error })] and [res.json(x)]. *)
Definition res_error (c : nat) (msg : string) : Response :=
  {| statusCode := c; json := JError msg |}.
Definition res_json (c : nat) (p : ProjectJson.t) : Response :=
  {| statusCode := c; json := JProject p |}.

(** ** Asynchronous code: state passing with exceptions *)

Inductive Completion (A : Type) :=
| Normal (a : A)
| Throw (message : string).
Arguments Normal {A} a.
Arguments Throw {A} message.

Definition Async (A : Type) : Type := World -> World * Completion A.

Definition ret {A : Type} (a : A) : Async A := fun w => (w, Normal a).

Definition throw {A : Type} (msg : string) : Async A := fun w => (w, Throw msg).

Definition bind {A B : Type} (m : Async A) (k : A -> Async B) : Async B :=
  fun w =>
    match m w with
    | (w', Normal a) => k a w'
    | (w', Throw msg) => (w', Throw msg)
    end.

Definition modify (f : World -> World) : Async unit := fun w => (f w, Normal tt).

Definition gets {A : Type} (f : World -> A) : Async A := fun w => (w, Normal (f w)).

Declare Scope async_scope.
Delimit Scope async_scope with async.
Notation "x <- m ;; k" := (bind m (fun x => k))
  (at level 100, m at next level, right associativity) : async_scope.
Notation "m ;; k" := (bind m (fun _ => k))
  (at level 100, right associativity) : async_scope.
Local Open Scope async_scope.

(** A route handler: [try { body } catch (err) { res.status(500).json(...) }]. *)
Definition Handler : Type := World -> World * Response.

Definition try_catch (body : Async Response) : Handler :=
  fun w =>
    match body w with
    | (w', Normal r) => (w', r)
    | (w', Throw msg) => (w', res_error 500 msg)
    end.

(** ** Collection operations *)

Definition EscrowProject_findById (id : ObjectId) : Async (option EscrowProject.t) :=
  gets (fun w => escrow_projects w !! id).

(** [EscrowProject.create(doc)]: the document is stored under a new id. *)
Definition EscrowProject_create (doc : EscrowProject.t) : Async ObjectId :=
  fun w =>
    let id := fresh (dom (escrow_projects w)) in
    (set_escrow_projects (<[id := doc]> (escrow_projects w)) w, Normal id).

(** [project.save()] *)
Definition EscrowProject_save (id : ObjectId) (doc : EscrowProject.t) : Async unit :=
  modify (fun w => set_escrow_projects (<[id := doc]> (escrow_projects w)) w).

Definition Transaction_create (t : Transaction.t) : Async unit :=
  modify (fun w => set_transactions (transactions w ++ [t]) w).

Definition WorkerReview_create (r : WorkerReview.t) : Async unit :=
  modify (fun w => set_worker_reviews (worker_reviews w ++ [r]) w).

(** [WorkerReview.find({ workerId })] *)
Definition WorkerReview_find (worker : ObjectId) : Async (list WorkerReview.t) :=
  gets (fun w =>
    List.filter (fun r => Nat.eqb (WorkerReview.workerId r) worker) (worker_reviews w)).

(** [UserCard.findOne({ userId })] and [card.save()] *)
Definition UserCard_findOne (user : ObjectId) : Async (option UserCard.t) :=
  gets (fun w => user_cards w !! user).

Definition UserCard_save (user : ObjectId) (card : UserCard.t) : Async unit :=
  modify (fun w => set_user_cards (<[user := card]> (user_cards w)) w).

Definition User_findById (user : ObjectId) : Async (option User.t) :=
  gets (fun w => users w !! user).

Definition console_error (line : string) : Async unit :=
  modify (fun w => set_console (console w ++ [line]) w).

(** ** routes/escrow.js *)

(** [createNotification]: awaits [Notification.create]; a rejection of
    that promise propagates to the caller. *)
Definition createNotification (env : Env) (userId : ObjectId)
    (type : NotificationType) (title message : string)
    (escrowProjectId : ObjectId) : Async unit :=
  match notificationFault env with
  | Some msg => throw msg
  | None =>
      modify (fun w => set_notifications (notifications w ++
        [{| Notification.userId := userId;
            Notification.type := type;
            Notification.title := title;
            Notification.message := message;
            Notification.escrowProjectId := Some escrowProjectId;
            Notification.read := false;
            Notification.readAt := None |}]) w)
  end.

(** [populate(path, 'name')]: the name of the referenced user. *)
Definition populate (user : ObjectId) : Async (option string) :=
  gets (fun w => User.name <$> users w !! user).

(** [formatProject]; the names are present when the path was populated. *)
Definition formatProject (id : ObjectId) (p : EscrowProject.t)
    (client worker : option string) : ProjectJson.t :=
  {| ProjectJson.id := id;
     ProjectJson.clientId := EscrowProject.clientId p;
     ProjectJson.workerId := EscrowProject.workerId p;
     ProjectJson.clientName := client;
     ProjectJson.workerName := worker;
     ProjectJson.title := EscrowProject.title p;
     ProjectJson.description := EscrowProject.description p;
     ProjectJson.budget := EscrowProject.budget p;
     ProjectJson.deadline := EscrowProject.deadline p;
     ProjectJson.agreedBudget := EscrowProject.agreedBudget p;
     ProjectJson.agreedDeadline := EscrowProject.agreedDeadline p;
     ProjectJson.agreedTimeline := EscrowProject.agreedTimeline p;
     ProjectJson.status := EscrowProject.status p;
     ProjectJson.progressPercent := EscrowProject.progressPercent p;
     ProjectJson.milestones := EscrowProject.milestones p;
     ProjectJson.advancePaidAt := EscrowProject.advancePaidAt p;
     ProjectJson.advanceAmount := EscrowProject.advanceAmount p;
     ProjectJson.finalPaidAt := EscrowProject.finalPaidAt p;
     ProjectJson.finalAmount := EscrowProject.finalAmount p;
     ProjectJson.platformCommissionAmount := EscrowProject.platformCommissionAmount p;
     ProjectJson.workerPayoutAmount := EscrowProject.workerPayoutAmount p;
     ProjectJson.rating := EscrowProject.rating p;
     ProjectJson.review := EscrowProject.review p;
     ProjectJson.ratedAt := EscrowProject.ratedAt p |}.

(** The authenticated actor, [req.user]. *)
Record ReqUser := {
  _id : ObjectId;
  name : string
}.

(** [p.catch(handler)]: a rejection is handled and does not propagate. *)
Definition catch (m : Async unit) (handler : string -> Async unit) : Async unit :=
  fun w =>
    match m w with
    | (w', Normal a) => (w', Normal a)
    | (w', Throw msg) => handler msg w'
    end.

(** The mail and push services as the handlers see them (services/email.js,
    services/push.js): a promise that delivers or rejects. *)
Definition sendProjectOfferEmail (env : Env) (m : Email.t) : Async unit :=
  match emailFault env with
  | Some msg => throw msg
  | None => modify (fun w => set_outbox (outbox w ++ [m]) w)
  end.

Definition sendPushToUser (env : Env) (m : Push.t) : Async unit :=
  match pushFault env with
  | Some msg => throw msg
  | None => modify (fun w => set_pushes (pushes w ++ [m]) w)
  end.

Module OfferBody.
Record t := {
  workerId : option ObjectId;
  title : option string;
  description : option string;
  budget : option Q;
  deadline : option Date
}.
End OfferBody.

Definition offer_required : string := "workerId, title, budget, deadline required".

(** POST /projects: the client sends an offer to a worker. *)
Definition post_projects (env : Env) (user : ReqUser) (body : OfferBody.t) : Handler :=
  try_catch (
    match OfferBody.workerId body, OfferBody.title body,
          OfferBody.budget body, OfferBody.deadline body with
    | Some workerId, Some title, Some budget, Some deadline =>
        if String.eqb (JS.trim title) "" || negb (JS.truthy budget)
           || Qle_bool budget 0
        then ret (res_error 400 offer_required)
        else
          let description := JS.trim (JS.nullish (OfferBody.description body) "") in
          let project :=
            {| EscrowProject.clientId := _id user;
               EscrowProject.workerId := workerId;
               EscrowProject.chatWithUserId := workerId;
               EscrowProject.title := JS.trim title;
               EscrowProject.description := description;
               EscrowProject.budget := budget;
               EscrowProject.deadline := deadline;
               EscrowProject.agreedBudget := None;
               EscrowProject.agreedDeadline := None;
               EscrowProject.agreedTimeline := "";
               EscrowProject.lockedAt := None;
               EscrowProject.status := offer_sent;
               EscrowProject.progressPercent := 0;
               EscrowProject.milestones := [];
               EscrowProject.advancePaidAt := None;
               EscrowProject.advanceAmount := 0;
               EscrowProject.finalPaidAt := None;
               EscrowProject.finalAmount := 0;
               EscrowProject.platformCommissionPercent := 5;
               EscrowProject.platformCommissionAmount := 0;
               EscrowProject.workerPayoutAmount := 0;
               EscrowProject.workerPayoutAt := None;
               EscrowProject.rating := None;
               EscrowProject.review := "";
               EscrowProject.ratedAt := None;
               EscrowProject.cancelledBy := None;
               EscrowProject.cancelReason := "";
               EscrowProject.cancelledAt := None |} in
          id <- EscrowProject_create project ;;
          createNotification env workerId project_offer "New Project Offer"
            ("You received a project offer: " +:+ JS.quoted title +:+ " from "
               +:+ name user) id ;;
          worker <- User_findById workerId ;;
          match worker with
          | Some u =>
              match User.email u with
              | Some mail =>
                  if String.eqb mail "" then ret tt
                  else
                    catch
                      (sendProjectOfferEmail env
                         {| Email.toEmail := mail;
                            Email.toName := User.name u;
                            Email.fromName := name user;
                            Email.projectTitle := JS.trim title;
                            Email.description := description;
                            Email.budget := budget;
                            Email.deadline := deadline |})
                      (fun msg => console_error ("Project offer email failed: " +:+ msg))
              | None => ret tt
              end
          | None => ret tt
          end ;;
          catch
            (sendPushToUser env
               {| Push.userId := workerId;
                  Push.title := "New project offer";
                  Push.body := name user +:+ " sent you a project offer: "
                                 +:+ JS.quoted (JS.trim title);
                  Push.projectId := id;
                  Push.fromUserId := _id user |})
            (fun msg => console_error ("Push (project offer) failed: " +:+ msg)) ;;
          ret (res_json 201 (formatProject id project None None))
    | _, _, _, _ => ret (res_error 400 offer_required)
    end).

Module AcceptBody.
Record t := {
  agreedBudget : option Q;
  agreedDeadline : option Date;
  agreedTimeline : option string
}.
End AcceptBody.

(** POST /projects/:id/accept: the worker locks the terms. *)
Definition post_accept (env : Env) (user : ReqUser) (id : ObjectId)
    (body : AcceptBody.t) : Handler :=
  try_catch (
    found <- EscrowProject_findById id ;;
    match found with
    | None => ret (res_error 404 "Project not found")
    | Some project =>
        if negb (Nat.eqb (EscrowProject.workerId project) (_id user))
        then ret (res_error 403 "Not authorized")
        else if negb (bool_decide (EscrowProject.status project = offer_sent))
        then ret (res_error 400 "Project already processed")
        else
          let budget :=
            JS.nullish (AcceptBody.agreedBudget body) (EscrowProject.budget project) in
          let deadline :=
            JS.nullish (AcceptBody.agreedDeadline body) (EscrowProject.deadline project) in
          let project := EscrowProject.set_agreedBudget (Some budget) project in
          let project := EscrowProject.set_agreedDeadline (Some deadline) project in
          let project :=
            EscrowProject.set_agreedTimeline
              (JS.trim (JS.nullish (AcceptBody.agreedTimeline body) "")) project in
          let project := EscrowProject.set_lockedAt (Some (now env)) project in
          let project := EscrowProject.set_status accepted project in
          EscrowProject_save id project ;;
          createNotification env (EscrowProject.clientId project) project_accepted
            "Project Accepted"
            ("Worker accepted your project " +:+ JS.quoted (EscrowProject.title project)
               +:+ ". Advance payment (10%) required.") id ;;
          ret (res_json 200 (formatProject id project None None))
    end).

(** POST /projects/:id/reject *)
Definition post_reject (env : Env) (user : ReqUser) (id : ObjectId) : Handler :=
  try_catch (
    found <- EscrowProject_findById id ;;
    match found with
    | None => ret (res_error 404 "Project not found")
    | Some project =>
        if negb (Nat.eqb (EscrowProject.workerId project) (_id user))
        then ret (res_error 403 "Not authorized")
        else if negb (bool_decide (EscrowProject.status project = offer_sent))
        then ret (res_error 400 "Project already processed")
        else
          let project := EscrowProject.set_status rejected project in
          EscrowProject_save id project ;;
          createNotification env (EscrowProject.clientId project) project_rejected
            "Project Rejected"
            ("Worker declined your project offer "
               +:+ JS.quoted (EscrowProject.title project)) id ;;
          ret (res_json 200 (formatProject id project None None))
    end).

(** [project.agreedBudget || project.budget] *)
Definition total (project : EscrowProject.t) : Q :=
  JS.or (EscrowProject.agreedBudget project) (EscrowProject.budget project).

(** POST /projects/:id/advance-payment: the client pays the 10% advance. *)
Definition post_advance_payment (env : Env) (user : ReqUser) (id : ObjectId) : Handler :=
  try_catch (
    found <- EscrowProject_findById id ;;
    match found with
    | None => ret (res_error 404 "Project not found")
    | Some project =>
        clientName <- populate (EscrowProject.clientId project) ;;
        workerName <- populate (EscrowProject.workerId project) ;;
        if negb (Nat.eqb (EscrowProject.clientId project) (_id user))
        then ret (res_error 403 "Not authorized")
        else if negb (bool_decide (EscrowProject.status project = accepted)
                      || bool_decide (EscrowProject.status project = pending_advance))
        then ret (res_error 400 "Invalid status for advance payment")
        else
          let total := total project in
          let advanceAmount := JS.Math_round (total * (1 # 10)) in
          Transaction_create
            {| Transaction.escrowProjectId := id;
               Transaction.type := advance_payment;
               Transaction.amount := advanceAmount;
               Transaction.currency := "INR";
               Transaction.fromUserId := Some (_id user);
               Transaction.toUserId := None;
               Transaction.status := txn_completed;
               Transaction.paymentGatewayRef := "sim_" +:+ pretty (now env);
               Transaction.metadata := "10% advance" |} ;;
          let project := EscrowProject.set_advanceAmount advanceAmount project in
          let project := EscrowProject.set_advancePaidAt (Some (now env)) project in
          let project := EscrowProject.set_status in_progress project in
          let project := EscrowProject.set_progressPercent 50 project in
          EscrowProject_save id project ;;
          createNotification env (EscrowProject.workerId project) advance_paid
            "Advance Payment Received"
            ("Advance payment (10%) received for "
               +:+ JS.quoted (EscrowProject.title project)
               +:+ ". Project is now In Progress.") id ;;
          ret (res_json 200 (formatProject id project clientName workerName))
    end).

Module ProgressBody.
Record t := {
  progressPercent : option Q;
  milestones : option (list Milestone.t)
}.
End ProgressBody.

(** PATCH /projects/:id/progress *)
Definition patch_progress (env : Env) (user : ReqUser) (id : ObjectId)
    (body : ProgressBody.t) : Handler :=
  try_catch (
    found <- EscrowProject_findById id ;;
    match found with
    | None => ret (res_error 404 "Project not found")
    | Some project =>
        if negb (Nat.eqb (EscrowProject.workerId project) (_id user))
        then ret (res_error 403 "Not authorized")
        else
          let project :=
            match ProgressBody.progressPercent body with
            | Some progressPercent =>
                EscrowProject.set_progressPercent
                  (JS.Math_min 100 (JS.Math_max 0 progressPercent)) project
            | None => project
            end in
          let project :=
            match ProgressBody.milestones body with
            | Some milestones => EscrowProject.set_milestones milestones project
            | None => project
            end in
          EscrowProject_save id project ;;
          ret (res_json 200 (formatProject id project None None))
    end).

(** POST /projects/:id/complete *)
Definition post_complete (env : Env) (user : ReqUser) (id : ObjectId) : Handler :=
  try_catch (
    found <- EscrowProject_findById id ;;
    match found with
    | None => ret (res_error 404 "Project not found")
    | Some project =>
        clientName <- populate (EscrowProject.clientId project) ;;
        if negb (Nat.eqb (EscrowProject.workerId project) (_id user))
        then ret (res_error 403 "Not authorized")
        else if negb (bool_decide (EscrowProject.status project = in_progress)
                      || bool_decide (EscrowProject.status project = mid_level))
        then ret (res_error 400 "Invalid status to complete")
        else
          let project := EscrowProject.set_status completed project in
          let project := EscrowProject.set_progressPercent 100 project in
          EscrowProject_save id project ;;
          createNotification env (EscrowProject.clientId project) final_payment_required
            "Project Completed"
            ("Worker marked " +:+ JS.quoted (EscrowProject.title project)
               +:+ " as completed. Final payment (90%) required.") id ;;
          ret (res_json 200 (formatProject id project clientName None))
    end).

(** POST /projects/:id/final-payment: the client pays the final 90%. *)
Definition post_final_payment (env : Env) (user : ReqUser) (id : ObjectId) : Handler :=
  try_catch (
    found <- EscrowProject_findById id ;;
    match found with
    | None => ret (res_error 404 "Project not found")
    | Some project =>
        workerName <- populate (EscrowProject.workerId project) ;;
        if negb (Nat.eqb (EscrowProject.clientId project) (_id user))
        then ret (res_error 403 "Not authorized")
        else if negb (bool_decide (EscrowProject.status project = completed))
        then ret (res_error 400 "Project not completed yet")
        else
          let total := total project in
          let finalAmount := JS.Math_round (total * (9 # 10)) in
          Transaction_create
            {| Transaction.escrowProjectId := id;
               Transaction.type := final_payment;
               Transaction.amount := finalAmount;
               Transaction.currency := "INR";
               Transaction.fromUserId := Some (_id user);
               Transaction.toUserId := None;
               Transaction.status := txn_completed;
               Transaction.paymentGatewayRef := "sim_" +:+ pretty (now env);
               Transaction.metadata := "90% final payment" |} ;;
          let project := EscrowProject.set_finalAmount finalAmount project in
          let project := EscrowProject.set_finalPaidAt (Some (now env)) project in
          EscrowProject_save id project ;;
          createNotification env (EscrowProject.workerId project) final_payment_required
            "Final Payment Received"
            ("Final payment received for " +:+ JS.quoted (EscrowProject.title project)
               +:+ ". Awaiting your rating to release payment.") id ;;
          ret (res_json 200 (formatProject id project None workerName))
    end).

Module RateBody.
Record t := {
  rating : option Q;
  review : option string
}.
End RateBody.

(** [!rating || rating < 1 || rating > 5] on a Number. *)
Definition rating_rejected (rating : Q) : bool :=
  negb (JS.truthy rating) || negb (Qle_bool 1 rating) || negb (Qle_bool rating 5).

(** A nullable path holds a value. *)
Definition is_set {A : Type} (o : option A) : bool :=
  match o with
  | Some _ => true
  | None => false
  end.

(** POST /projects/:id/rate: the client rates; the payment is released. *)
Definition post_rate (env : Env) (user : ReqUser) (id : ObjectId)
    (body : RateBody.t) : Handler :=
  try_catch (
    found <- EscrowProject_findById id ;;
    match found with
    | None => ret (res_error 404 "Project not found")
    | Some project =>
        workerName <- populate (EscrowProject.workerId project) ;;
        if negb (Nat.eqb (EscrowProject.clientId project) (_id user))
        then ret (res_error 403 "Not authorized")
        else if negb (bool_decide (EscrowProject.status project = completed))
                || negb (is_set (EscrowProject.finalPaidAt project))
        then ret (res_error 400 "Rate only after final payment")
        else
          match RateBody.rating body with
          | None => ret (res_error 400 "Rating 1-5 required")
          | Some rating =>
              if rating_rejected rating
              then ret (res_error 400 "Rating 1-5 required")
              else
                let worker := EscrowProject.workerId project in
                let review := JS.trim (JS.nullish (RateBody.review body) "") in
                WorkerReview_create
                  {| WorkerReview.workerId := worker;
                     WorkerReview.clientId := _id user;
                     WorkerReview.escrowProjectId := id;
                     WorkerReview.rating := rating;
                     WorkerReview.review := review |} ;;
                let project := EscrowProject.set_rating (Some rating) project in
                let project := EscrowProject.set_review review project in
                let project := EscrowProject.set_ratedAt (Some (now env)) project in
                let total := total project in
                let commissionPercent :=
                  JS.or (Some (EscrowProject.platformCommissionPercent project)) 5 in
                let project :=
                  EscrowProject.set_platformCommissionAmount
                    (JS.Math_round (total * (commissionPercent / 100))) project in
                let project :=
                  EscrowProject.set_workerPayoutAmount
                    (total - EscrowProject.platformCommissionAmount project) project in
                let project := EscrowProject.set_workerPayoutAt (Some (now env)) project in
                let project := EscrowProject.set_status completed_released project in
                EscrowProject_save id project ;;
                Transaction_create
                  {| Transaction.escrowProjectId := id;
                     Transaction.type := platform_commission;
                     Transaction.amount := EscrowProject.platformCommissionAmount project;
                     Transaction.currency := "INR";
                     Transaction.fromUserId := None;
                     Transaction.toUserId := None;
                     Transaction.status := txn_completed;
                     Transaction.paymentGatewayRef := "";
                     Transaction.metadata := "Platform commission" |} ;;
                Transaction_create
                  {| Transaction.escrowProjectId := id;
                     Transaction.type := worker_payout;
                     Transaction.amount := EscrowProject.workerPayoutAmount project;
                     Transaction.currency := "INR";
                     Transaction.fromUserId := None;
                     Transaction.toUserId := Some worker;
                     Transaction.status := txn_completed;
                     Transaction.paymentGatewayRef := "";
                     Transaction.metadata := "Payment released to worker" |} ;;
                card <- UserCard_findOne worker ;;
                match card with
                | Some _ =>
                    reviews <- WorkerReview_find worker ;;
                    let sum :=
                      fold_left (fun s r => s + WorkerReview.rating r) reviews 0 in
                    UserCard_save worker
                      {| UserCard.rating :=
                           match length reviews with
                           | O => 0
                           | S _ => sum / inject_Z (Z.of_nat (length reviews))
                           end;
                         UserCard.ratingCount := length reviews |}
                | None => ret tt
                end ;;
                createNotification env worker payment_released "Payment Released"
                  ("Payment of ₹" +:+ JS.show (EscrowProject.workerPayoutAmount project)
                     +:+ " released for " +:+ JS.quoted (EscrowProject.title project)) id ;;
                ret (res_json 200 (formatProject id project None workerName))
          end
    end).

(** ** The transitions of the state machine as one dispatch *)

Inductive Transition :=
| Accept (body : AcceptBody.t)
| Reject
| AdvancePayment
| UpdateProgress (body : ProgressBody.t)
| Complete
| FinalPayment
| Rate (body : RateBody.t).

(** The route table: which handler serves which transition. *)
Definition route (env : Env) (user : ReqUser) (id : ObjectId) (t : Transition) : Handler :=
  match t with
  | Accept body => post_accept env user id body
  | Reject => post_reject env user id
  | AdvancePayment => post_advance_payment env user id
  | UpdateProgress body => patch_progress env user id body
  | Complete => post_complete env user id
  | FinalPayment => post_final_payment env user id
  | Rate body => post_rate env user id body
  end.

Inductive Party := Client | Worker.

(** The party each transition is reserved to (section 4.1 of the design). *)
Definition required_party (t : Transition) : Party :=
  match t with
  | Accept _ | Reject | UpdateProgress _ | Complete => Worker
  | AdvancePayment | FinalPayment | Rate _ => Client
  end.

Definition party_id (who : Party) (project : EscrowProject.t) : ObjectId :=
  match who with
  | Client => EscrowProject.clientId project
  | Worker => EscrowProject.workerId project
  end.

(** Any request of the API. *)
Inductive Request :=
| CreateOffer (body : OfferBody.t)
| OnProject (id : ObjectId) (t : Transition).

Definition serve (env : Env) (user : ReqUser) (req : Request) : Handler :=
  match req with
  | CreateOffer body => post_projects env user body
  | OnProject id t => route env user id t
  end.

(** The databases the service can be in: it starts without projects and
    moves by serving requests. *)
Inductive reachable : World -> Prop :=
| reachable_start (w : World) :
    escrow_projects w = ∅ -> reachable w
| reachable_serve (env : Env) (user : ReqUser) (req : Request) (w : World) :
    reachable w -> reachable (fst (serve env user req w)).

(** * Vocabulary of the properties *)

Definition not_authorized : Response := res_error 403 "Not authorized".

(** The state precondition of each transition (the 400 guards). *)
Definition precondition (t : Transition) (project : EscrowProject.t) : bool :=
  let status := EscrowProject.status project in
  match t with
  | Accept _ | Reject => bool_decide (status = offer_sent)
  | AdvancePayment =>
      bool_decide (status = accepted) || bool_decide (status = pending_advance)
  | UpdateProgress _ => true
  | Complete => bool_decide (status = in_progress) || bool_decide (status = mid_level)
  | FinalPayment => bool_decide (status = completed)
  | Rate body =>
      bool_decide (status = completed) && is_set (EscrowProject.finalPaidAt project)
      && match RateBody.rating body with
         | Some r => negb (rating_rejected r)
         | None => false
         end
  end.

(** ** A worked request sequence

    The example of section 8 of the design: Alice offers a project of
    10000 to Bob, who accepts; Alice pays the advance, Bob completes, Alice
    pays the rest and rates 5. *)

Module Sample.

Definition env : Env :=
  {| now := 1700000000000%Z;
     notificationFault := None; emailFault := None; pushFault := None |}.

Definition alice : ReqUser := {| _id := 1%nat; name := "Alice" |}.
Definition bob : ReqUser := {| _id := 2%nat; name := "Bob" |}.
Definition carol : ReqUser := {| _id := 3%nat; name := "Carol" |}.

Definition start : World :=
  {| escrow_projects := ∅;
     transactions := [];
     notifications := [];
     worker_reviews := [];
     user_cards := {[ 2%nat := {| UserCard.rating := 0; UserCard.ratingCount := 0%nat |} ]};
     users :=
       {[ 1%nat := {| User.name := "Alice"; User.email := Some "alice@example.org" |};
          2%nat := {| User.name := "Bob"; User.email := Some "bob@example.org" |};
          3%nat := {| User.name := "Carol"; User.email := None |} ]};
     outbox := [];
     pushes := [];
     console := [] |}.

Definition offer (worker : ObjectId) (budget : Q) : OfferBody.t :=
  {| OfferBody.workerId := Some worker;
     OfferBody.title := Some "Logo design";
     OfferBody.description := Some "A logo for the shop";
     OfferBody.budget := Some budget;
     OfferBody.deadline := Some 1702000000000%Z |}.

Definition terms (agreed : option Q) : AcceptBody.t :=
  {| AcceptBody.agreedBudget := agreed;
     AcceptBody.agreedDeadline := None;
     AcceptBody.agreedTimeline := Some "two weeks" |}.

Definition stars (n : Q) : RateBody.t :=
  {| RateBody.rating := Some n; RateBody.review := Some "Good work" |}.

(** The database after each step, for a proposed budget and locked terms. *)
Definition offered (budget : Q) : World :=
  fst (post_projects env alice (offer 2%nat budget) start).
Definition locked (budget : Q) (agreed : option Q) : World :=
  fst (post_accept env bob 0%nat (terms agreed) (offered budget)).
Definition funded (budget : Q) (agreed : option Q) : World :=
  fst (post_advance_payment env alice 0%nat (locked budget agreed)).
Definition delivered (budget : Q) (agreed : option Q) : World :=
  fst (post_complete env bob 0%nat (funded budget agreed)).
Definition paid (budget : Q) (agreed : option Q) : World :=
  fst (post_final_payment env alice 0%nat (delivered budget agreed)).
Definition released (budget : Q) (agreed : option Q) : World :=
  fst (post_rate env alice 0%nat (stars 5) (paid budget agreed)).

(** The stored project 0 of a database. *)
Definition project0 (w : World) : option EscrowProject.t := escrow_projects w !! 0%nat.

End Sample.

(** The effect of a progress payload on a document (what the handler
    assigns before [save]). *)
Definition with_progress (body : ProgressBody.t) (project : EscrowProject.t)
    : EscrowProject.t :=
  let project :=
    match ProgressBody.progressPercent body with
    | Some q => EscrowProject.set_progressPercent (JS.Math_min 100 (JS.Math_max 0 q)) project
    | None => project
    end in
  match ProgressBody.milestones body with
  | Some ms => EscrowProject.set_milestones ms project
  | None => project
  end.

(** An environment whose notification collection rejects writes. *)
Definition faulty (msg : string) : Env :=
  {| now := now Sample.env; notificationFault := Some msg;
     emailFault := None; pushFault := None |}.

(** The validation of [post_projects] passes. *)
Definition offer_valid (body : OfferBody.t) : bool :=
  match OfferBody.workerId body, OfferBody.title body,
        OfferBody.budget body, OfferBody.deadline body with
  | Some _, Some title, Some budget, Some _ =>
      negb (String.eqb (JS.trim title) "" || negb (JS.truthy budget) || Qle_bool budget 0)
  | _, _, _, _ => false
  end.

(** The transitions that notify the other party. *)
Definition notifies (t : Transition) : bool :=
  match t with
  | UpdateProgress _ => false
  | _ => true
  end.

(** The final-payment command sent once per environment of the list, in
    order, with the answers collected. *)
Fixpoint repeat_final_payment (envs : list Env) (user : ReqUser) (id : ObjectId)
    (w : World) : World * list Response :=
  match envs with
  | [] => (w, [])
  | env :: rest =>
      let served := post_final_payment env user id w in
      let later := repeat_final_payment rest user id (fst served) in
      (fst later, snd served :: snd later)
  end.

(** The ledger row of a final payment. *)
Definition final_payment_row (env : Env) (user : ReqUser) (id : ObjectId) (amount : Q)
    : Transaction.t :=
  {| Transaction.escrowProjectId := id;
     Transaction.type := final_payment;
     Transaction.amount := amount;
     Transaction.currency := "INR";
     Transaction.fromUserId := Some (_id user);
     Transaction.toUserId := None;
     Transaction.status := txn_completed;
     Transaction.paymentGatewayRef := "sim_" +:+ pretty (now env);
     Transaction.metadata := "90% final payment" |}.

(** The document after a final payment. *)
Definition finally_paid (env : Env) (project : EscrowProject.t) : EscrowProject.t :=
  EscrowProject.set_finalPaidAt (Some (now env))
    (EscrowProject.set_finalAmount (JS.Math_round (total project * (9 # 10))) project).

(** When the design accepts a rating: the project is stored, completed,
    finally paid, and the rating lies in 1..5. *)
Definition rate_acceptable (w : World) (id : ObjectId) (body : RateBody.t) : Prop :=
  exists project q,
    escrow_projects w !! id = Some project
    /\ EscrowProject.status project = completed
    /\ EscrowProject.finalPaidAt project <> None
    /\ RateBody.rating body = Some q /\ 1 <= q <= 5.

(** A 4xx answer. *)
Definition client_error (r : Response) : Prop :=
  (400 <= statusCode r < 500)%nat /\ exists msg, json r = JError msg.

(** The ratings stored for a worker, oldest first. *)
Definition ratings_of (worker : ObjectId) (w : World) : list Q :=
  map WorkerReview.rating
    (List.filter (fun r => Nat.eqb (WorkerReview.workerId r) worker) (worker_reviews w)).

(** The arithmetic mean of a list of ratings. *)
Definition mean (l : list Q) : Q :=
  fold_right Qplus 0 l / inject_Z (Z.of_nat (length l)).

(** The commission rate the rate handler applies. *)
Definition commissionPercent (project : EscrowProject.t) : Q :=
  JS.or (Some (EscrowProject.platformCommissionPercent project)) 5.

(** The document after the rating and the release. *)
Definition rated (env : Env) (rating : Q) (review : string) (project : EscrowProject.t)
    : EscrowProject.t :=
  let commission := JS.Math_round (total project * (commissionPercent project / 100)) in
  EscrowProject.set_status completed_released
    (EscrowProject.set_workerPayoutAt (Some (now env))
       (EscrowProject.set_workerPayoutAmount (total project - commission)
          (EscrowProject.set_platformCommissionAmount commission
             (EscrowProject.set_ratedAt (Some (now env))
                (EscrowProject.set_review review
                   (EscrowProject.set_rating (Some rating) project)))))).

(** The document after the advance payment. *)
Definition advanced (env : Env) (project : EscrowProject.t) : EscrowProject.t :=
  EscrowProject.set_progressPercent 50
    (EscrowProject.set_status in_progress
       (EscrowProject.set_advancePaidAt (Some (now env))
          (EscrowProject.set_advanceAmount (JS.Math_round (total project * (1 # 10)))
             project))).

(** The amounts of the ledger rows of a database, with their types. *)
Definition ledger (w : World) : list (TransactionType * Q) :=
  map (fun t => (Transaction.type t, Transaction.amount t)) (transactions w).

(** The document after the acceptance and after the completion. *)
Definition with_locked_terms (env : Env) (body : AcceptBody.t) (project : EscrowProject.t)
    : EscrowProject.t :=
  EscrowProject.set_status accepted
    (EscrowProject.set_lockedAt (Some (now env))
       (EscrowProject.set_agreedTimeline
          (JS.trim (JS.nullish (AcceptBody.agreedTimeline body) ""))
          (EscrowProject.set_agreedDeadline
             (Some (JS.nullish (AcceptBody.agreedDeadline body)
                      (EscrowProject.deadline project)))
             (EscrowProject.set_agreedBudget
                (Some (JS.nullish (AcceptBody.agreedBudget body)
                         (EscrowProject.budget project)))
                project)))).

Definition marked_completed (project : EscrowProject.t) : EscrowProject.t :=
  EscrowProject.set_progressPercent 100 (EscrowProject.set_status completed project).

(** What a transition that passes its guards writes to the document. *)
Definition apply_transition (env : Env) (t : Transition) (project : EscrowProject.t)
    : EscrowProject.t :=
  match t with
  | Accept body => with_locked_terms env body project
  | Reject => EscrowProject.set_status rejected project
  | AdvancePayment => advanced env project
  | UpdateProgress body => with_progress body project
  | Complete => marked_completed project
  | FinalPayment => finally_paid env project
  | Rate body =>
      rated env (JS.nullish (RateBody.rating body) 0)
        (JS.trim (JS.nullish (RateBody.review body) "")) project
  end.

(** Statuses in which the advance has been paid. *)
Definition advance_settled (s : Status) : bool :=
  match s with
  | in_progress | completed | completed_released => true
  | _ => false
  end.

(** Statuses some handler assigns. *)
Definition assigned (s : Status) : bool :=
  match s with
  | pending_advance | mid_level | cancelled => false
  | _ => true
  end.

(** What holds of every document the handlers have produced. *)
Record sound (p : EscrowProject.t) : Prop := {
  sound_status : assigned (EscrowProject.status p) = true;
  sound_percent : EscrowProject.platformCommissionPercent p = 5;
  sound_locked :
    EscrowProject.status p <> offer_sent -> EscrowProject.status p <> rejected ->
    exists a, EscrowProject.agreedBudget p = Some a;
  sound_advance :
    advance_settled (EscrowProject.status p) = true ->
    EscrowProject.advanceAmount p = JS.Math_round (total p * (1 # 10));
  sound_final_status :
    EscrowProject.finalPaidAt p <> None ->
    EscrowProject.status p = completed \/ EscrowProject.status p = completed_released;
  sound_final :
    EscrowProject.finalPaidAt p <> None ->
    EscrowProject.finalAmount p = JS.Math_round (total p * (9 # 10));
  sound_release :
    EscrowProject.status p = completed_released ->
    EscrowProject.finalPaidAt p <> None
    /\ EscrowProject.platformCommissionAmount p
       = JS.Math_round (total p * (commissionPercent p / 100))
    /\ EscrowProject.workerPayoutAmount p
       = total p - EscrowProject.platformCommissionAmount p
}.

(** The design's reading of the total: [agreedBudget ?? budget]. *)
Definition spec_total (project : EscrowProject.t) : Q :=
  JS.nullish (EscrowProject.agreedBudget project) (EscrowProject.budget project).

(** Rounding to the nearest whole unit, ties away from zero. *)
Definition round_half_away (x : Q) : Q :=
  if Qle_bool 0 x
  then inject_Z (Qfloor (x + (1 # 2)))
  else - inject_Z (Qfloor (- x + (1 # 2))).

(** [r] is [x] rounded to the nearest whole unit, a tie going up. *)
Definition rounds_half_up (x r : Q) : Prop :=
  (exists n : Z, r = inject_Z n) /\ r - (1 # 2) <= x /\ x < r + (1 # 2).

(** Name the stored sample project 0 of a database. *)
Ltac stored_project w p E :=
  destruct (Sample.project0 w) as [p|] eqn:E; [| vm_compute in E; discriminate].

(** ** The money formulas in binary64

    The arithmetic of the handlers as the runtime performs it, on IEEE-754
    doubles, to evaluate the examples of this file without the rational
    reading. *)

Module Binary64.

Local Open Scope float_scope.

Definition two52 : float := 4503599627370496.

(** [Math.floor]: below 2^52 adding and removing 2^52 rounds to a whole
    number, which is then corrected downwards; from 2^52 on every double is
    whole. *)
Definition Math_floor (x : float) : float :=
  if abs x <? two52 then
    let t := if 0 <=? x then (x + two52) - two52 else (x - two52) + two52 in
    if x <? t then t - 1 else t
  else x.

(** [Math.round]: the nearest whole number, a tie going up. *)
Definition Math_round (x : float) : float :=
  let f := Math_floor x in
  if 0.5 <=? x - f then f + 1 else f.

Definition advanceAmount (total : float) : float := Math_round (total * (1 / 10)).
Definition finalAmount (total : float) : float := Math_round (total * (9 / 10)).
Definition platformCommissionAmount (total commissionPercent : float) : float :=
  Math_round (total * (commissionPercent / 100)).
Definition workerPayoutAmount (total commissionPercent : float) : float :=
  total - platformCommissionAmount total commissionPercent.

End Binary64.

(** * Vocabulary of the further properties *)

(** ** Sequences of requests *)

(** One call of the API: the environment it runs in, the authenticated
    actor and the request. *)
Record Call := {
  call_env : Env;
  call_user : ReqUser;
  call_request : Request
}.

(** The database after the calls were served one after the other. *)
Fixpoint serve_all (calls : list Call) (w : World) : World :=
  match calls with
  | [] => w
  | c :: rest =>
      serve_all rest (fst (serve (call_env c) (call_user c) (call_request c) w))
  end.

(** The status changes the handlers can make. *)
Inductive edge : Status -> Status -> Prop :=
| edge_accept : edge offer_sent accepted
| edge_reject : edge offer_sent rejected
| edge_advance : edge accepted in_progress
| edge_advance_pending : edge pending_advance in_progress
| edge_complete : edge in_progress completed
| edge_complete_mid : edge mid_level completed
| edge_release : edge completed completed_released.

(** Statuses no handler leaves. *)
Definition closed (s : Status) : bool :=
  match s with
  | rejected | completed_released | cancelled => true
  | _ => false
  end.

(** The document [post_projects] creates. *)
Definition new_offer (user : ReqUser) (workerId : ObjectId) (title : string)
    (description : option string) (budget : Q) (deadline : Date) : EscrowProject.t :=
  {| EscrowProject.clientId := _id user;
     EscrowProject.workerId := workerId;
     EscrowProject.chatWithUserId := workerId;
     EscrowProject.title := JS.trim title;
     EscrowProject.description := JS.trim (JS.nullish description "");
     EscrowProject.budget := budget;
     EscrowProject.deadline := deadline;
     EscrowProject.agreedBudget := None;
     EscrowProject.agreedDeadline := None;
     EscrowProject.agreedTimeline := "";
     EscrowProject.lockedAt := None;
     EscrowProject.status := offer_sent;
     EscrowProject.progressPercent := 0;
     EscrowProject.milestones := [];
     EscrowProject.advancePaidAt := None;
     EscrowProject.advanceAmount := 0;
     EscrowProject.finalPaidAt := None;
     EscrowProject.finalAmount := 0;
     EscrowProject.platformCommissionPercent := 5;
     EscrowProject.platformCommissionAmount := 0;
     EscrowProject.workerPayoutAmount := 0;
     EscrowProject.workerPayoutAt := None;
     EscrowProject.rating := None;
     EscrowProject.review := "";
     EscrowProject.ratedAt := None;
     EscrowProject.cancelledBy := None;
     EscrowProject.cancelReason := "";
     EscrowProject.cancelledAt := None |}.

(** Two documents that differ at most in what a progress update writes. *)
Definition same_but_progress (p p' : EscrowProject.t) : Prop :=
  EscrowProject.set_milestones (EscrowProject.milestones p)
    (EscrowProject.set_progressPercent (EscrowProject.progressPercent p) p') = p.

(** The terms proposed with the offer, and the parties. *)
Definition proposed (p : EscrowProject.t)
    : ObjectId * ObjectId * ObjectId * string * string * Q * Date * Q :=
  (EscrowProject.clientId p, EscrowProject.workerId p, EscrowProject.chatWithUserId p,
   EscrowProject.title p, EscrowProject.description p, EscrowProject.budget p,
   EscrowProject.deadline p, EscrowProject.platformCommissionPercent p).

(** The terms locked at the acceptance. *)
Definition locked_terms (p : EscrowProject.t)
    : option Q * option Date * string * option Date :=
  (EscrowProject.agreedBudget p, EscrowProject.agreedDeadline p,
   EscrowProject.agreedTimeline p, EscrowProject.lockedAt p).

(** Requests sent after the sample project was released: the client rates
    and pays again, the worker tries to accept and reports progress. *)
Definition late_calls : list Call :=
  [ {| call_env := Sample.env; call_user := Sample.alice;
       call_request := OnProject 0%nat (Rate (Sample.stars 1)) |};
    {| call_env := Sample.env; call_user := Sample.alice;
       call_request := OnProject 0%nat FinalPayment |};
    {| call_env := Sample.env; call_user := Sample.bob;
       call_request := OnProject 0%nat (Accept (Sample.terms (Some 1))) |};
    {| call_env := Sample.env; call_user := Sample.bob;
       call_request :=
         OnProject 0%nat
           (UpdateProgress {| ProgressBody.progressPercent := Some 10;
                              ProgressBody.milestones := None |}) |} ].

(** ** What a transition writes besides the document *)

Definition advance_payment_row (env : Env) (user : ReqUser) (id : ObjectId) (amount : Q)
    : Transaction.t :=
  {| Transaction.escrowProjectId := id;
     Transaction.type := advance_payment;
     Transaction.amount := amount;
     Transaction.currency := "INR";
     Transaction.fromUserId := Some (_id user);
     Transaction.toUserId := None;
     Transaction.status := txn_completed;
     Transaction.paymentGatewayRef := "sim_" +:+ pretty (now env);
     Transaction.metadata := "10% advance" |}.

Definition platform_commission_row (id : ObjectId) (amount : Q) : Transaction.t :=
  {| Transaction.escrowProjectId := id;
     Transaction.type := platform_commission;
     Transaction.amount := amount;
     Transaction.currency := "INR";
     Transaction.fromUserId := None;
     Transaction.toUserId := None;
     Transaction.status := txn_completed;
     Transaction.paymentGatewayRef := "";
     Transaction.metadata := "Platform commission" |}.

Definition worker_payout_row (id worker : ObjectId) (amount : Q) : Transaction.t :=
  {| Transaction.escrowProjectId := id;
     Transaction.type := worker_payout;
     Transaction.amount := amount;
     Transaction.currency := "INR";
     Transaction.fromUserId := None;
     Transaction.toUserId := Some worker;
     Transaction.status := txn_completed;
     Transaction.paymentGatewayRef := "";
     Transaction.metadata := "Payment released to worker" |}.

(** The ledger rows a transition that passes its guards appends. *)
Definition ledger_rows (env : Env) (user : ReqUser) (id : ObjectId) (t : Transition)
    (p : EscrowProject.t) : list Transaction.t :=
  match t with
  | AdvancePayment =>
      [advance_payment_row env user id (JS.Math_round (total p * (1 # 10)))]
  | FinalPayment =>
      [final_payment_row env user id (JS.Math_round (total p * (9 # 10)))]
  | Rate _ =>
      let p' := apply_transition env t p in
      [platform_commission_row id (EscrowProject.platformCommissionAmount p');
       worker_payout_row id (EscrowProject.workerId p)
         (EscrowProject.workerPayoutAmount p')]
  | _ => []
  end.

(** The review a transition that passes its guards stores. *)
Definition review_rows (user : ReqUser) (id : ObjectId) (t : Transition)
    (p : EscrowProject.t) : list WorkerReview.t :=
  match t with
  | Rate body =>
      [{| WorkerReview.workerId := EscrowProject.workerId p;
          WorkerReview.clientId := _id user;
          WorkerReview.escrowProjectId := id;
          WorkerReview.rating := JS.nullish (RateBody.rating body) 0;
          WorkerReview.review := JS.trim (JS.nullish (RateBody.review body) "") |}]
  | _ => []
  end.

Definition counterparty (who : Party) : Party :=
  match who with
  | Client => Worker
  | Worker => Client
  end.

(** The kind of notification each transition sends, if any. *)
Definition notice_type (t : Transition) : option NotificationType :=
  match t with
  | Accept _ => Some project_accepted
  | Reject => Some project_rejected
  | AdvancePayment => Some advance_paid
  | UpdateProgress _ => None
  | Complete => Some final_payment_required
  | FinalPayment => Some final_payment_required
  | Rate _ => Some payment_released
  end.

(** A notification of kind [ty] for [user] about project [id], unread. *)
Definition notice_for (user : ObjectId) (ty : NotificationType) (id : ObjectId)
    (n : Notification.t) : Prop :=
  Notification.userId n = user
  /\ Notification.type n = ty
  /\ Notification.escrowProjectId n = Some id
  /\ Notification.read n = false
  /\ Notification.readAt n = None.

(** ** The ledger against the documents *)

(** The rows of one type that refer to one project. *)
Definition rows_of (ty : TransactionType) (id : ObjectId) (l : list Transaction.t)
    : list Transaction.t :=
  List.filter
    (fun r => bool_decide (Transaction.type r = ty)
              && Nat.eqb (Transaction.escrowProjectId r) id) l.

Definition b2n (b : bool) : nat := if b then 1%nat else 0%nat.

Definition is_released (s : Status) : bool := bool_decide (s = completed_released).

(** The field of the document that holds the amount of a row of each type. *)
Definition booked_amount (ty : TransactionType) (p : EscrowProject.t) : Q :=
  match ty with
  | advance_payment => EscrowProject.advanceAmount p
  | final_payment => EscrowProject.finalAmount p
  | platform_commission => EscrowProject.platformCommissionAmount p
  | worker_payout => EscrowProject.workerPayoutAmount p
  | refund => 0
  end.

(** Who pays and who receives in a row of each type. *)
Definition booked_from (ty : TransactionType) (p : EscrowProject.t) : option ObjectId :=
  match ty with
  | advance_payment | final_payment => Some (EscrowProject.clientId p)
  | _ => None
  end.

Definition booked_to (ty : TransactionType) (p : EscrowProject.t) : option ObjectId :=
  match ty with
  | worker_payout => Some (EscrowProject.workerId p)
  | _ => None
  end.

(** A ledger row agrees with the project it refers to. *)
Definition row_agrees (p : EscrowProject.t) (r : Transaction.t) : Prop :=
  Transaction.type r <> refund
  /\ Transaction.amount r = booked_amount (Transaction.type r) p
  /\ Transaction.fromUserId r = booked_from (Transaction.type r) p
  /\ Transaction.toUserId r = booked_to (Transaction.type r) p.

(** The ledger [l] is consistent with the project [p] stored under [id]. *)
Record booked_project (l : list Transaction.t) (id : ObjectId) (p : EscrowProject.t)
    : Prop := {
  booked_rows :
    Forall (fun r => Transaction.escrowProjectId r = id -> row_agrees p r) l;
  booked_advance :
    length (rows_of advance_payment id l) = b2n (advance_settled (EscrowProject.status p));
  booked_final :
    rows_of final_payment id l = [] <-> EscrowProject.finalPaidAt p = None;
  booked_commission :
    length (rows_of platform_commission id l) = b2n (is_released (EscrowProject.status p));
  booked_payout :
    length (rows_of worker_payout id l) = b2n (is_released (EscrowProject.status p))
}.

(** The ledger of a database is consistent with all its projects, and has
    no row for a project that is not stored. *)
Definition booked (w : World) : Prop :=
  forall id,
    match escrow_projects w !! id with
    | Some p => booked_project (transactions w) id p
    | None => Forall (fun r => Transaction.escrowProjectId r <> id) (transactions w)
    end.

(** A database before the first offer: no project, no ledger row. *)
Definition blank (w : World) : Prop :=
  escrow_projects w = ∅ /\ transactions w = [].

(** The transition rewrites the amount field of rows of this type. *)
Definition rewrites (t : Transition) (ty : TransactionType) : bool :=
  match t, ty with
  | AdvancePayment, advance_payment => true
  | FinalPayment, final_payment => true
  | Rate _, platform_commission => true
  | Rate _, worker_payout => true
  | _, _ => false
  end.

(** The sample sequence as calls. *)
Definition sample_calls (budget : Q) (agreed : option Q) : list Call :=
  [ {| call_env := Sample.env; call_user := Sample.alice;
       call_request := CreateOffer (Sample.offer 2%nat budget) |};
    {| call_env := Sample.env; call_user := Sample.bob;
       call_request := OnProject 0%nat (Accept (Sample.terms agreed)) |};
    {| call_env := Sample.env; call_user := Sample.alice;
       call_request := OnProject 0%nat AdvancePayment |};
    {| call_env := Sample.env; call_user := Sample.bob;
       call_request := OnProject 0%nat Complete |};
    {| call_env := Sample.env; call_user := Sample.alice;
       call_request := OnProject 0%nat FinalPayment |};
    {| call_env := Sample.env; call_user := Sample.alice;
       call_request := OnProject 0%nat (Rate (Sample.stars 5)) |} ].

(** Statuses a project has once its terms are locked. *)
Definition past_offer (s : Status) : bool :=
  match s with
  | offer_sent | rejected => false
  | _ => true
  end.

(** ** The reading endpoints of routes/escrow.js *)

(** The answer of an endpoint that returns something else than one
    project: [res.status(code).json(body)] or an error object. *)
Inductive Reply (A : Type) :=
| Replied (code : nat) (body : A)
| Failed (code : nat) (error : string).
Arguments Replied {A} code body.
Arguments Failed {A} code error.

Definition reply_code {A : Type} (r : Reply A) : nat :=
  match r with
  | Replied code _ => code
  | Failed code _ => code
  end.

(** [try { ... } catch (err) { res.status(500).json({ error: err.message }) }]
    around a body that answers with a list. *)
Definition try_catch_reply {A : Type} (body : Async (Reply A)) : World -> World * Reply A :=
  fun w =>
    match body w with
    | (w', Normal r) => (w', r)
    | (w', Throw msg) => (w', Failed 500 msg)
    end.

(** GET /projects/:id: one project, for its client or its worker. *)
Definition get_project (user : ReqUser) (id : ObjectId) : Handler :=
  try_catch (
    found <- EscrowProject_findById id ;;
    match found with
    | None => ret (res_error 404 "Project not found")
    | Some project =>
        clientName <- populate (EscrowProject.clientId project) ;;
        workerName <- populate (EscrowProject.workerId project) ;;
        let isClient := Nat.eqb (EscrowProject.clientId project) (_id user) in
        let isWorker := Nat.eqb (EscrowProject.workerId project) (_id user) in
        if negb isClient && negb isWorker
        then ret (res_error 403 "Not authorized")
        else ret (res_json 200 (formatProject id project clientName workerName))
    end).

(** A stored document with its id. *)
Definition Stored (A : Type) : Type := ObjectId * A.

(** [.sort({ createdAt: -1 })]: the order of creation is kept by the ODM
    and not by the handlers; the sorted result is some arrangement of the
    documents found. *)
Definition Sort (A : Type) : Type := list (Stored A) -> list (Stored A).

(** [EscrowProject.find(filter)] *)
Definition EscrowProject_find (filter : EscrowProject.t -> bool)
    : Async (list (Stored EscrowProject.t)) :=
  gets (fun w => List.filter (fun d => filter (snd d)) (map_to_list (escrow_projects w))).

(** [formatProjectLean] of a document with both parties populated. *)
Definition formatProjectLean (w : World) (d : Stored EscrowProject.t) : ProjectJson.t :=
  formatProject (fst d) (snd d)
    (User.name <$> users w !! EscrowProject.clientId (snd d))
    (User.name <$> users w !! EscrowProject.workerId (snd d)).

(** [{ $or: [{ clientId: me }, { workerId: me }] }] *)
Definition is_party (me : ObjectId) (p : EscrowProject.t) : bool :=
  Nat.eqb (EscrowProject.clientId p) me || Nat.eqb (EscrowProject.workerId p) me.

(** GET /projects: all the projects of the actor. *)
Definition get_projects (newest_first : Sort EscrowProject.t) (user : ReqUser)
    : World -> World * Reply (list ProjectJson.t) :=
  try_catch_reply (
    projects <- EscrowProject_find (is_party (_id user)) ;;
    w <- gets (fun w => w) ;;
    ret (Replied 200 (map (formatProjectLean w) (newest_first projects)))).

(** The filter of the chat page: the two users are the two parties, and
    the project is neither rejected nor cancelled. *)
Definition in_chat (me withId : ObjectId) (p : EscrowProject.t) : bool :=
  ((Nat.eqb (EscrowProject.clientId p) me && Nat.eqb (EscrowProject.workerId p) withId)
   || (Nat.eqb (EscrowProject.clientId p) withId && Nat.eqb (EscrowProject.workerId p) me))
  && negb (bool_decide (EscrowProject.status p = rejected)
           || bool_decide (EscrowProject.status p = cancelled)).

(** GET /projects/chat/:withUserId *)
Definition get_projects_chat (newest_first : Sort EscrowProject.t) (user : ReqUser)
    (withUserId : ObjectId) : World -> World * Reply (list ProjectJson.t) :=
  try_catch_reply (
    projects <- EscrowProject_find (in_chat (_id user) withUserId) ;;
    w <- gets (fun w => w) ;;
    ret (Replied 200 (map (formatProjectLean w) (newest_first projects)))).

(** A row of the payment history. *)
Module TransactionJson.
Record t := {
  id : ObjectId;
  type : TransactionType;
  amount : Q;
  currency : string;
  status : TransactionStatus;
  projectTitle : option string;
  projectId : option ObjectId;
  fromUser : option (ObjectId * string);
  toUser : option (ObjectId * string);
  metadata : string
}.
End TransactionJson.

(** The ledger rows with their ids: a row is never removed, its id is its
    position in the collection. *)
Definition stored_transactions (w : World) : list (Stored Transaction.t) :=
  imap (fun i r => (i, r)) (transactions w).

(** [{ $or: [{ fromUserId: me }, { toUserId: me }] }] *)
Definition involves (me : ObjectId) (r : Transaction.t) : bool :=
  bool_decide (Transaction.fromUserId r = Some me)
  || bool_decide (Transaction.toUserId r = Some me).

Definition Transaction_find (filter : Transaction.t -> bool)
    : Async (list (Stored Transaction.t)) :=
  gets (fun w => List.filter (fun d => filter (snd d)) (stored_transactions w)).

(** A populated user reference of a lean document: [{ id, name }] or null. *)
Definition populated_user (w : World) (ref : option ObjectId) : option (ObjectId * string) :=
  match ref with
  | Some u => (fun doc => (u, User.name doc)) <$> users w !! u
  | None => None
  end.

Definition formatTransaction (w : World) (d : Stored Transaction.t) : TransactionJson.t :=
  let t := snd d in
  let project := escrow_projects w !! Transaction.escrowProjectId t in
  {| TransactionJson.id := fst d;
     TransactionJson.type := Transaction.type t;
     TransactionJson.amount := Transaction.amount t;
     TransactionJson.currency :=
       if String.eqb (Transaction.currency t) "" then "INR" else Transaction.currency t;
     TransactionJson.status := Transaction.status t;
     TransactionJson.projectTitle := EscrowProject.title <$> project;
     TransactionJson.projectId :=
       (fun _ => Transaction.escrowProjectId t) <$> project;
     TransactionJson.fromUser := populated_user w (Transaction.fromUserId t);
     TransactionJson.toUser := populated_user w (Transaction.toUserId t);
     TransactionJson.metadata := Transaction.metadata t |}.

(** GET /transactions: the payment history of the actor, 200 rows at most. *)
Definition get_transactions (newest_first : Sort Transaction.t) (user : ReqUser)
    : World -> World * Reply (list TransactionJson.t) :=
  try_catch_reply (
    txns <- Transaction_find (involves (_id user)) ;;
    w <- gets (fun w => w) ;;
    ret (Replied 200 (map (formatTransaction w) (take 200 (newest_first txns))))).

(** A project as shown to the caller, without the names of the parties
    (which depend on the paths the handler populated). *)
Definition anonymous (j : ProjectJson.t) : ProjectJson.t :=
  {| ProjectJson.id := ProjectJson.id j;
     ProjectJson.clientId := ProjectJson.clientId j;
     ProjectJson.workerId := ProjectJson.workerId j;
     ProjectJson.clientName := None;
     ProjectJson.workerName := None;
     ProjectJson.title := ProjectJson.title j;
     ProjectJson.description := ProjectJson.description j;
     ProjectJson.budget := ProjectJson.budget j;
     ProjectJson.deadline := ProjectJson.deadline j;
     ProjectJson.agreedBudget := ProjectJson.agreedBudget j;
     ProjectJson.agreedDeadline := ProjectJson.agreedDeadline j;
     ProjectJson.agreedTimeline := ProjectJson.agreedTimeline j;
     ProjectJson.status := ProjectJson.status j;
     ProjectJson.progressPercent := ProjectJson.progressPercent j;
     ProjectJson.milestones := ProjectJson.milestones j;
     ProjectJson.advancePaidAt := ProjectJson.advancePaidAt j;
     ProjectJson.advanceAmount := ProjectJson.advanceAmount j;
     ProjectJson.finalPaidAt := ProjectJson.finalPaidAt j;
     ProjectJson.finalAmount := ProjectJson.finalAmount j;
     ProjectJson.platformCommissionAmount := ProjectJson.platformCommissionAmount j;
     ProjectJson.workerPayoutAmount := ProjectJson.workerPayoutAmount j;
     ProjectJson.rating := ProjectJson.rating j;
     ProjectJson.review := ProjectJson.review j;
     ProjectJson.ratedAt := ProjectJson.ratedAt j |}.

(** ** The reviews against the documents *)

(** The reviews that refer to one project. *)
Definition reviews_of (id : ObjectId) (l : list WorkerReview.t) : list WorkerReview.t :=
  List.filter (fun r => Nat.eqb (WorkerReview.escrowProjectId r) id) l.

(** A review agrees with the project it refers to. *)
Definition review_agrees (p : EscrowProject.t) (r : WorkerReview.t) : Prop :=
  WorkerReview.workerId r = EscrowProject.workerId p
  /\ WorkerReview.clientId r = EscrowProject.clientId p
  /\ EscrowProject.rating p = Some (WorkerReview.rating r)
  /\ EscrowProject.review p = WorkerReview.review r.

(** The reviews are consistent with the projects: one review for each
    released project, none for any other id. *)
Definition reviewed (w : World) : Prop :=
  forall id,
    match escrow_projects w !! id with
    | Some p =>
        if is_released (EscrowProject.status p)
        then exists r, reviews_of id (worker_reviews w) = [r] /\ review_agrees p r
        else reviews_of id (worker_reviews w) = []
    | None => reviews_of id (worker_reviews w) = []
    end.

(** ** routes/notifications.js: reading the notifications *)

Module NotificationJson.
Record t := {
  id : ObjectId;
  type : NotificationType;
  title : string;
  message : string;
  escrowProjectId : option ObjectId;
  read : bool;
  readAt : option Date
}.
End NotificationJson.

(** The notifications with their ids: a notification is never removed, its
    id is its position in the collection. *)
Definition stored_notifications (w : World) : list (Stored Notification.t) :=
  imap (fun i n => (i, n)) (notifications w).

(** [Notification.find(filter)] *)
Definition Notification_find (filter : Notification.t -> bool)
    : Async (list (Stored Notification.t)) :=
  gets (fun w => List.filter (fun d => filter (snd d)) (stored_notifications w)).

Definition formatNotification (d : Stored Notification.t) : NotificationJson.t :=
  let n := snd d in
  {| NotificationJson.id := fst d;
     NotificationJson.type := Notification.type n;
     NotificationJson.title := Notification.title n;
     NotificationJson.message := Notification.message n;
     NotificationJson.escrowProjectId := Notification.escrowProjectId n;
     NotificationJson.read := Notification.read n;
     NotificationJson.readAt := Notification.readAt n |}.

(** [{ userId: req.user._id }] *)
Definition addressed_to (me : ObjectId) (n : Notification.t) : bool :=
  Nat.eqb (Notification.userId n) me.

(** GET /: the notifications of the actor, 50 at most. *)
Definition get_notifications (newest_first : Sort Notification.t) (user : ReqUser)
    : World -> World * Reply (list NotificationJson.t) :=
  try_catch_reply (
    found <- Notification_find (addressed_to (_id user)) ;;
    ret (Replied 200 (map formatNotification (take 50 (newest_first found))))).

(** The update [{ read: true, readAt: new Date() }]. *)
Definition marked_read (env : Env) (n : Notification.t) : Notification.t :=
  {| Notification.userId := Notification.userId n;
     Notification.type := Notification.type n;
     Notification.title := Notification.title n;
     Notification.message := Notification.message n;
     Notification.escrowProjectId := Notification.escrowProjectId n;
     Notification.read := true;
     Notification.readAt := Some (now env) |}.

(** [Notification.findOneAndUpdate({ _id, userId }, update)]: the document
    with this id is updated when it belongs to the user; nothing is
    inserted otherwise. *)
Definition Notification_findOneAndUpdate (id user : ObjectId)
    (update : Notification.t -> Notification.t) : Async unit :=
  modify (fun w =>
    match notifications w !! id with
    | Some n =>
        if addressed_to user n
        then set_notifications (<[id := update n]> (notifications w)) w
        else w
    | None => w
    end).

(** POST /:id/read: the body of the answer is [{ success: true }]. *)
Definition post_read (env : Env) (user : ReqUser) (id : ObjectId)
    : World -> World * Reply bool :=
  try_catch_reply (
    Notification_findOneAndUpdate id (_id user) (marked_read env) ;;
    ret (Replied 200 true)).

(** The notifications of a user that are not read yet. *)
Definition unread (me : ObjectId) (w : World) : list (Stored Notification.t) :=
  List.filter (fun d => addressed_to me (snd d) && negb (Notification.read (snd d)))
    (stored_notifications w).

(** ** routes/notifications.js: the devices of a user (models/DeviceToken.js) *)

Module DeviceToken.
Record t := {
  userId : ObjectId;
  token : string;
  platform : string
}.
End DeviceToken.

Module DeviceBody.
Record t := {
  token : option string;
  platform : option string
}.
End DeviceBody.

(** The platforms of the schema and of the handler. *)
Definition platforms : list string := ["android"; "ios"; "web"; "windows"; "mac"].

(** [{ userId, token }] *)
Definition same_device (user : ObjectId) (token : string) (d : DeviceToken.t) : bool :=
  Nat.eqb (DeviceToken.userId d) user && String.eqb (DeviceToken.token d) token.

(** [DeviceToken.findOneAndUpdate({ userId, token }, { $set: { platform } },
    { upsert: true })]: the first document found gets the platform; when
    none is found, one is inserted. *)
Fixpoint DeviceToken_findOneAndUpdate (user : ObjectId) (token platform : string)
    (l : list DeviceToken.t) : list DeviceToken.t :=
  match l with
  | [] =>
      [{| DeviceToken.userId := user; DeviceToken.token := token;
          DeviceToken.platform := platform |}]
  | d :: rest =>
      if same_device user token d
      then {| DeviceToken.userId := DeviceToken.userId d;
              DeviceToken.token := DeviceToken.token d;
              DeviceToken.platform := platform |} :: rest
      else d :: DeviceToken_findOneAndUpdate user token platform rest
  end.

(** [DeviceToken.deleteOne({ userId, token })] *)
Fixpoint DeviceToken_deleteOne (user : ObjectId) (token : string)
    (l : list DeviceToken.t) : list DeviceToken.t :=
  match l with
  | [] => []
  | d :: rest =>
      if same_device user token d then rest
      else d :: DeviceToken_deleteOne user token rest
  end.

Definition token_required : string := "token (FCM device token) is required".

(** POST /register-device; the body of the answer is [{ success: true }]. *)
Definition register_device (user : ReqUser) (body : DeviceBody.t)
    (devices : list DeviceToken.t) : list DeviceToken.t * Reply bool :=
  match DeviceBody.token body with
  | None => (devices, Failed 400 token_required)
  | Some token =>
      if String.eqb (JS.trim token) "" then (devices, Failed 400 token_required)
      else
        let normalized := JS.trim token in
        let plat :=
          match DeviceBody.platform body with
          | Some p => if existsb (String.eqb p) platforms then p else "web"
          | None => "web"
          end in
        (DeviceToken_findOneAndUpdate (_id user) normalized plat devices,
         Replied 200 true)
  end.

(** POST /unregister-device *)
Definition unregister_device (user : ReqUser) (token : option string)
    (devices : list DeviceToken.t) : list DeviceToken.t * Reply bool :=
  match token with
  | Some t =>
      if String.eqb t "" then (devices, Replied 200 true)
      else (DeviceToken_deleteOne (_id user) (JS.trim t) devices, Replied 200 true)
  | None => (devices, Replied 200 true)
  end.

(** [DeviceToken.find({ userId }).select('token')], the devices that
    [sendPushToUser] addresses (services/push.js). *)
Definition tokens_of (user : ObjectId) (devices : list DeviceToken.t) : list string :=
  map DeviceToken.token
    (List.filter (fun d => Nat.eqb (DeviceToken.userId d) user) devices).

(** The requests on the devices, and the collection after a sequence of
    them. *)
Inductive DeviceCall :=
| RegisterDevice (user : ReqUser) (body : DeviceBody.t)
| UnregisterDevice (user : ReqUser) (token : option string).

Definition serve_device (c : DeviceCall) (devices : list DeviceToken.t)
    : list DeviceToken.t * Reply bool :=
  match c with
  | RegisterDevice user body => register_device user body devices
  | UnregisterDevice user token => unregister_device user token devices
  end.

Fixpoint serve_devices (calls : list DeviceCall) (devices : list DeviceToken.t)
    : list DeviceToken.t :=
  match calls with
  | [] => devices
  | c :: rest => serve_devices rest (fst (serve_device c devices))
  end.

(** The key of the unique index [{ userId: 1, token: 1 }]. *)
Definition device_key (d : DeviceToken.t) : ObjectId * string :=
  (DeviceToken.userId d, DeviceToken.token d).

(** The devices the handlers keep: one document per user and token, a
    token that is not empty, a platform of the schema. *)
Definition registry (l : list DeviceToken.t) : Prop :=
  NoDup (map device_key l)
  /\ Forall (fun d => DeviceToken.token d <> "" /\ In (DeviceToken.platform d) platforms) l.

(** ** services/sms.js: the format of a phone number *)

Definition is_digit (c : ascii) : bool :=
  (48 <=? nat_of_ascii c)%nat && (nat_of_ascii c <=? 57)%nat.

(** [s.replace(/\D/g, '')] *)
Fixpoint digits_of (s : string) : string :=
  match s with
  | EmptyString => EmptyString
  | String c s' => if is_digit c then String c (digits_of s') else digits_of s'
  end.

(** [{ valid: true, cleaned }] or [{ valid: false, error }]. *)
Inductive PhoneValidation :=
| ValidPhone (cleaned : string)
| InvalidPhone (error : string).

Definition validatePhoneNumber (phone : string) : PhoneValidation :=
  let cleaned := digits_of phone in
  if (String.length cleaned <? 10)%nat || (15 <? String.length cleaned)%nat
  then InvalidPhone "Phone number must be 10-15 digits"
  else ValidPhone ("+" +:+ cleaned).

Fixpoint all_digits (s : string) : bool :=
  match s with
  | EmptyString => true
  | String c s' => is_digit c && all_digits s'
  end.

(** The pattern [/^\+?\d{10,15}$/] of the login handler (routes/auth.js). *)
Definition phone_pattern (s : string) : bool :=
  let body :=
    match s with
    | String "+" s' => s'
    | _ => s
    end in
  all_digits body && (10 <=? String.length body)%nat && (String.length body <=? 15)%nat.

(** [isPhone] of the login handler: the pattern on the digits of the input. *)
Definition isPhone (input : string) : bool := phone_pattern (digits_of input).

(** ** routes/presence.js *)

Definition ACTIVE_THRESHOLD_MS : Z := 5 * 60 * 1000.

(** The field [lastSeenAt] of the users collection: one entry per user,
    empty until the first heartbeat. *)
Definition LastSeen : Type := gmap ObjectId (option Date).

(** POST /heartbeat: [User.findByIdAndUpdate(req.user._id, { lastSeenAt:
    new Date() })]; nothing is inserted for an id without a user. *)
Definition heartbeat (env : Env) (user : ReqUser) (seen : LastSeen) : LastSeen :=
  match seen !! _id user with
  | Some _ => <[_id user := Some (now env)]> seen
  | None => seen
  end.

(** POST /check: for each user found among [userIds], whether the last
    heartbeat is less than five minutes old; the body is an object keyed by
    user id, empty when [userIds] is not a non-empty array. *)
Definition check (env : Env) (userIds : option (list ObjectId)) (seen : LastSeen)
    : gmap ObjectId bool :=
  match userIds with
  | None | Some [] => ∅
  | Some ids =>
      (fun lastSeenAt =>
         let lastSeen := match lastSeenAt with Some t => t | None => 0%Z end in
         (now env - lastSeen <? ACTIVE_THRESHOLD_MS)%Z)
      <$> filter (fun kv => fst kv ∈ ids) seen
  end.

(** * Properties *)

(** ** Running a handler *)

Lemma findById_bind {B : Type} (id : ObjectId) (k : option EscrowProject.t -> Async B)
    (w : World) :
  bind (EscrowProject_findById id) k w = k (escrow_projects w !! id) w.
Proof. reflexivity. Qed.

Lemma populate_bind {B : Type} (u : ObjectId) (k : option string -> Async B) (w : World) :
  bind (populate u) k w = k (User.name <$> users w !! u) w.
Proof. reflexivity. Qed.

Lemma eqb_party_false (a b : ObjectId) : b <> a -> negb (Nat.eqb a b) = true.
Proof. intros H. apply negb_true_iff, Nat.eqb_neq. congruence. Qed.

(** ** Authorization *)

Section Authorization.

Variables (env : Env) (user : ReqUser) (id : ObjectId) (w : World).
Variable project : EscrowProject.t.
Hypothesis stored : escrow_projects w !! id = Some project.

Lemma accept_forbidden body :
  _id user <> EscrowProject.workerId project ->
  post_accept env user id body w = (w, not_authorized).
Proof.
  intros H. unfold post_accept, try_catch.
  rewrite findById_bind, stored, (eqb_party_false _ _ H). reflexivity.
Qed.

Lemma reject_forbidden :
  _id user <> EscrowProject.workerId project ->
  post_reject env user id w = (w, not_authorized).
Proof.
  intros H. unfold post_reject, try_catch.
  rewrite findById_bind, stored, (eqb_party_false _ _ H). reflexivity.
Qed.

Lemma advance_payment_forbidden :
  _id user <> EscrowProject.clientId project ->
  post_advance_payment env user id w = (w, not_authorized).
Proof.
  intros H. unfold post_advance_payment, try_catch.
  rewrite findById_bind, stored, !populate_bind, (eqb_party_false _ _ H). reflexivity.
Qed.

Lemma progress_forbidden body :
  _id user <> EscrowProject.workerId project ->
  patch_progress env user id body w = (w, not_authorized).
Proof.
  intros H. unfold patch_progress, try_catch.
  rewrite findById_bind, stored, (eqb_party_false _ _ H). reflexivity.
Qed.

Lemma complete_forbidden :
  _id user <> EscrowProject.workerId project ->
  post_complete env user id w = (w, not_authorized).
Proof.
  intros H. unfold post_complete, try_catch.
  rewrite findById_bind, stored, populate_bind, (eqb_party_false _ _ H). reflexivity.
Qed.

Lemma final_payment_forbidden :
  _id user <> EscrowProject.clientId project ->
  post_final_payment env user id w = (w, not_authorized).
Proof.
  intros H. unfold post_final_payment, try_catch.
  rewrite findById_bind, stored, populate_bind, (eqb_party_false _ _ H). reflexivity.
Qed.

Lemma rate_forbidden body :
  _id user <> EscrowProject.clientId project ->
  post_rate env user id body w = (w, not_authorized).
Proof.
  intros H. unfold post_rate, try_catch.
  rewrite findById_bind, stored, populate_bind, (eqb_party_false _ _ H). reflexivity.
Qed.

End Authorization.

Lemma eqb_party_true (a b : ObjectId) : b = a -> negb (Nat.eqb a b) = false.
Proof. intros ->. now rewrite Nat.eqb_refl. Qed.

(** A request by the right party that fails the state guard is answered
    400 and writes nothing. *)
Lemma state_conflict env user id t w project :
  escrow_projects w !! id = Some project ->
  _id user = party_id (required_party t) project ->
  precondition t project = false ->
  exists msg, route env user id t w = (w, res_error 400 msg).
Proof.
  intros stored Hparty Hpre.
  destruct t; simpl in *;
    unfold post_accept, post_reject, post_advance_payment, patch_progress,
      post_complete, post_final_payment, post_rate, try_catch;
    rewrite findById_bind, stored, ?populate_bind, (eqb_party_true _ _ Hparty);
    try discriminate.
  - rewrite Hpre. eexists. reflexivity.
  - rewrite Hpre. eexists. reflexivity.
  - rewrite Hpre. eexists. reflexivity.
  - rewrite Hpre. eexists. reflexivity.
  - rewrite Hpre. eexists. reflexivity.
  - destruct (bool_decide (EscrowProject.status project = completed)); simpl in *;
      [| eexists; reflexivity].
    destruct (is_set (EscrowProject.finalPaidAt project)); simpl in *;
      [| eexists; reflexivity].
    destruct (RateBody.rating body) as [r|]; [| eexists; reflexivity].
    apply negb_false_iff in Hpre. rewrite Hpre. eexists. reflexivity.
Qed.

(** The 403 guard of every transition. *)
Lemma route_forbidden env user id t w project :
  escrow_projects w !! id = Some project ->
  _id user <> party_id (required_party t) project ->
  route env user id t w = (w, not_authorized).
Proof.
  intros stored H. destruct t; simpl in *.
  - now apply accept_forbidden with project.
  - now apply reject_forbidden with project.
  - now apply advance_payment_forbidden with project.
  - now apply progress_forbidden with project.
  - now apply complete_forbidden with project.
  - now apply final_payment_forbidden with project.
  - now apply rate_forbidden with project.
Qed.


(** The design's example runs as described: ledger rows of 1000, 9000, 500
    and 9500, and a released project. *)
Example sample_ledger :
  map (fun t => (Transaction.type t, Transaction.amount t))
    (transactions (Sample.released 10000 (Some 10000)))
  = [(advance_payment, 1000); (final_payment, 9000);
     (platform_commission, 500); (worker_payout, 9500)]
  /\ (EscrowProject.status <$> Sample.project0 (Sample.released 10000 (Some 10000)))
     = Some completed_released.
Proof. vm_compute. split; reflexivity. Qed.


(** ** Progress updates *)

Lemma Math_clamp_range (q : Q) :
  0 <= JS.Math_min 100 (JS.Math_max 0 q) <= 100.
Proof.
  unfold JS.Math_min, JS.Math_max. split.
  - apply Q.min_glb; [discriminate | apply Q.le_max_l].
  - apply Q.le_min_l.
Qed.

Lemma Math_clamp_inside (q : Q) :
  0 <= q <= 100 -> JS.Math_min 100 (JS.Math_max 0 q) == q.
Proof.
  intros [H0 H100]. unfold JS.Math_min, JS.Math_max.
  rewrite (Q.max_r 0 q H0). now apply Q.min_r.
Qed.

Lemma with_progress_twice body project :
  with_progress body (with_progress body project) = with_progress body project.
Proof.
  unfold with_progress.
  destruct (ProgressBody.progressPercent body), (ProgressBody.milestones body);
    destruct project; reflexivity.
Qed.

Lemma with_progress_worker body project :
  EscrowProject.workerId (with_progress body project) = EscrowProject.workerId project.
Proof.
  unfold with_progress.
  destruct (ProgressBody.progressPercent body), (ProgressBody.milestones body);
    reflexivity.
Qed.

(** What the handler does for the worker of a stored project. *)
Lemma patch_progress_worker env user id body w project :
  escrow_projects w !! id = Some project ->
  _id user = EscrowProject.workerId project ->
  patch_progress env user id body w
  = (set_escrow_projects (<[id := with_progress body project]> (escrow_projects w)) w,
     res_json 200 (formatProject id (with_progress body project) None None)).
Proof.
  intros stored Hw. unfold patch_progress, try_catch.
  rewrite findById_bind, stored, (eqb_party_true _ _ Hw). reflexivity.
Qed.

(** Repeating the request changes neither the database nor the answer,
    whoever sends it and whatever the project id. *)
Lemma patch_progress_twice env1 env2 user id body w :
  patch_progress env2 user id body (fst (patch_progress env1 user id body w))
  = patch_progress env1 user id body w.
Proof.
  destruct (escrow_projects w !! id) as [project|] eqn:stored.
  - destruct (Nat.eq_dec (_id user) (EscrowProject.workerId project)) as [Hw|Hw].
    + rewrite (patch_progress_worker env1 user id body w project stored Hw). simpl.
      erewrite patch_progress_worker;
        [| simpl; apply lookup_insert_eq | now rewrite with_progress_worker].
      simpl. rewrite with_progress_twice, insert_insert_eq. reflexivity.
    + rewrite (progress_forbidden env1 user id w project stored body Hw). simpl.
      now apply progress_forbidden with project.
  - assert (H : forall env, patch_progress env user id body w
                            = (w, res_error 404 "Project not found")).
    { intros env. unfold patch_progress, try_catch.
      now rewrite findById_bind, stored. }
    rewrite (H env1). simpl. apply H.
Qed.



(** ** Creating an offer *)

Lemma fresh_id_unused (m : gmap ObjectId EscrowProject.t) : m !! fresh (dom m) = None.
Proof. apply not_elem_of_dom, is_fresh. Qed.

(** An offer that fails the validation is answered 400 and stores nothing. *)
Lemma offer_invalid env user body w :
  offer_valid body = false ->
  post_projects env user body w = (w, res_error 400 offer_required).
Proof.
  unfold offer_valid, post_projects, try_catch.
  destruct (OfferBody.workerId body), (OfferBody.title body) as [title|],
           (OfferBody.budget body) as [budget|], (OfferBody.deadline body);
    try reflexivity.
  intros H. apply negb_false_iff in H. now rewrite H.
Qed.

(** The document [post_projects] stores for a request that passes the
    validation, and where it stores it. *)
Lemma post_projects_stores env user body w :
  offer_valid body = true ->
  exists p,
    escrow_projects (fst (post_projects env user body w))
    = <[fresh (dom (escrow_projects w)) := p]> (escrow_projects w)
    /\ EscrowProject.clientId p = _id user
    /\ OfferBody.workerId body = Some (EscrowProject.workerId p)
    /\ EscrowProject.chatWithUserId p = EscrowProject.workerId p
    /\ EscrowProject.status p = offer_sent
    /\ EscrowProject.agreedBudget p = None
    /\ EscrowProject.finalPaidAt p = None
    /\ EscrowProject.platformCommissionPercent p = 5.
Proof.
  unfold offer_valid, post_projects, try_catch.
  destruct (OfferBody.workerId body) as [worker|],
           (OfferBody.title body) as [title|],
           (OfferBody.budget body) as [budget|],
           (OfferBody.deadline body) as [deadline|]; try discriminate.
  intros Hv. apply negb_true_iff in Hv. rewrite Hv.
  unfold bind, EscrowProject_create, createNotification, User_findById, gets, catch,
    sendProjectOfferEmail, sendPushToUser, console_error, modify, throw, ret.
  eexists.
  destruct (notificationFault env); simpl.
  - repeat split; reflexivity.
  - destruct (users w !! worker) as [u|]; simpl;
      [destruct (User.email u) as [mail|]; simpl;
       [destruct (String.eqb mail ""); simpl;
        [| destruct (emailFault env); simpl] |] |];
      (destruct (pushFault env); simpl; repeat split; reflexivity).
Qed.

(** C7, as the code has it. An offer that is accepted for storage (201)
    creates one project under an unused id, whose client is the
    authenticated actor and whose worker (also recorded as the chat
    partner) is the requested one; the two differ exactly when the request
    names somebody else than the actor, which the handler does not
    require. *)
Theorem offer_parties env user body w w' r :
  post_projects env user body w = (w', r) ->
  statusCode r = 201%nat ->
  exists id p,
    escrow_projects w !! id = None
    /\ escrow_projects w' !! id = Some p
    /\ EscrowProject.clientId p = _id user
    /\ OfferBody.workerId body = Some (EscrowProject.workerId p)
    /\ EscrowProject.chatWithUserId p = EscrowProject.workerId p
    /\ (EscrowProject.clientId p <> EscrowProject.workerId p
        <-> OfferBody.workerId body <> Some (_id user)).
Proof.
  intros H Hcode.
  destruct (offer_valid body) eqn:Hv;
    [| rewrite (offer_invalid env user body w Hv) in H; injection H as <- <-;
       discriminate].
  destruct (post_projects_stores env user body w Hv) as
    (p & Hw' & Hc & Hwk & Hchat & _).
  rewrite H in Hw'. simpl in Hw'.
  exists (fresh (dom (escrow_projects w))), p.
  split; [apply fresh_id_unused |].
  split; [rewrite Hw'; apply lookup_insert_eq |].
  repeat split; try assumption.
  - intros Hne Heq. rewrite Hwk in Heq. injection Heq as Heq. congruence.
  - intros Hne Heq. apply Hne. rewrite Hwk. congruence.
Qed.

Lemma offer_parties_witness :
  exists id p,
    escrow_projects (Sample.offered 10000) !! id = Some p
    /\ EscrowProject.clientId p = 1%nat /\ EscrowProject.workerId p = 2%nat.
Proof.
  destruct (post_projects Sample.env Sample.alice (Sample.offer 2%nat 10000) Sample.start)
    as [w' r] eqn:E.
  destruct (offer_parties Sample.env Sample.alice (Sample.offer 2%nat 10000)
              Sample.start w' r E) as (id & p & _ & Hp & Hc & Hw & _).
  - vm_compute in E. injection E as <- <-. reflexivity.
  - exists id, p. unfold Sample.offered. rewrite E. simpl.
    repeat split; [exact Hp | exact Hc |].
    simpl in Hw. congruence.
Defined.

(** C7 fails as stated: Alice may name herself as the worker; the offer is
    stored with the same user on both sides. *)
Lemma offer_to_oneself :
  let served := post_projects Sample.env Sample.alice (Sample.offer 1%nat 10000)
                  Sample.start in
  statusCode (snd served) = 201%nat
  /\ exists p, escrow_projects (fst served) !! 0%nat = Some p
               /\ EscrowProject.clientId p = EscrowProject.workerId p.
Proof.
  vm_compute. split; [reflexivity |]. eexists. split; reflexivity.
Qed.

(** ** Notification faults *)

(** Mail and push are detached with [.catch]: their faults are logged and
    the offer is answered 201. *)
Lemma offer_survives_mail_and_push_faults env user body w :
  notificationFault env = None ->
  offer_valid body = true ->
  statusCode (snd (post_projects env user body w)) = 201%nat.
Proof.
  unfold offer_valid, post_projects, try_catch. intros Hn.
  destruct (OfferBody.workerId body) as [worker|],
           (OfferBody.title body) as [title|],
           (OfferBody.budget body) as [budget|],
           (OfferBody.deadline body) as [deadline|]; try discriminate.
  intros Hv. apply negb_true_iff in Hv. rewrite Hv.
  unfold bind, EscrowProject_create, createNotification, User_findById, gets, catch,
    sendProjectOfferEmail, sendPushToUser, console_error, modify, throw, ret.
  rewrite Hn. simpl.
  destruct (users w !! worker) as [u|]; simpl;
    [destruct (User.email u) as [mail|]; simpl;
     [destruct (String.eqb mail ""); simpl;
      [| destruct (emailFault env); simpl] |] |];
    destruct (pushFault env); reflexivity.
Qed.

(** The in-app notification is awaited inside the handler's [try]: when
    its write is rejected, every notifying transition answers 500 with the
    error of the notification store. *)
Lemma notification_fault_surfaces env user id t w project msg :
  notificationFault env = Some msg ->
  escrow_projects w !! id = Some project ->
  _id user = party_id (required_party t) project ->
  precondition t project = true ->
  notifies t = true ->
  snd (route env user id t w) = res_error 500 msg.
Proof.
  intros Hn stored Hparty Hpre Hnot.
  destruct t; simpl in *; try discriminate;
    unfold post_accept, post_reject, post_advance_payment,
      post_complete, post_final_payment, post_rate, try_catch;
    rewrite findById_bind, stored, ?populate_bind, (eqb_party_true _ _ Hparty).
  - rewrite Hpre. unfold createNotification. rewrite Hn. reflexivity.
  - rewrite Hpre. unfold createNotification. rewrite Hn. reflexivity.
  - rewrite Hpre. unfold createNotification. rewrite Hn. reflexivity.
  - rewrite Hpre. unfold createNotification. rewrite Hn. reflexivity.
  - rewrite Hpre. unfold createNotification. rewrite Hn. reflexivity.
  - apply andb_true_iff in Hpre as [Hpre Hr].
    apply andb_true_iff in Hpre as [Hs Hf]. rewrite Hs, Hf. simpl.
    destruct (RateBody.rating body) as [r|]; [| discriminate].
    apply negb_true_iff in Hr. rewrite Hr.
    unfold createNotification. rewrite Hn.
    unfold bind, WorkerReview_create, EscrowProject_save, Transaction_create,
      UserCard_findOne, WorkerReview_find, UserCard_save, gets, modify, throw, ret.
    simpl. destruct (user_cards w !! EscrowProject.workerId project); reflexivity.
Qed.

(** C5 does not hold of the code. Bob accepts the offer while the
    notification store is down: the project is saved as accepted, nothing
    is logged, and Bob is answered 500 instead of the updated project. *)
Example accept_with_notification_fault :
  let served := post_accept (faulty "notifications unavailable") Sample.bob 0%nat
                  (Sample.terms None) (Sample.offered 10000) in
  snd served = res_error 500 "notifications unavailable"
  /\ (EscrowProject.status <$> Sample.project0 (fst served)) = Some accepted
  /\ console (fst served) = console (Sample.offered 10000).
Proof. vm_compute. repeat split; reflexivity. Qed.

(** ** Final payment *)

(** One final payment by the client of a completed project: the writes,
    whatever the notification store does, and the answer when it works. *)
Lemma final_payment_step env user id w project :
  escrow_projects w !! id = Some project ->
  _id user = EscrowProject.clientId project ->
  EscrowProject.status project = completed ->
  let served := post_final_payment env user id w in
  escrow_projects (fst served) = <[id := finally_paid env project]> (escrow_projects w)
  /\ transactions (fst served)
     = (transactions w
        ++ [final_payment_row env user id (JS.Math_round (total project * (9 # 10)))])%list
  /\ worker_reviews (fst served) = worker_reviews w
  /\ user_cards (fst served) = user_cards w
  /\ (notificationFault env = None -> statusCode (snd served) = 200%nat).
Proof.
  intros stored Hc Hs. unfold post_final_payment, try_catch.
  rewrite findById_bind, stored, populate_bind, (eqb_party_true _ _ Hc), Hs.
  rewrite bool_decide_eq_true_2 by reflexivity. simpl.
  unfold createNotification, bind, Transaction_create, EscrowProject_save, modify,
    throw, ret.
  destruct (notificationFault env); simpl; repeat split; congruence.
Qed.

Lemma finally_paid_frame env project :
  EscrowProject.clientId (finally_paid env project) = EscrowProject.clientId project
  /\ EscrowProject.status (finally_paid env project) = EscrowProject.status project
  /\ total (finally_paid env project) = total project.
Proof. repeat split. Qed.



(** ** Rating *)

Lemma rating_rejected_false (q : Q) : rating_rejected q = false <-> 1 <= q <= 5.
Proof.
  unfold rating_rejected, JS.truthy. rewrite !orb_false_iff, !negb_false_iff.
  rewrite !Qle_bool_iff. split.
  - intros [[_ H1] H5]. now split.
  - intros [H1 H5]. repeat split; try assumption.
    apply negb_true_iff. destruct (Qeq_bool q 0) eqn:E; [| reflexivity].
    apply Qeq_bool_iff in E. rewrite E in H1.
    exfalso. apply (Qle_not_lt _ _ H1). reflexivity.
Qed.

Lemma is_set_true {A : Type} (o : option A) : is_set o = true <-> o <> None.
Proof. destruct o; simpl; split; congruence. Qed.

Lemma rate_precondition project body :
  precondition (Rate body) project = true
  <-> EscrowProject.status project = completed
      /\ EscrowProject.finalPaidAt project <> None
      /\ exists q, RateBody.rating body = Some q /\ 1 <= q <= 5.
Proof.
  simpl. rewrite !andb_true_iff, bool_decide_eq_true, is_set_true. split.
  - intros [[Hs Hf] Hr]. repeat split; try assumption.
    destruct (RateBody.rating body) as [q|]; [| discriminate].
    exists q. split; [reflexivity |]. now apply rating_rejected_false, negb_true_iff.
  - intros (Hs & Hf & q & -> & Hq). repeat split; try assumption.
    now apply negb_true_iff, rating_rejected_false.
Qed.

Lemma rate_not_found env user id body w :
  escrow_projects w !! id = None ->
  post_rate env user id body w = (w, res_error 404 "Project not found").
Proof.
  intros H. unfold post_rate, try_catch. now rewrite findById_bind, H.
Qed.

(** A request outside the acceptance condition is answered 4xx and writes
    nothing. *)
Lemma rate_rejected env user id body w :
  ~ rate_acceptable w id body ->
  exists r, post_rate env user id body w = (w, r) /\ client_error r.
Proof.
  intros Hno. destruct (escrow_projects w !! id) as [project|] eqn:stored.
  - destruct (Nat.eq_dec (_id user) (EscrowProject.clientId project)) as [Hc|Hc].
    + destruct (precondition (Rate body) project) eqn:Hpre.
      * exfalso. apply Hno. apply rate_precondition in Hpre as (Hs & Hf & q & Hq & Hr).
        exists project, q. auto.
      * destruct (state_conflict env user id (Rate body) w project stored Hc Hpre)
          as [msg Hmsg].
        exists (res_error 400 msg). split; [exact Hmsg |].
        split; [simpl; lia | now exists msg].
    + exists not_authorized. split; [now apply rate_forbidden with project |].
      split; [simpl; lia | now eexists].
  - exists (res_error 404 "Project not found").
    split; [now apply rate_not_found |]. split; [simpl; lia | now eexists].
Qed.

Lemma rate_acceptable_dec w id body : rate_acceptable w id body \/ ~ rate_acceptable w id body.
Proof.
  destruct (escrow_projects w !! id) as [project|] eqn:stored.
  - destruct (precondition (Rate body) project) eqn:Hpre.
    + left. apply rate_precondition in Hpre as (Hs & Hf & q & Hq & Hr).
      exists project, q. auto.
    + right. intros (p & q & Hp & Hs & Hf & Hq & Hr).
      assert (p = project) as -> by congruence.
      assert (precondition (Rate body) project = true); [| congruence].
      apply rate_precondition. eauto.
  - right. intros (p & q & Hp & _). congruence.
Qed.

(** C6. The rate transition succeeds only when the project is completed,
    its final payment is recorded and the rating lies in 1..5; any other
    request is answered with a client error (400, or 403/404 when the
    earlier guards already fail) and leaves the whole database as it was:
    no review, no ledger row, no change of the project. *)
Theorem rate_guard env user id body w :
  (statusCode (snd (post_rate env user id body w)) = 200%nat -> rate_acceptable w id body)
  /\ (~ rate_acceptable w id body ->
      exists r, post_rate env user id body w = (w, r) /\ client_error r
                /\ (forall project,
                      escrow_projects w !! id = Some project ->
                      _id user = EscrowProject.clientId project ->
                      statusCode r = 400%nat)).
Proof.
  split.
  - intros H200. destruct (rate_acceptable_dec w id body) as [Hy|Hn]; [exact Hy |].
    destruct (rate_rejected env user id body w Hn) as (r & Hr & [Hcode _]).
    rewrite Hr in H200. simpl in H200. lia.
  - intros Hn. destruct (rate_rejected env user id body w Hn) as (r & Hr & Hc).
    exists r. repeat split; try assumption; try apply Hc.
    intros project stored Hclient.
    destruct (precondition (Rate body) project) eqn:Hpre.
    + exfalso. apply Hn. apply rate_precondition in Hpre as (Hs & Hf & q & Hq & Hq').
      exists project, q. auto.
    + destruct (state_conflict env user id (Rate body) w project stored Hclient Hpre)
        as [msg Hmsg].
      simpl in Hmsg. rewrite Hmsg in Hr. injection Hr as <-. reflexivity.
Qed.

Lemma rate_guard_witness :
  let body := Sample.stars 7 in
  exists r, post_rate Sample.env Sample.alice 0%nat body (Sample.paid 10000 None)
            = (Sample.paid 10000 None, r)
            /\ statusCode r = 400%nat.
Proof.
  intros body.
  destruct (proj2 (rate_guard Sample.env Sample.alice 0%nat body (Sample.paid 10000 None)))
    as (r & Hr & _ & H400).
  - intros (p & q & Hp & _ & _ & Hq & _ & H5).
    vm_compute in Hq. injection Hq as <-. now apply H5.
  - exists r. split; [exact Hr |].
    stored_project (Sample.paid 10000 None) p E.
    apply (H400 p E). vm_compute in E. injection E as <-. reflexivity.
Defined.

(** ** Release and review aggregation *)

(** The writes of an accepted rating, whatever the notification store
    does, and the answer when it works. *)
Lemma rate_step env user id body w project q :
  escrow_projects w !! id = Some project ->
  _id user = EscrowProject.clientId project ->
  EscrowProject.status project = completed ->
  EscrowProject.finalPaidAt project <> None ->
  RateBody.rating body = Some q ->
  1 <= q <= 5 ->
  let served := post_rate env user id body w in
  let worker := EscrowProject.workerId project in
  let review := JS.trim (JS.nullish (RateBody.review body) "") in
  let reviews :=
    List.filter (fun r => Nat.eqb (WorkerReview.workerId r) worker)
      (worker_reviews (fst served)) in
  escrow_projects (fst served) = <[id := rated env q review project]> (escrow_projects w)
  /\ worker_reviews (fst served)
     = (worker_reviews w
        ++ [{| WorkerReview.workerId := worker;
               WorkerReview.clientId := _id user;
               WorkerReview.escrowProjectId := id;
               WorkerReview.rating := q;
               WorkerReview.review := review |}])%list
  /\ user_cards (fst served)
     = match user_cards w !! worker with
       | Some _ =>
           <[worker :=
               {| UserCard.rating :=
                    match length reviews with
                    | O => 0
                    | S _ =>
                        fold_left (fun s r => s + WorkerReview.rating r) reviews 0
                        / inject_Z (Z.of_nat (length reviews))
                    end;
                  UserCard.ratingCount := length reviews |}]> (user_cards w)
       | None => user_cards w
       end
  /\ ledger (fst served)
     = (ledger w
        ++ [(platform_commission,
             EscrowProject.platformCommissionAmount (rated env q review project));
            (worker_payout,
             EscrowProject.workerPayoutAmount (rated env q review project))])%list
  /\ (notificationFault env = None -> statusCode (snd served) = 200%nat).
Proof.
  intros stored Hc Hs Hf Hq Hr served worker review reviews.
  subst reviews served. unfold post_rate, try_catch.
  rewrite findById_bind, stored, populate_bind, (eqb_party_true _ _ Hc), Hs, Hq.
  rewrite bool_decide_eq_true_2 by reflexivity.
  apply is_set_true in Hf. rewrite Hf.
  apply rating_rejected_false in Hr. rewrite Hr. simpl.
  unfold createNotification, bind, WorkerReview_create, EscrowProject_save,
    Transaction_create, UserCard_findOne, WorkerReview_find, UserCard_save,
    gets, modify, throw, ret, ledger. simpl.
  fold worker.
  destruct (user_cards w !! worker); destruct (notificationFault env); simpl;
    rewrite <- ?app_assoc, ?map_app; repeat split; congruence.
Qed.

Lemma reduce_sum (l : list WorkerReview.t) (a : Q) :
  fold_left (fun s r => s + WorkerReview.rating r) l a
  == a + fold_right Qplus 0 (map WorkerReview.rating l).
Proof.
  revert a. induction l as [|r l IH]; intros a; simpl.
  - now rewrite Qplus_0_r.
  - rewrite IH. now rewrite Qplus_assoc.
Qed.

(** A 200 from the rate handler means all its guards passed. *)
Lemma rate_success env user id body w project :
  escrow_projects w !! id = Some project ->
  statusCode (snd (post_rate env user id body w)) = 200%nat ->
  _id user = EscrowProject.clientId project
  /\ EscrowProject.status project = completed
  /\ EscrowProject.finalPaidAt project <> None
  /\ exists q, RateBody.rating body = Some q /\ 1 <= q <= 5.
Proof.
  intros stored H200.
  destruct (Nat.eq_dec (_id user) (EscrowProject.clientId project)) as [Hc|Hc].
  - split; [exact Hc |].
    destruct (rate_acceptable_dec w id body) as [(p & q & Hp & Hs & Hf & Hq & Hr) | Hn].
    + assert (p = project) as -> by congruence. eauto.
    + destruct (rate_rejected env user id body w Hn) as (r & Hr & [Hcode _]).
      rewrite Hr in H200. simpl in H200. lia.
  - rewrite (rate_forbidden env user id w project stored body Hc) in H200. discriminate.
Qed.



(** ** Money *)

Lemma advance_payment_step env user id w project :
  escrow_projects w !! id = Some project ->
  _id user = EscrowProject.clientId project ->
  EscrowProject.status project = accepted
  \/ EscrowProject.status project = pending_advance ->
  let served := post_advance_payment env user id w in
  escrow_projects (fst served) = <[id := advanced env project]> (escrow_projects w)
  /\ ledger (fst served)
     = (ledger w ++ [(advance_payment, JS.Math_round (total project * (1 # 10)))])%list
  /\ (notificationFault env = None -> statusCode (snd served) = 200%nat).
Proof.
  intros stored Hc Hs. unfold post_advance_payment, try_catch.
  rewrite findById_bind, stored, !populate_bind, (eqb_party_true _ _ Hc).
  assert (Hb : bool_decide (EscrowProject.status project = accepted)
               || bool_decide (EscrowProject.status project = pending_advance) = true).
  { destruct Hs as [-> | ->]; reflexivity. }
  rewrite Hb. simpl.
  unfold createNotification, bind, Transaction_create, EscrowProject_save, modify,
    throw, ret, ledger.
  destruct (notificationFault env); simpl; rewrite map_app; repeat split; congruence.
Qed.

Lemma total_of_zero project a :
  EscrowProject.agreedBudget project = Some a -> a == 0 ->
  total project = EscrowProject.budget project.
Proof.
  intros Ha H0. unfold total, JS.or, JS.truthy. rewrite Ha.
  apply Qeq_bool_iff in H0. now rewrite H0.
Qed.

Lemma total_of_nonzero project a :
  EscrowProject.agreedBudget project = Some a -> ~ a == 0 -> total project = a.
Proof.
  intros Ha H0. unfold total, JS.or, JS.truthy. rewrite Ha.
  destruct (Qeq_bool a 0) eqn:E; [| reflexivity].
  now apply Qeq_bool_iff in E.
Qed.

(** ** The state machine on documents *)

Lemma route_not_found env user id t w :
  escrow_projects w !! id = None ->
  route env user id t w = (w, res_error 404 "Project not found").
Proof.
  intros H. destruct t; simpl;
    unfold post_accept, post_reject, post_advance_payment, patch_progress,
      post_complete, post_final_payment, post_rate, try_catch;
    now rewrite findById_bind, H.
Qed.

(** A transition that passes its guards stores [apply_transition] of the
    document under the same id, whatever the notification store does. *)
Lemma route_effect env user id t w project :
  escrow_projects w !! id = Some project ->
  _id user = party_id (required_party t) project ->
  precondition t project = true ->
  escrow_projects (fst (route env user id t w))
  = <[id := apply_transition env t project]> (escrow_projects w).
Proof.
  intros stored Hparty Hpre.
  destruct t; simpl in Hparty, Hpre |- *.
  - unfold post_accept, try_catch.
    rewrite findById_bind, stored, (eqb_party_true _ _ Hparty), Hpre. simpl.
    unfold createNotification, bind, EscrowProject_save, modify, throw, ret.
    destruct (notificationFault env); reflexivity.
  - unfold post_reject, try_catch.
    rewrite findById_bind, stored, (eqb_party_true _ _ Hparty), Hpre. simpl.
    unfold createNotification, bind, EscrowProject_save, modify, throw, ret.
    destruct (notificationFault env); reflexivity.
  - apply advance_payment_step; try assumption.
    apply orb_true_iff in Hpre as [H|H]; apply bool_decide_eq_true in H; auto.
  - now rewrite (patch_progress_worker env user id body w project stored Hparty).
  - unfold post_complete, try_catch.
    rewrite findById_bind, stored, populate_bind, (eqb_party_true _ _ Hparty), Hpre.
    simpl.
    unfold createNotification, bind, EscrowProject_save, modify, throw, ret.
    destruct (notificationFault env); reflexivity.
  - apply final_payment_step; try assumption. now apply bool_decide_eq_true in Hpre.
  - apply rate_precondition in Hpre as (Hs & Hf & q & Hq & Hr).
    rewrite Hq. simpl. now apply rate_step.
Qed.

(** The projects collection after any transition: untouched, or the one
    document rewritten by [apply_transition] under its guards. *)
Lemma route_projects env user id t w :
  escrow_projects (fst (route env user id t w)) = escrow_projects w
  \/ exists project,
       escrow_projects w !! id = Some project
       /\ precondition t project = true
       /\ escrow_projects (fst (route env user id t w))
          = <[id := apply_transition env t project]> (escrow_projects w).
Proof.
  destruct (escrow_projects w !! id) as [project|] eqn:stored.
  - destruct (Nat.eq_dec (_id user) (party_id (required_party t) project)) as [Hp|Hp].
    + destruct (precondition t project) eqn:Hpre.
      * right. exists project. repeat split; try assumption.
        now apply route_effect.
      * left. destruct (state_conflict env user id t w project stored Hp Hpre) as [msg ->].
        reflexivity.
    + left.
      now rewrite (route_forbidden env user id t w project stored Hp).
  - left. now rewrite route_not_found.
Qed.

(** ** What every stored document satisfies *)

Lemma with_progress_frame body p :
  let p' := with_progress body p in
  EscrowProject.status p' = EscrowProject.status p
  /\ EscrowProject.platformCommissionPercent p' = EscrowProject.platformCommissionPercent p
  /\ EscrowProject.agreedBudget p' = EscrowProject.agreedBudget p
  /\ EscrowProject.budget p' = EscrowProject.budget p
  /\ EscrowProject.advanceAmount p' = EscrowProject.advanceAmount p
  /\ EscrowProject.finalPaidAt p' = EscrowProject.finalPaidAt p
  /\ EscrowProject.finalAmount p' = EscrowProject.finalAmount p
  /\ EscrowProject.platformCommissionAmount p' = EscrowProject.platformCommissionAmount p
  /\ EscrowProject.workerPayoutAmount p' = EscrowProject.workerPayoutAmount p.
Proof.
  unfold with_progress.
  destruct (ProgressBody.progressPercent body), (ProgressBody.milestones body);
    repeat split.
Qed.

Lemma not_paid_before_completion p :
  sound p -> EscrowProject.status p <> completed ->
  EscrowProject.status p <> completed_released ->
  EscrowProject.finalPaidAt p = None.
Proof.
  intros S H1 H2. destruct (EscrowProject.finalPaidAt p) eqn:E; [| reflexivity].
  destruct (sound_final_status p S); congruence.
Qed.

Lemma apply_transition_sound env t p :
  sound p -> precondition t p = true -> sound (apply_transition env t p).
Proof.
  intros S Hpre. destruct t; simpl in Hpre |- *.
  - apply bool_decide_eq_true in Hpre.
    assert (Hf : EscrowProject.finalPaidAt p = None)
      by (apply not_paid_before_completion; congruence).
    constructor; simpl; try congruence; try discriminate.
    + apply (sound_percent p S).
    + eauto.
  - apply bool_decide_eq_true in Hpre.
    assert (Hf : EscrowProject.finalPaidAt p = None)
      by (apply not_paid_before_completion; congruence).
    constructor; simpl; try congruence; try discriminate.
    apply (sound_percent p S).
  - pose proof (sound_status p S) as Ha.
    apply orb_true_iff in Hpre as [H|H]; apply bool_decide_eq_true in H;
      [| rewrite H in Ha; discriminate].
    assert (Hf : EscrowProject.finalPaidAt p = None)
      by (apply not_paid_before_completion; congruence).
    constructor; simpl; try congruence; try discriminate.
    + apply (sound_percent p S).
    + intros _ _. apply (sound_locked p S); congruence.
    + reflexivity.
  - destruct (with_progress_frame body p) as (F1 & F2 & F3 & F4 & F5 & F6 & F7 & F8 & F9).
    assert (Ft : total (with_progress body p) = total p)
      by (unfold total; now rewrite F3, F4).
    assert (Fc : commissionPercent (with_progress body p) = commissionPercent p)
      by (unfold commissionPercent; now rewrite F2).
    destruct S. constructor; rewrite ?F1, ?F2, ?F3, ?F5, ?F6, ?F7, ?F8, ?F9, ?Ft, ?Fc;
      assumption.
  - pose proof (sound_status p S) as Ha.
    apply orb_true_iff in Hpre as [H|H]; apply bool_decide_eq_true in H;
      [| rewrite H in Ha; discriminate].
    assert (Hf : EscrowProject.finalPaidAt p = None)
      by (apply not_paid_before_completion; congruence).
    constructor; simpl; try congruence; try discriminate.
    + apply (sound_percent p S).
    + intros _ _. apply (sound_locked p S); congruence.
    + intros _. apply (sound_advance p S). now rewrite H.
  - apply bool_decide_eq_true in Hpre.
    constructor; simpl; try congruence; try discriminate.
    + apply (sound_status p S).
    + apply (sound_percent p S).
    + apply (sound_locked p S).
    + apply (sound_advance p S).
    + auto.
    + reflexivity.
  - apply rate_precondition in Hpre as (Hs & Hf & q & Hq & Hr).
    rewrite Hq. simpl.
    constructor; simpl; try congruence; try discriminate.
    + apply (sound_percent p S).
    + intros _ _. apply (sound_locked p S); congruence.
    + intros _. apply (sound_advance p S). now rewrite Hs.
    + auto.
    + intros _. now apply (sound_final p S).
    + intros _. repeat split. exact Hf.
Qed.

(** Every project of a reachable database is sound. *)
Lemma reachable_sound w :
  reachable w -> forall id p, escrow_projects w !! id = Some p -> sound p.
Proof.
  induction 1 as [w Hempty | env user req w Hreach IH]; intros id p Hp.
  - rewrite Hempty in Hp. now rewrite lookup_empty in Hp.
  - destruct req as [body | id' t]; simpl in Hp.
    + destruct (offer_valid body) eqn:Hv.
      * destruct (post_projects_stores env user body w Hv)
          as (p' & Hw' & _ & _ & _ & Hs & Ha & Hf & Hpc).
        rewrite Hw' in Hp. apply lookup_insert_Some in Hp as [[_ <-] | [_ Hp]];
          [| now apply IH with id].
        constructor; rewrite ?Hs, ?Hf; try congruence; try discriminate.
        reflexivity.
      * rewrite (offer_invalid env user body w Hv) in Hp. now apply IH with id.
    + destruct (route_projects env user id' t w) as [Hsame | (p0 & Hp0 & Hpre & Hnew)].
      * rewrite Hsame in Hp. now apply IH with id.
      * rewrite Hnew in Hp. apply lookup_insert_Some in Hp as [[_ <-] | [_ Hp]];
          [| now apply IH with id].
        apply apply_transition_sound; [now apply IH with id' | exact Hpre].
Qed.

(** ** Rounding *)

Lemma Math_round_comp (x y : Q) : x == y -> JS.Math_round x = JS.Math_round y.
Proof. intros H. unfold JS.Math_round. now rewrite H. Qed.

Lemma Math_round_half_up (x : Q) : rounds_half_up x (JS.Math_round x).
Proof.
  unfold rounds_half_up, JS.Math_round. split; [eauto |].
  pose proof (Qfloor_le (x + (1 # 2))) as Hle.
  pose proof (Qlt_floor (x + (1 # 2))) as Hlt.
  rewrite inject_Z_plus in Hlt.
  set (r := inject_Z (Qfloor (x + (1 # 2)))) in *.
  change (inject_Z 1) with 1 in Hlt. split; lra.
Qed.

Lemma Math_round_nonneg (x : Q) : 0 <= x -> JS.Math_round x = round_half_away x.
Proof.
  intros H. unfold round_half_away. apply Qle_bool_iff in H. now rewrite H.
Qed.

Lemma round_tenth (z : Z) :
  Qfloor (inject_Z z * (1 # 10) + (1 # 2)) = ((z + 5) / 10)%Z.
Proof.
  unfold Qfloor, Qmult, Qplus, inject_Z. cbn -[Z.mul Z.add Z.div].
  Z.to_euclidean_division_equations. lia.
Qed.

Lemma round_nine_tenths (z : Z) :
  Qfloor (inject_Z z * (9 # 10) + (1 # 2)) = ((9 * z + 5) / 10)%Z.
Proof.
  unfold Qfloor, Qmult, Qplus, inject_Z. cbn -[Z.mul Z.add Z.div].
  Z.to_euclidean_division_equations. lia.
Qed.

Lemma tenth_and_nine_tenths (z : Z) :
  ((z + 5) / 10 + (9 * z + 5) / 10 = z + (if (z mod 10 =? 5) then 1 else 0))%Z.
Proof.
  destruct (Z.eqb_spec (z mod 10) 5); Z.to_euclidean_division_equations; lia.
Qed.

(** The two payments of a whole total: they add up to it, except that a
    total ending in 5 is overpaid by one unit. *)
Lemma split_of_whole_total (z : Z) :
  JS.Math_round (inject_Z z * (1 # 10)) + JS.Math_round (inject_Z z * (9 # 10))
  == inject_Z z + (if (z mod 10 =? 5)%Z then 1 else 0).
Proof.
  unfold JS.Math_round. rewrite round_tenth, round_nine_tenths.
  rewrite <- inject_Z_plus, tenth_and_nine_tenths, inject_Z_plus.
  now destruct (z mod 10 =? 5)%Z.
Qed.

(** ** Amounts *)



Lemma sample_paid_reachable budget agreed : reachable (Sample.paid budget agreed).
Proof.
  apply (reachable_serve Sample.env Sample.alice (OnProject 0%nat FinalPayment)).
  apply (reachable_serve Sample.env Sample.bob (OnProject 0%nat Complete)).
  apply (reachable_serve Sample.env Sample.alice (OnProject 0%nat AdvancePayment)).
  apply (reachable_serve Sample.env Sample.bob
           (OnProject 0%nat (Accept (Sample.terms agreed)))).
  apply (reachable_serve Sample.env Sample.alice
           (CreateOffer (Sample.offer 2%nat budget))).
  now apply reachable_start.
Qed.

Lemma sample_reachable budget agreed : reachable (Sample.released budget agreed).
Proof.
  apply (reachable_serve Sample.env Sample.alice (OnProject 0%nat (Rate (Sample.stars 5)))).
  apply sample_paid_reachable.
Qed.







(** ** The same amounts in binary64

    On doubles the handlers' formulas give the amounts of the rational
    reading at the totals used in the examples: 10000 (the design's
    example), 5 (both payments round up), 100, and -5 (the advance is 0,
    printed -0 by the runtime). *)

Example binary64_amounts :
  (Binary64.advanceAmount 10000 =? 1000)%float = true
  /\ (Binary64.finalAmount 10000 =? 9000)%float = true
  /\ (Binary64.platformCommissionAmount 10000 5 =? 500)%float = true
  /\ (Binary64.workerPayoutAmount 10000 5 =? 9500)%float = true
  /\ (Binary64.advanceAmount 5 =? 1)%float = true
  /\ (Binary64.finalAmount 5 =? 5)%float = true
  /\ (Binary64.advanceAmount 100 =? 10)%float = true
  /\ (Binary64.finalAmount 100 =? 90)%float = true
  /\ (Binary64.advanceAmount (-5) =? 0)%float = true.
Proof. repeat split; reflexivity. Qed.

Example binary64_rounding :
  (Binary64.Math_round 0.5 =? 1)%float = true
  /\ (Binary64.Math_round 4.5 =? 5)%float = true
  /\ (Binary64.Math_round (-0.5) =? 0)%float = true
  /\ (Binary64.Math_round (-2.5) =? -2)%float = true
  /\ (Binary64.Math_round 2.4375 =? 2)%float = true
  /\ (Binary64.Math_round (-2.75) =? -3)%float = true.
Proof. repeat split; reflexivity. Qed.

(** * Further properties of the state machine *)

(** ** One request, seen from the projects collection *)

Lemma post_projects_offer env user body w :
  offer_valid body = true ->
  exists workerId title budget deadline,
    OfferBody.workerId body = Some workerId
    /\ OfferBody.title body = Some title
    /\ OfferBody.budget body = Some budget
    /\ OfferBody.deadline body = Some deadline
    /\ JS.trim title <> "" /\ 0 < budget
    /\ escrow_projects (fst (post_projects env user body w))
       = <[fresh (dom (escrow_projects w)) :=
             new_offer user workerId title (OfferBody.description body) budget deadline]>
           (escrow_projects w).
Proof.
  unfold offer_valid, post_projects, try_catch.
  destruct (OfferBody.workerId body) as [worker|],
           (OfferBody.title body) as [title|],
           (OfferBody.budget body) as [budget|],
           (OfferBody.deadline body) as [deadline|]; try discriminate.
  intros Hv. apply negb_true_iff in Hv. rewrite Hv.
  apply orb_false_iff in Hv as [Hv Hb]. apply orb_false_iff in Hv as [Ht _].
  exists worker, title, budget, deadline. repeat split.
  - now apply String.eqb_neq.
  - apply Qnot_le_lt. intros Hle. apply Qle_bool_iff in Hle. congruence.
  - unfold bind, EscrowProject_create, createNotification, User_findById, gets, catch,
      sendProjectOfferEmail, sendPushToUser, console_error, modify, throw, ret.
    destruct (notificationFault env); simpl; [reflexivity |].
    destruct (users w !! worker) as [u|]; simpl;
      [destruct (User.email u) as [mail|]; simpl;
       [destruct (String.eqb mail ""); simpl;
        [| destruct (emailFault env); simpl] |] |];
      (destruct (pushFault env); reflexivity).
Qed.

(** What a request can do to the projects: nothing, add a new offer under
    an unused id, or rewrite one document by [apply_transition] for the
    party the transition is reserved to, under its state guard. *)
Lemma serve_step env user req w :
  escrow_projects (fst (serve env user req w)) = escrow_projects w
  \/ (exists workerId title description budget deadline,
        JS.trim title <> "" /\ 0 < budget
        /\ escrow_projects (fst (serve env user req w))
           = <[fresh (dom (escrow_projects w)) :=
                 new_offer user workerId title description budget deadline]>
               (escrow_projects w))
  \/ (exists id t p,
        req = OnProject id t
        /\ escrow_projects w !! id = Some p
        /\ _id user = party_id (required_party t) p
        /\ precondition t p = true
        /\ escrow_projects (fst (serve env user req w))
           = <[id := apply_transition env t p]> (escrow_projects w)).
Proof.
  destruct req as [body | id t]; simpl.
  - destruct (offer_valid body) eqn:Hv.
    + right. left.
      destruct (post_projects_offer env user body w Hv)
        as (wk & ti & b & d & _ & _ & _ & _ & Ht & Hb & Hp).
      exists wk, ti, (OfferBody.description body), b, d. auto.
    + left. now rewrite (offer_invalid env user body w Hv).
  - destruct (escrow_projects w !! id) as [p|] eqn:stored.
    + destruct (Nat.eq_dec (_id user) (party_id (required_party t) p)) as [Hp|Hp].
      * destruct (precondition t p) eqn:Hpre.
        -- right. right. exists id, t, p. repeat split; try assumption.
           now apply route_effect.
        -- left. destruct (state_conflict env user id t w p stored Hp Hpre) as [msg ->].
           reflexivity.
      * left. now rewrite (route_forbidden env user id t w p stored Hp).
    + left. now rewrite route_not_found.
Qed.

(** ** What a transition writes to a document *)

Lemma apply_transition_proposed env t p :
  proposed (apply_transition env t p) = proposed p.
Proof.
  destruct t; try reflexivity. simpl. unfold with_progress.
  destruct (ProgressBody.progressPercent body), (ProgressBody.milestones body);
    reflexivity.
Qed.

Lemma apply_transition_status env t p :
  precondition t p = true ->
  EscrowProject.status (apply_transition env t p) = EscrowProject.status p
  \/ edge (EscrowProject.status p) (EscrowProject.status (apply_transition env t p)).
Proof.
  intros Hpre. destruct t; simpl in *.
  - apply bool_decide_eq_true in Hpre. rewrite Hpre. right. constructor.
  - apply bool_decide_eq_true in Hpre. rewrite Hpre. right. constructor.
  - apply orb_true_iff in Hpre as [H|H]; apply bool_decide_eq_true in H; rewrite H;
      right; constructor.
  - left. apply with_progress_frame.
  - apply orb_true_iff in Hpre as [H|H]; apply bool_decide_eq_true in H; rewrite H;
      right; constructor.
  - now left.
  - apply andb_true_iff in Hpre as [Hpre _]. apply andb_true_iff in Hpre as [H _].
    apply bool_decide_eq_true in H. rewrite H. right. constructor.
Qed.

Lemma closed_no_edge s s' : closed s = true -> ~ edge s s'.
Proof. intros Hc He. destruct He; discriminate. Qed.

Lemma edge_not_to_offer s s' : edge s s' -> s' <> offer_sent.
Proof. intros He. destruct He; discriminate. Qed.

(** Only the progress update passes its guard on a closed project. *)
Lemma closed_only_progress t p :
  closed (EscrowProject.status p) = true ->
  precondition t p = true ->
  exists body, t = UpdateProgress body.
Proof.
  intros Hc Hpre. destruct t; simpl in Hpre; eauto; exfalso;
    repeat match goal with
    | H : _ && _ = true |- _ => apply andb_true_iff in H as [H _]
    | H : _ || _ = true |- _ => apply orb_true_iff in H as [H|H]
    | H : bool_decide _ = true |- _ => apply bool_decide_eq_true in H; rewrite H in Hc
    end; discriminate.
Qed.

Lemma with_progress_same body p : same_but_progress p (with_progress body p).
Proof.
  unfold same_but_progress, with_progress.
  destruct (ProgressBody.progressPercent body), (ProgressBody.milestones body);
    destruct p; reflexivity.
Qed.

Lemma same_but_progress_trans p q r :
  same_but_progress p q -> same_but_progress q r -> same_but_progress p r.
Proof.
  unfold same_but_progress. intros H1 H2.
  destruct p, q, r; simpl in *.
  injection H1; injection H2; intros; subst; reflexivity.
Qed.

Lemma same_but_progress_status p q :
  same_but_progress p q -> EscrowProject.status q = EscrowProject.status p.
Proof. unfold same_but_progress. intros <-. reflexivity. Qed.

Lemma apply_transition_locked env t p :
  precondition t p = true ->
  EscrowProject.status p <> offer_sent ->
  locked_terms (apply_transition env t p) = locked_terms p.
Proof.
  intros Hpre Hs. destruct t; try reflexivity; simpl in *.
  - apply bool_decide_eq_true in Hpre. congruence.
  - unfold with_progress.
    destruct (ProgressBody.progressPercent body), (ProgressBody.milestones body);
      reflexivity.
Qed.

(** A stored project after one request: untouched, or rewritten by a
    transition that passed its guards. *)
Lemma serve_lookup env user req w id p :
  escrow_projects w !! id = Some p ->
  escrow_projects (fst (serve env user req w)) !! id = Some p
  \/ exists t,
       precondition t p = true
       /\ _id user = party_id (required_party t) p
       /\ req = OnProject id t
       /\ escrow_projects (fst (serve env user req w)) !! id
          = Some (apply_transition env t p).
Proof.
  intros stored.
  destruct (serve_step env user req w)
    as [-> | [(wk & ti & de & b & d & _ & _ & ->) | (id' & t & p' & -> & Hp' & Hu & Hpre & ->)]].
  - now left.
  - left. rewrite lookup_insert_ne; [exact stored |].
    intros <-. now rewrite fresh_id_unused in stored.
  - destruct (Nat.eq_dec id' id) as [-> | Hne].
    + right. exists t. assert (p' = p) as -> by congruence.
      repeat split; try assumption. apply lookup_insert_eq.
    + left. now rewrite lookup_insert_ne.
Qed.

(** A relation between a stored document and its later versions that every
    guarded transition extends holds along any sequence of requests; in
    particular the document is never removed. *)
Lemma serve_all_lookup (I : EscrowProject.t -> EscrowProject.t -> Prop) :
  (forall p, I p p) ->
  (forall env t p q, I p q -> precondition t q = true -> I p (apply_transition env t q)) ->
  forall calls w id p,
    escrow_projects w !! id = Some p ->
    exists p', escrow_projects (serve_all calls w) !! id = Some p' /\ I p p'.
Proof.
  intros Hrefl Hstep calls.
  assert (G : forall w id p q,
             escrow_projects w !! id = Some q -> I p q ->
             exists p', escrow_projects (serve_all calls w) !! id = Some p' /\ I p p').
  { induction calls as [|c rest IH]; intros w id p q stored Hpq; simpl.
    - eauto.
    - destruct (serve_lookup (call_env c) (call_user c) (call_request c) w id q stored)
        as [Hsame | (t & Hpre & _ & _ & Hnew)].
      + now apply IH with q.
      + apply IH with (apply_transition (call_env c) t q); [exact Hnew |].
        now apply Hstep. }
  intros w id p stored. apply G with p; auto.
Qed.

(** X1. Serving a request never removes a stored project, and its status
    either stays or moves along one edge of the lifecycle: offer_sent to
    accepted or rejected, accepted (or pending_advance) to in_progress,
    in_progress (or mid_level) to completed, completed to
    completed_released. *)
Theorem status_follows_edges env user req w id p :
  escrow_projects w !! id = Some p ->
  exists p',
    escrow_projects (fst (serve env user req w)) !! id = Some p'
    /\ (EscrowProject.status p' = EscrowProject.status p
        \/ edge (EscrowProject.status p) (EscrowProject.status p')).
Proof.
  intros stored.
  destruct (serve_lookup env user req w id p stored) as [H | (t & Hpre & _ & _ & H)].
  - exists p. auto.
  - exists (apply_transition env t p). split; [exact H |].
    now apply apply_transition_status.
Qed.

(** X2. A project that is rejected or released (or cancelled) is closed:
    whatever requests follow, by whomever, it stays stored and keeps every
    field except progressPercent and milestones, which the progress update
    writes in any status. *)
Theorem closed_project_frozen calls w id p :
  escrow_projects w !! id = Some p ->
  closed (EscrowProject.status p) = true ->
  exists p',
    escrow_projects (serve_all calls w) !! id = Some p' /\ same_but_progress p p'.
Proof.
  intros stored Hc.
  destruct (serve_all_lookup
              (fun p q => closed (EscrowProject.status p) = true -> same_but_progress p q))
    with (calls := calls) (w := w) (id := id) (p := p) as (p' & Hp' & HI); auto.
  - intros q _. unfold same_but_progress. destruct q; reflexivity.
  - intros env t q r Hqr Hpre Hcq. specialize (Hqr Hcq).
    assert (Hcr : closed (EscrowProject.status r) = true)
      by now rewrite (same_but_progress_status q r Hqr).
    destruct (closed_only_progress t r Hcr Hpre) as [body ->]. simpl.
    eapply same_but_progress_trans; [exact Hqr | apply with_progress_same].
  - exists p'. auto.
Qed.

(** X3. The parties and the proposed terms of a project are immutable: no
    sequence of requests changes its clientId, workerId, chatWithUserId,
    title, description, budget, deadline or platformCommissionPercent. *)
Theorem proposed_terms_immutable calls w id p :
  escrow_projects w !! id = Some p ->
  exists p',
    escrow_projects (serve_all calls w) !! id = Some p' /\ proposed p' = proposed p.
Proof.
  intros stored.
  apply (serve_all_lookup (fun p q => proposed q = proposed p)); auto.
  intros env t q r Hqr _. now rewrite apply_transition_proposed.
Qed.

(** X4. The locked terms are written once: after a project has left
    offer_sent, no sequence of requests changes its agreedBudget,
    agreedDeadline, agreedTimeline or lockedAt, and it never returns to
    offer_sent. *)
Theorem locked_terms_frozen calls w id p :
  escrow_projects w !! id = Some p ->
  EscrowProject.status p <> offer_sent ->
  exists p',
    escrow_projects (serve_all calls w) !! id = Some p'
    /\ locked_terms p' = locked_terms p
    /\ EscrowProject.status p' <> offer_sent.
Proof.
  intros stored Hs.
  destruct (serve_all_lookup
              (fun p q => EscrowProject.status p <> offer_sent ->
                          locked_terms q = locked_terms p
                          /\ EscrowProject.status q <> offer_sent))
    with (calls := calls) (w := w) (id := id) (p := p) as (p' & Hp' & HI); auto.
  - intros env t q r Hqr Hpre Hq. destruct (Hqr Hq) as [Hl Hr]. split.
    + rewrite <- Hl. now apply apply_transition_locked.
    + destruct (apply_transition_status env t r Hpre) as [-> | He]; [exact Hr |].
      now apply edge_not_to_offer in He.
  - exists p'. destruct (HI Hs). auto.
Qed.

Lemma status_follows_edges_witness :
  exists p',
    Sample.project0 (Sample.locked 10000 None) = Some p'
    /\ (EscrowProject.status p' = offer_sent \/ edge offer_sent (EscrowProject.status p')).
Proof.
  stored_project (Sample.offered 10000) p E.
  destruct (status_follows_edges Sample.env Sample.bob
              (OnProject 0%nat (Accept (Sample.terms None))) (Sample.offered 10000)
              0%nat p E) as (p' & Hp' & Hs).
  exists p'. split; [exact Hp' |].
  vm_compute in E. injection E as <-. exact Hs.
Defined.

Lemma closed_project_frozen_witness :
  exists p p',
    Sample.project0 (Sample.released 10000 None) = Some p
    /\ Sample.project0 (serve_all late_calls (Sample.released 10000 None)) = Some p'
    /\ same_but_progress p p'.
Proof.
  stored_project (Sample.released 10000 None) p E.
  destruct (closed_project_frozen late_calls (Sample.released 10000 None) 0%nat p E)
    as (p' & Hp' & Hsame).
  - vm_compute in E. injection E as <-. reflexivity.
  - exists p, p'. auto.
Defined.

Lemma proposed_terms_immutable_witness :
  exists p p',
    Sample.project0 (Sample.offered 10000) = Some p
    /\ Sample.project0 (serve_all late_calls (Sample.offered 10000)) = Some p'
    /\ proposed p' = proposed p.
Proof.
  stored_project (Sample.offered 10000) p E.
  destruct (proposed_terms_immutable late_calls (Sample.offered 10000) 0%nat p E)
    as (p' & Hp' & Hsame).
  exists p, p'. auto.
Defined.

Lemma locked_terms_frozen_witness :
  exists p p',
    Sample.project0 (Sample.locked 10000 (Some 9000)) = Some p
    /\ Sample.project0 (serve_all late_calls (Sample.locked 10000 (Some 9000))) = Some p'
    /\ locked_terms p' = locked_terms p.
Proof.
  stored_project (Sample.locked 10000 (Some 9000)) p E.
  destruct (locked_terms_frozen late_calls (Sample.locked 10000 (Some 9000)) 0%nat p E)
    as (p' & Hp' & Hsame & _).
  - vm_compute in E. injection E as <-. discriminate.
  - exists p, p'. auto.
Defined.

(** ** One request, seen from the other collections *)

(** The conjuncts of [route_commits] once the handler has run. *)
Ltac commit_list := first [reflexivity | now rewrite app_nil_r | now rewrite <- app_assoc].
Ltac commit_notes :=
  first [ exists []; split; [now rewrite app_nil_r | reflexivity]
        | eexists; split;
          [reflexivity | eexists; split; [reflexivity | repeat split]] ].
Ltac commit_goals :=
  split; [commit_list |]; split; [commit_list |]; split; [commit_notes |];
  split; [reflexivity |]; split; [reflexivity |]; split; [reflexivity |];
  split; [reflexivity |]; first [reflexivity | discriminate].

(** The writes of a transition that passes its guards, outside the
    projects collection. *)
Lemma route_commits env user id t w p :
  escrow_projects w !! id = Some p ->
  _id user = party_id (required_party t) p ->
  precondition t p = true ->
  let after := fst (route env user id t w) in
  transactions after = (transactions w ++ ledger_rows env user id t p)%list
  /\ worker_reviews after = (worker_reviews w ++ review_rows user id t p)%list
  /\ (exists ns,
        notifications after = (notifications w ++ ns)%list
        /\ match notificationFault env, notice_type t with
           | None, Some ty =>
               exists n, ns = [n]
                 /\ notice_for (party_id (counterparty (required_party t)) p) ty id n
           | _, _ => ns = []
           end)
  /\ users after = users w
  /\ outbox after = outbox w
  /\ pushes after = pushes w
  /\ console after = console w
  /\ (notificationFault env = None -> statusCode (snd (route env user id t w)) = 200%nat).
Proof.
  intros stored Hparty Hpre.
  destruct t; simpl in Hparty, Hpre |- *;
    unfold post_accept, post_reject, post_advance_payment, patch_progress,
      post_complete, post_final_payment, post_rate, try_catch;
    rewrite findById_bind, stored, ?populate_bind, (eqb_party_true _ _ Hparty).
  - rewrite Hpre. simpl.
    unfold createNotification, bind, EscrowProject_save, modify, throw, ret.
    destruct (notificationFault env); simpl; commit_goals.
  - rewrite Hpre. simpl.
    unfold createNotification, bind, EscrowProject_save, modify, throw, ret.
    destruct (notificationFault env); simpl; commit_goals.
  - rewrite Hpre. simpl.
    unfold createNotification, bind, Transaction_create, EscrowProject_save, modify,
      throw, ret.
    destruct (notificationFault env); simpl; commit_goals.
  - simpl. unfold bind, EscrowProject_save, modify, ret.
    destruct (notificationFault env); simpl; commit_goals.
  - rewrite Hpre. simpl.
    unfold createNotification, bind, EscrowProject_save, modify, throw, ret.
    destruct (notificationFault env); simpl; commit_goals.
  - rewrite Hpre. simpl.
    unfold createNotification, bind, Transaction_create, EscrowProject_save, modify,
      throw, ret.
    destruct (notificationFault env); simpl; commit_goals.
  - apply rate_precondition in Hpre as (Hs & Hf & q & Hq & Hr).
    rewrite Hs, Hq. rewrite bool_decide_eq_true_2 by reflexivity.
    apply is_set_true in Hf. rewrite Hf.
    apply rating_rejected_false in Hr. rewrite Hr. simpl.
    unfold createNotification, bind, WorkerReview_create, EscrowProject_save,
      Transaction_create, UserCard_findOne, WorkerReview_find, UserCard_save,
      gets, modify, throw, ret. simpl.
    destruct (user_cards w !! EscrowProject.workerId p);
      destruct (notificationFault env); simpl; commit_goals.
Qed.

(** Creating an offer touches neither the ledger, nor the reviews, the
    cards or the users. *)
Lemma post_projects_frame env user body w :
  let after := fst (post_projects env user body w) in
  transactions after = transactions w
  /\ worker_reviews after = worker_reviews w
  /\ user_cards after = user_cards w
  /\ users after = users w.
Proof.
  destruct (offer_valid body) eqn:Hv.
  - revert Hv. unfold offer_valid, post_projects, try_catch.
    destruct (OfferBody.workerId body) as [worker|],
             (OfferBody.title body) as [title|],
             (OfferBody.budget body) as [budget|],
             (OfferBody.deadline body) as [deadline|]; try discriminate.
    intros Hv. apply negb_true_iff in Hv. rewrite Hv.
    unfold bind, EscrowProject_create, createNotification, User_findById, gets, catch,
      sendProjectOfferEmail, sendPushToUser, console_error, modify, throw, ret.
    destruct (notificationFault env); simpl; [repeat split |].
    destruct (users w !! worker) as [u|]; simpl;
      [destruct (User.email u) as [mail|]; simpl;
       [destruct (String.eqb mail ""); simpl;
        [| destruct (emailFault env); simpl] |] |];
      (destruct (pushFault env); repeat split).
  - rewrite (offer_invalid env user body w Hv). repeat split.
Qed.

(** The three outcomes of a request: refused without a write to the
    projects or the ledger, a new offer stored, or a transition committed
    with its ledger rows and its review. *)
Lemma serve_cases env user req w :
  let after := fst (serve env user req w) in
  (escrow_projects after = escrow_projects w
   /\ transactions after = transactions w
   /\ worker_reviews after = worker_reviews w)
  \/ (exists workerId title description budget deadline,
        JS.trim title <> "" /\ 0 < budget
        /\ escrow_projects after
           = <[fresh (dom (escrow_projects w)) :=
                 new_offer user workerId title description budget deadline]>
               (escrow_projects w)
        /\ transactions after = transactions w
        /\ worker_reviews after = worker_reviews w)
  \/ (exists id t p,
        req = OnProject id t
        /\ escrow_projects w !! id = Some p
        /\ _id user = party_id (required_party t) p
        /\ precondition t p = true
        /\ escrow_projects after = <[id := apply_transition env t p]> (escrow_projects w)
        /\ transactions after = (transactions w ++ ledger_rows env user id t p)%list
        /\ worker_reviews after = (worker_reviews w ++ review_rows user id t p)%list).
Proof.
  destruct req as [body | id t]; simpl.
  - destruct (post_projects_frame env user body w) as (Ht & Hr & _ & _).
    destruct (offer_valid body) eqn:Hv.
    + right. left.
      destruct (post_projects_offer env user body w Hv)
        as (wk & ti & b & d & _ & _ & _ & _ & Hti & Hb & Hp).
      exists wk, ti, (OfferBody.description body), b, d. auto.
    + left. now rewrite (offer_invalid env user body w Hv).
  - destruct (escrow_projects w !! id) as [p|] eqn:stored.
    + destruct (Nat.eq_dec (_id user) (party_id (required_party t) p)) as [Hp|Hp].
      * destruct (precondition t p) eqn:Hpre.
        -- right. right. exists id, t, p.
           destruct (route_commits env user id t w p stored Hp Hpre) as (Ht & Hr & _).
           repeat split; try assumption. now apply route_effect.
        -- left. destruct (state_conflict env user id t w p stored Hp Hpre) as [msg ->].
           auto.
      * left. rewrite (route_forbidden env user id t w p stored Hp). auto.
    + left. rewrite route_not_found by assumption. auto.
Qed.

Lemma ledger_rows_length env user id t p : (length (ledger_rows env user id t p) <= 2)%nat.
Proof. destruct t; simpl; lia. Qed.

Lemma ledger_rows_shape env user id t p :
  Forall (fun r => Transaction.escrowProjectId r = id
                   /\ Transaction.status r = txn_completed
                   /\ Transaction.currency r = "INR"
                   /\ Transaction.type r <> refund)
    (ledger_rows env user id t p).
Proof. destruct t; simpl; repeat constructor; discriminate. Qed.

(** X5. The ledger is append-only: whatever requests are served, the rows
    that were in the ledger stay where they were, unchanged; at most two
    rows are appended per request, each completed, in INR, and never a
    refund. *)
Theorem ledger_append_only calls w :
  exists rows,
    transactions (serve_all calls w) = (transactions w ++ rows)%list
    /\ (length rows <= 2 * length calls)%nat
    /\ Forall (fun r => Transaction.status r = txn_completed
                        /\ Transaction.currency r = "INR"
                        /\ Transaction.type r <> refund) rows.
Proof.
  revert w. induction calls as [|c rest IH]; intros w; simpl.
  - exists []. rewrite app_nil_r. repeat split; [simpl; lia | constructor].
  - destruct (IH (fst (serve (call_env c) (call_user c) (call_request c) w)))
      as (rows & Hrows & Hlen & Hall).
    destruct (serve_cases (call_env c) (call_user c) (call_request c) w)
      as [(_ & Ht & _) | [(? & ? & ? & ? & ? & _ & _ & _ & Ht & _)
                         | (id & t & p & _ & _ & _ & _ & _ & Ht & _)]].
    + exists rows. rewrite Hrows, Ht. repeat split; [lia | exact Hall].
    + exists rows. rewrite Hrows, Ht. repeat split; [lia | exact Hall].
    + exists (ledger_rows (call_env c) (call_user c) id t p ++ rows)%list.
      rewrite Hrows, Ht, <- app_assoc. split; [reflexivity |]. split.
      * rewrite length_app.
        pose proof (ledger_rows_length (call_env c) (call_user c) id t p). lia.
      * apply Forall_app. split; [| exact Hall].
        eapply Forall_impl; [apply ledger_rows_shape |].
        simpl. intros r (_ & H1 & H2 & H3). auto.
Qed.

(** ** The ledger stays consistent with the documents *)

Lemma rows_of_app ty id l l' :
  rows_of ty id (l ++ l') = (rows_of ty id l ++ rows_of ty id l')%list.
Proof. apply List.filter_app. Qed.

Lemma rows_of_other ty id id' l :
  Forall (fun r => Transaction.escrowProjectId r = id') l -> id' <> id ->
  rows_of ty id l = [].
Proof.
  intros Hall Hne. unfold rows_of. induction Hall as [|r l Hr _ IH]; simpl; [reflexivity |].
  rewrite IH. destruct (Nat.eqb_spec (Transaction.escrowProjectId r) id) as [E|E];
    [congruence |]. now rewrite andb_false_r.
Qed.

Lemma rows_of_elem ty id l r :
  In r l -> Transaction.type r = ty -> Transaction.escrowProjectId r = id ->
  In r (rows_of ty id l).
Proof.
  intros Hin Hty Hid. unfold rows_of. apply List.filter_In. split; [exact Hin |].
  rewrite bool_decide_eq_true_2 by exact Hty. simpl. now apply Nat.eqb_eq.
Qed.

Lemma rows_of_ledger_rows env user id t p ty :
  length (rows_of ty id (ledger_rows env user id t p)) = b2n (rewrites t ty).
Proof.
  destruct t, ty; simpl; rewrite ?Nat.eqb_refl; reflexivity.
Qed.

Lemma ledger_rows_for env user id t p :
  Forall (fun r => Transaction.escrowProjectId r = id) (ledger_rows env user id t p).
Proof. destruct t; simpl; repeat constructor. Qed.

(** The rows a transition appends agree with the document it stores. *)
Lemma ledger_rows_agree env user id t p :
  _id user = party_id (required_party t) p ->
  Forall (row_agrees (apply_transition env t p)) (ledger_rows env user id t p).
Proof.
  intros Hparty. destruct t; simpl in *; repeat constructor; simpl;
    try discriminate; try congruence.
Qed.

(** A transition leaves the amount fields it does not rewrite. *)
Lemma booked_amount_kept env t p ty :
  rewrites t ty = false ->
  booked_amount ty (apply_transition env t p) = booked_amount ty p.
Proof.
  destruct t, ty; simpl; try discriminate; try reflexivity; intros _;
    unfold with_progress;
    destruct (ProgressBody.progressPercent body), (ProgressBody.milestones body);
    reflexivity.
Qed.

Lemma booked_parties_kept env t p ty :
  booked_from ty (apply_transition env t p) = booked_from ty p
  /\ booked_to ty (apply_transition env t p) = booked_to ty p.
Proof.
  pose proof (apply_transition_proposed env t p) as H. unfold proposed in H.
  injection H as H1 H2 _ _ _ _ _ _.
  destruct ty; simpl; rewrite ?H1, ?H2; split; reflexivity.
Qed.
Lemma status_after env t p :
  EscrowProject.status (apply_transition env t p)
  = match t with
    | Accept _ => accepted
    | Reject => rejected
    | AdvancePayment => in_progress
    | Complete => completed
    | Rate _ => completed_released
    | UpdateProgress _ | FinalPayment => EscrowProject.status p
    end.
Proof. destruct t; try reflexivity. apply with_progress_frame. Qed.

Lemma finalPaidAt_after env t p :
  EscrowProject.finalPaidAt (apply_transition env t p)
  = match t with
    | FinalPayment => Some (now env)
    | _ => EscrowProject.finalPaidAt p
    end.
Proof. destruct t; try reflexivity. apply with_progress_frame. Qed.

(** The number of rows of a type after a transition, from the status. *)
Lemma settled_after env t p :
  precondition t p = true ->
  assigned (EscrowProject.status p) = true ->
  (b2n (advance_settled (EscrowProject.status p)) + b2n (rewrites t advance_payment)
   = b2n (advance_settled (EscrowProject.status (apply_transition env t p))))%nat.
Proof.
  intros Hpre Ha. rewrite status_after.
  destruct t; simpl in Hpre; destruct (EscrowProject.status p);
    simpl in *; try discriminate; reflexivity.
Qed.

Lemma released_after env t p ty :
  ty = platform_commission \/ ty = worker_payout ->
  precondition t p = true ->
  (b2n (is_released (EscrowProject.status p)) + b2n (rewrites t ty)
   = b2n (is_released (EscrowProject.status (apply_transition env t p))))%nat.
Proof.
  intros Hty Hpre. rewrite status_after.
  destruct Hty as [-> | ->]; destruct t; simpl in Hpre; destruct (EscrowProject.status p);
    simpl in *; try discriminate; reflexivity.
Qed.
Lemma length_zero_nil {A : Type} (l : list A) : length l = 0%nat -> l = [].
Proof. destruct l; [reflexivity | discriminate]. Qed.

(** A committed transition keeps the ledger consistent with its project. *)
Lemma commit_booked env user id t p l :
  sound p ->
  booked_project l id p ->
  _id user = party_id (required_party t) p ->
  precondition t p = true ->
  booked_project (l ++ ledger_rows env user id t p) id (apply_transition env t p).
Proof.
  intros S B Hparty Hpre.
  pose proof (sound_status p S) as Ha.
  constructor.
  - apply Forall_app. split.
    + apply Forall_forall. intros r Hin Hid.
      pose proof (proj1 (Forall_forall _ _) (booked_rows l id p B) r Hin Hid)
        as (Hty & Ham & Hfrom & Hto).
      destruct (booked_parties_kept env t p (Transaction.type r)) as [Kf Kt].
      split; [exact Hty |]. rewrite Kf, Kt. repeat split; try assumption.
      destruct (rewrites t (Transaction.type r)) eqn:Hrw;
        [| now rewrite booked_amount_kept].
      apply list_elem_of_In in Hin.
      destruct t, (Transaction.type r) eqn:Ety; try discriminate; simpl in Hpre.
      * exfalso. pose proof (rows_of_elem _ id l r Hin Ety Hid) as Hr.
        pose proof (booked_advance l id p B) as Hn.
        apply orb_true_iff in Hpre as [H|H]; apply bool_decide_eq_true in H;
          rewrite H in Hn; apply length_zero_nil in Hn; now rewrite Hn in Hr.
      * simpl. pose proof (rows_of_elem _ id l r Hin Ety Hid) as Hr.
        rewrite Ham. simpl. apply (sound_final p S).
        intros Hnone. apply (booked_final l id p B) in Hnone. now rewrite Hnone in Hr.
      * exfalso. pose proof (rows_of_elem _ id l r Hin Ety Hid) as Hr.
        pose proof (booked_commission l id p B) as Hn.
        apply andb_true_iff in Hpre as [Hpre _]. apply andb_true_iff in Hpre as [H _].
        apply bool_decide_eq_true in H.
        rewrite H in Hn; apply length_zero_nil in Hn; now rewrite Hn in Hr.
      * exfalso. pose proof (rows_of_elem _ id l r Hin Ety Hid) as Hr.
        pose proof (booked_payout l id p B) as Hn.
        apply andb_true_iff in Hpre as [Hpre _]. apply andb_true_iff in Hpre as [H _].
        apply bool_decide_eq_true in H.
        rewrite H in Hn; apply length_zero_nil in Hn; now rewrite Hn in Hr.
    + eapply Forall_impl; [apply ledger_rows_agree; exact Hparty |]. auto.
  - rewrite rows_of_app, length_app, rows_of_ledger_rows, (booked_advance l id p B).
    now apply settled_after.
  - rewrite rows_of_app, finalPaidAt_after.
    pose proof (rows_of_ledger_rows env user id t p final_payment) as Hnew.
    destruct (rewrites t final_payment) eqn:Hrw.
    + destruct t; try discriminate.
      split; [| discriminate]. intros H. apply app_eq_nil in H as [_ H].
      rewrite H in Hnew. discriminate.
    + apply length_zero_nil in Hnew. rewrite Hnew, app_nil_r.
      destruct t; try discriminate; apply (booked_final l id p B).
  - rewrite rows_of_app, length_app, rows_of_ledger_rows, (booked_commission l id p B).
    apply released_after; auto.
  - rewrite rows_of_app, length_app, rows_of_ledger_rows, (booked_payout l id p B).
    apply released_after; auto.
Qed.
Lemma rows_of_absent ty id l :
  Forall (fun r => Transaction.escrowProjectId r <> id) l -> rows_of ty id l = [].
Proof.
  intros Hall. unfold rows_of. induction Hall as [|r l Hr _ IH]; simpl; [reflexivity |].
  rewrite IH. destruct (Nat.eqb_spec (Transaction.escrowProjectId r) id) as [E|E];
    [congruence |]. now rewrite andb_false_r.
Qed.

(** Rows appended for one project leave the books of the others. *)
Lemma booked_project_other l new id id' q :
  booked_project l id q ->
  Forall (fun r => Transaction.escrowProjectId r = id') new -> id' <> id ->
  booked_project (l ++ new) id q.
Proof.
  intros B Hnew Hne. constructor.
  - apply Forall_app. split; [apply (booked_rows l id q B) |].
    eapply Forall_impl; [exact Hnew |]. simpl. congruence.
  - rewrite rows_of_app, (rows_of_other _ id id' new Hnew Hne), app_nil_r.
    apply (booked_advance l id q B).
  - rewrite rows_of_app, (rows_of_other _ id id' new Hnew Hne), app_nil_r.
    apply (booked_final l id q B).
  - rewrite rows_of_app, (rows_of_other _ id id' new Hnew Hne), app_nil_r.
    apply (booked_commission l id q B).
  - rewrite rows_of_app, (rows_of_other _ id id' new Hnew Hne), app_nil_r.
    apply (booked_payout l id q B).
Qed.

(** A new offer has clean books. *)
Lemma booked_new_offer l id user workerId title description budget deadline :
  Forall (fun r => Transaction.escrowProjectId r <> id) l ->
  booked_project l id (new_offer user workerId title description budget deadline).
Proof.
  intros Hnone. constructor; rewrite ?(rows_of_absent _ id l Hnone); try reflexivity.
  - eapply Forall_impl; [exact Hnone |]. simpl. intros r Hr Hid. contradiction.
  - split; reflexivity.
Qed.

(** Serving a request keeps the ledger consistent with the documents. *)
Lemma serve_booked env user req w :
  reachable w -> booked w -> booked (fst (serve env user req w)).
Proof.
  intros R B id. pose proof (B id) as Bid.
  destruct (serve_cases env user req w)
    as [(Hp & Ht & _)
       | [(wk & ti & de & b & d & _ & _ & Hp & Ht & _)
         | (id0 & t & p & _ & stored & Hparty & Hpre & Hp & Ht & _)]];
    rewrite Hp, Ht.
  - exact Bid.
  - destruct (Nat.eq_dec (fresh (dom (escrow_projects w))) id) as [<- | Hne].
    + rewrite lookup_insert_eq. rewrite fresh_id_unused in Bid.
      now apply booked_new_offer.
    + rewrite lookup_insert_ne by exact Hne. exact Bid.
  - destruct (Nat.eq_dec id0 id) as [-> | Hne].
    + rewrite lookup_insert_eq. rewrite stored in Bid.
      apply commit_booked; try assumption. now apply (reachable_sound w R id).
    + rewrite lookup_insert_ne by exact Hne.
      pose proof (ledger_rows_for env user id0 t p) as Hnew.
      destruct (escrow_projects w !! id) as [q|].
      * now apply booked_project_other with id0.
      * apply Forall_app. split; [exact Bid |].
        eapply Forall_impl; [exact Hnew |]. simpl. congruence.
Qed.

Lemma blank_booked w : blank w -> reachable w /\ booked w.
Proof.
  intros [Hp Ht]. split; [now apply reachable_start |].
  intros id. rewrite Hp, lookup_empty, Ht. constructor.
Qed.

(** From a blank database, every sequence of requests leads to a database
    that is reachable and whose ledger is consistent. *)
Lemma serve_all_booked calls w :
  reachable w -> booked w ->
  reachable (serve_all calls w) /\ booked (serve_all calls w).
Proof.
  revert w. induction calls as [|c rest IH]; intros w R B; simpl; [auto |].
  apply IH; [now apply reachable_serve | now apply serve_booked].
Qed.

Lemma sample_calls_run budget agreed :
  serve_all (sample_calls budget agreed) Sample.start = Sample.released budget agreed.
Proof. reflexivity. Qed.

Lemma sample_blank : blank Sample.start.
Proof. split; reflexivity. Qed.

Lemma rows_of_refund id p l :
  Forall (fun r => Transaction.escrowProjectId r = id -> row_agrees p r) l ->
  rows_of refund id l = [].
Proof.
  intros Hrows. unfold rows_of. induction Hrows as [|r l' Hr _ IH]; simpl; [reflexivity |].
  rewrite IH. destruct (Nat.eqb_spec (Transaction.escrowProjectId r) id) as [E|E];
    [| now rewrite andb_false_r].
  destruct (Hr E) as [Hty _]. rewrite bool_decide_eq_false_2 by exact Hty. reflexivity.
Qed.

(** X6. From a database without projects and ledger rows, whatever
    requests are served: a stored project has exactly one advance_payment
    row if its status is in_progress, completed or completed_released and
    none otherwise; it has final_payment rows exactly when finalPaidAt is
    set; it has exactly one platform_commission row and one worker_payout
    row if it is released and none otherwise; and it never has a refund
    row. *)
Theorem ledger_counts calls w0 id p :
  blank w0 ->
  escrow_projects (serve_all calls w0) !! id = Some p ->
  let l := transactions (serve_all calls w0) in
  length (rows_of advance_payment id l) = b2n (advance_settled (EscrowProject.status p))
  /\ (rows_of final_payment id l = [] <-> EscrowProject.finalPaidAt p = None)
  /\ length (rows_of platform_commission id l)
     = b2n (is_released (EscrowProject.status p))
  /\ length (rows_of worker_payout id l) = b2n (is_released (EscrowProject.status p))
  /\ rows_of refund id l = [].
Proof.
  intros Hblank stored l.
  destruct (blank_booked w0 Hblank) as [R0 B0].
  destruct (serve_all_booked calls w0 R0 B0) as [_ B].
  specialize (B id). rewrite stored in B. fold l in B.
  split; [apply (booked_advance l id p B) |].
  split; [apply (booked_final l id p B) |].
  split; [apply (booked_commission l id p B) |].
  split; [apply (booked_payout l id p B) |].
  apply (rows_of_refund id p l), (booked_rows l id p B).
Qed.

Lemma ledger_counts_witness :
  length (rows_of advance_payment 0%nat (transactions (Sample.released 10000 None)))
  = 1%nat.
Proof.
  stored_project (Sample.released 10000 None) p E.
  rewrite <- sample_calls_run in E |- *.
  destruct (ledger_counts (sample_calls 10000 None) Sample.start 0%nat p sample_blank E)
    as (H & _).
  rewrite H. rewrite sample_calls_run in E.
  vm_compute in E. injection E as <-. reflexivity.
Defined.

(** X7. From a database without projects and ledger rows, whatever
    requests are served, every ledger row refers to a stored project and
    agrees with it: its amount is the project's advanceAmount, finalAmount,
    platformCommissionAmount or workerPayoutAmount according to its type;
    a payment comes from the project's client and is held in escrow (no
    recipient); a payout goes to the project's worker. *)
Theorem ledger_rows_belong calls w0 r :
  blank w0 ->
  In r (transactions (serve_all calls w0)) ->
  exists p,
    escrow_projects (serve_all calls w0) !! Transaction.escrowProjectId r = Some p
    /\ row_agrees p r.
Proof.
  intros Hblank Hin.
  destruct (blank_booked w0 Hblank) as [R0 B0].
  destruct (serve_all_booked calls w0 R0 B0) as [_ B].
  specialize (B (Transaction.escrowProjectId r)).
  apply list_elem_of_In in Hin.
  destruct (escrow_projects (serve_all calls w0) !! Transaction.escrowProjectId r)
    as [p|].
  - exists p. split; [reflexivity |].
    now apply (proj1 (Forall_forall _ _) (booked_rows _ _ p B) r Hin).
  - exfalso. now apply (proj1 (Forall_forall _ _) B r Hin).
Qed.

Lemma ledger_rows_belong_witness :
  exists p,
    Sample.project0 (Sample.released 10000 None) = Some p
    /\ row_agrees p (worker_payout_row 0%nat 2%nat 9500).
Proof.
  destruct (ledger_rows_belong (sample_calls 10000 None) Sample.start
              (worker_payout_row 0%nat 2%nat 9500) sample_blank) as (p & Hp & Hr).
  - rewrite sample_calls_run. vm_compute. auto 10.
  - exists p. rewrite sample_calls_run in Hp. auto.
Defined.

Lemma length_one {A : Type} (l : list A) : length l = 1%nat -> exists x, l = [x].
Proof. destruct l as [|x [|y l]]; try discriminate. eauto. Qed.



(** ** Notifications *)



(** ** What every stored project looks like *)

(** A property of documents that holds of every new offer and that every
    guarded transition keeps holds of every project of every reachable
    database. *)
Lemma reachable_projects (P : EscrowProject.t -> Prop) :
  (forall user workerId title description budget deadline,
     JS.trim title <> "" -> 0 < budget ->
     P (new_offer user workerId title description budget deadline)) ->
  (forall env t p,
     sound p -> P p -> precondition t p = true -> P (apply_transition env t p)) ->
  forall w, reachable w ->
  forall id p, escrow_projects w !! id = Some p -> P p.
Proof.
  intros Hnew Hstep. induction 1 as [w Hempty | env user req w Hreach IH]; intros id p Hp.
  - rewrite Hempty in Hp. now rewrite lookup_empty in Hp.
  - destruct (serve_step env user req w)
      as [Hsame | [(wk & ti & de & b & d & Hti & Hb & Hins)
                  | (id0 & t & p0 & _ & stored & _ & Hpre & Hins)]].
    + rewrite Hsame in Hp. now apply IH with id.
    + rewrite Hins in Hp. apply lookup_insert_Some in Hp as [[_ <-] | [_ Hp]];
        [now apply Hnew | now apply IH with id].
    + rewrite Hins in Hp. apply lookup_insert_Some in Hp as [[_ <-] | [_ Hp]];
        [| now apply IH with id].
      apply Hstep; [now apply (reachable_sound w Hreach id0) | now apply IH with id0
                   | exact Hpre].
Qed.

(** X10. In every database the handlers can produce, the progressPercent
    of every project lies between 0 and 100: an offer starts at 0, the
    advance payment sets 50, the completion 100, and the progress update
    clamps what it is given. *)
Theorem progress_in_range w id p :
  reachable w ->
  escrow_projects w !! id = Some p ->
  0 <= EscrowProject.progressPercent p <= 100.
Proof.
  intros R. revert id p.
  apply (reachable_projects (fun p => 0 <= EscrowProject.progressPercent p <= 100));
    [| | exact R].
  - intros. simpl. split; discriminate.
  - intros env t p _ Hp _. destruct t; simpl; try exact Hp; try (split; discriminate).
    unfold with_progress.
    destruct (ProgressBody.progressPercent body), (ProgressBody.milestones body); simpl;
      try exact Hp; apply Math_clamp_range.
Qed.

Lemma progress_in_range_witness :
  exists p,
    Sample.project0 (Sample.released 10000 None) = Some p
    /\ 0 <= EscrowProject.progressPercent p <= 100.
Proof.
  stored_project (Sample.released 10000 None) p E.
  exists p. split; [reflexivity |].
  apply (progress_in_range (Sample.released 10000 None) 0%nat p
           (sample_reachable 10000 None) E).
Defined.
(** X11. In every database the handlers can produce, a project carries a
    rating exactly when it is released: a released project has a rating
    between 1 and 5 with ratedAt and workerPayoutAt set; any other project
    has no rating, no review, no ratedAt, no workerPayoutAt, and commission
    and payout amounts of 0. *)
Theorem rating_iff_released w id p :
  reachable w ->
  escrow_projects w !! id = Some p ->
  if is_released (EscrowProject.status p)
  then exists q,
         EscrowProject.rating p = Some q /\ 1 <= q <= 5
         /\ EscrowProject.ratedAt p <> None
         /\ EscrowProject.workerPayoutAt p <> None
  else EscrowProject.rating p = None
       /\ EscrowProject.review p = ""
       /\ EscrowProject.ratedAt p = None
       /\ EscrowProject.workerPayoutAt p = None
       /\ EscrowProject.platformCommissionAmount p = 0
       /\ EscrowProject.workerPayoutAmount p = 0.
Proof.
  intros R. revert id p.
  apply (reachable_projects
           (fun p =>
              if is_released (EscrowProject.status p)
              then exists q,
                     EscrowProject.rating p = Some q /\ 1 <= q <= 5
                     /\ EscrowProject.ratedAt p <> None
                     /\ EscrowProject.workerPayoutAt p <> None
              else EscrowProject.rating p = None
                   /\ EscrowProject.review p = ""
                   /\ EscrowProject.ratedAt p = None
                   /\ EscrowProject.workerPayoutAt p = None
                   /\ EscrowProject.platformCommissionAmount p = 0
                   /\ EscrowProject.workerPayoutAmount p = 0)); [| | exact R].
  - intros. simpl. repeat split.
  - intros env t p _ HP Hpre. destruct t; simpl in Hpre.
    + apply bool_decide_eq_true in Hpre. rewrite Hpre in HP. exact HP.
    + apply bool_decide_eq_true in Hpre. rewrite Hpre in HP. exact HP.
    + apply orb_true_iff in Hpre as [H|H]; apply bool_decide_eq_true in H;
        rewrite H in HP; exact HP.
    + simpl. unfold with_progress.
      destruct (ProgressBody.progressPercent body), (ProgressBody.milestones body);
        exact HP.
    + apply orb_true_iff in Hpre as [H|H]; apply bool_decide_eq_true in H;
        rewrite H in HP; exact HP.
    + exact HP.
    + apply rate_precondition in Hpre as (Hs & Hf & q & Hq & Hr).
      simpl. rewrite Hq. simpl. exists q. repeat split; try apply Hr; discriminate.
Qed.

Lemma rating_iff_released_witness :
  exists p q,
    Sample.project0 (Sample.released 10000 None) = Some p
    /\ EscrowProject.rating p = Some q /\ 1 <= q <= 5.
Proof.
  stored_project (Sample.released 10000 None) p E.
  pose proof (rating_iff_released (Sample.released 10000 None) 0%nat p
                (sample_reachable 10000 None) E) as H.
  assert (Hs : is_released (EscrowProject.status p) = true).
  { vm_compute in E. injection E as <-. reflexivity. }
  rewrite Hs in H. destruct H as (q & Hq & Hr & _). exists p, q. auto.
Defined.

(** X12. In every database the handlers can produce, every project has a
    positive budget, a title that is not empty, its worker recorded as the
    chat partner, and a commission rate of 5 percent. *)
Theorem offer_terms_kept w id p :
  reachable w ->
  escrow_projects w !! id = Some p ->
  0 < EscrowProject.budget p
  /\ EscrowProject.title p <> ""
  /\ EscrowProject.chatWithUserId p = EscrowProject.workerId p
  /\ EscrowProject.platformCommissionPercent p = 5.
Proof.
  intros R. revert id p.
  apply (reachable_projects
           (fun p => 0 < EscrowProject.budget p
                     /\ EscrowProject.title p <> ""
                     /\ EscrowProject.chatWithUserId p = EscrowProject.workerId p
                     /\ EscrowProject.platformCommissionPercent p = 5)); [| | exact R].
  - intros. simpl. auto.
  - intros env t p _ HP _.
    assert (H : EscrowProject.budget (apply_transition env t p) = EscrowProject.budget p
                /\ EscrowProject.title (apply_transition env t p) = EscrowProject.title p
                /\ EscrowProject.chatWithUserId (apply_transition env t p)
                   = EscrowProject.chatWithUserId p
                /\ EscrowProject.workerId (apply_transition env t p)
                   = EscrowProject.workerId p
                /\ EscrowProject.platformCommissionPercent (apply_transition env t p)
                   = EscrowProject.platformCommissionPercent p).
    { destruct t; try (repeat split; reflexivity). simpl. unfold with_progress.
      destruct (ProgressBody.progressPercent body), (ProgressBody.milestones body);
        repeat split. }
    destruct H as (-> & -> & -> & -> & ->). exact HP.
Qed.

Lemma offer_terms_kept_witness :
  exists p,
    Sample.project0 (Sample.released 10000 None) = Some p
    /\ 0 < EscrowProject.budget p.
Proof.
  stored_project (Sample.released 10000 None) p E.
  exists p. split; [reflexivity |].
  apply (offer_terms_kept (Sample.released 10000 None) 0%nat p
           (sample_reachable 10000 None) E).
Defined.

(** X13. In every database the handlers can produce, the dates of a
    project follow its status: lockedAt, agreedBudget and agreedDeadline
    are set exactly when the project has been accepted (its status is
    neither offer_sent nor rejected), and advancePaidAt is set exactly when
    the advance has been paid (in_progress, completed, completed_released);
    before that the advanceAmount is 0. *)
Theorem dates_follow_status w id p :
  reachable w ->
  escrow_projects w !! id = Some p ->
  (if past_offer (EscrowProject.status p)
   then EscrowProject.lockedAt p <> None
        /\ EscrowProject.agreedBudget p <> None
        /\ EscrowProject.agreedDeadline p <> None
   else EscrowProject.lockedAt p = None
        /\ EscrowProject.agreedBudget p = None
        /\ EscrowProject.agreedDeadline p = None
        /\ EscrowProject.agreedTimeline p = "")
  /\ (if advance_settled (EscrowProject.status p)
      then EscrowProject.advancePaidAt p <> None
      else EscrowProject.advancePaidAt p = None /\ EscrowProject.advanceAmount p = 0).
Proof.
  intros R. revert id p.
  apply (reachable_projects
           (fun p =>
              (if past_offer (EscrowProject.status p)
               then EscrowProject.lockedAt p <> None
                    /\ EscrowProject.agreedBudget p <> None
                    /\ EscrowProject.agreedDeadline p <> None
               else EscrowProject.lockedAt p = None
                    /\ EscrowProject.agreedBudget p = None
                    /\ EscrowProject.agreedDeadline p = None
                    /\ EscrowProject.agreedTimeline p = "")
              /\ (if advance_settled (EscrowProject.status p)
                  then EscrowProject.advancePaidAt p <> None
                  else EscrowProject.advancePaidAt p = None
                       /\ EscrowProject.advanceAmount p = 0))); [| | exact R].
  - intros. simpl. repeat split.
  - intros env t p S HP Hpre. pose proof (sound_status p S) as Ha.
    destruct t; simpl in Hpre.
    + apply bool_decide_eq_true in Hpre. rewrite Hpre in HP. simpl in *.
      destruct HP as [_ HP]. split; [repeat split; discriminate | exact HP].
    + apply bool_decide_eq_true in Hpre. rewrite Hpre in HP. simpl in *. exact HP.
    + apply orb_true_iff in Hpre as [H|H]; apply bool_decide_eq_true in H;
        rewrite H in HP, Ha; try discriminate; simpl in *.
      destruct HP as [HP _]. split; [exact HP | discriminate].
    + simpl. unfold with_progress.
      destruct (ProgressBody.progressPercent body), (ProgressBody.milestones body);
        exact HP.
    + apply orb_true_iff in Hpre as [H|H]; apply bool_decide_eq_true in H;
        rewrite H in HP, Ha; try discriminate; simpl in *. exact HP.
    + apply bool_decide_eq_true in Hpre. rewrite Hpre in HP. simpl in *.
      rewrite Hpre. exact HP.
    + apply rate_precondition in Hpre as (Hs & Hf & q & Hq & Hr).
      rewrite Hs in HP. simpl in *. exact HP.
Qed.

Lemma dates_follow_status_witness :
  exists p,
    Sample.project0 (Sample.locked 10000 None) = Some p
    /\ EscrowProject.lockedAt p <> None /\ EscrowProject.advancePaidAt p = None.
Proof.
  stored_project (Sample.locked 10000 None) p E.
  assert (R : reachable (Sample.locked 10000 None)).
  { apply (reachable_serve Sample.env Sample.bob
             (OnProject 0%nat (Accept (Sample.terms None)))).
    apply (reachable_serve Sample.env Sample.alice
             (CreateOffer (Sample.offer 2%nat 10000))).
    now apply reachable_start. }
  pose proof (dates_follow_status (Sample.locked 10000 None) 0%nat p R E) as H.
  assert (Hs : EscrowProject.status p = accepted).
  { vm_compute in E. injection E as <-. reflexivity. }
  rewrite Hs in H. simpl in H. destruct H as ((Hl & _) & (Ha & _)).
  exists p. auto.
Defined.

(** * Properties of the reading endpoints *)

Lemma get_project_runs user id w :
  get_project user id w
  = (w, match escrow_projects w !! id with
        | None => res_error 404 "Project not found"
        | Some p =>
            if is_party (_id user) p
            then res_json 200 (formatProjectLean w (id, p))
            else res_error 403 "Not authorized"
        end).
Proof.
  unfold get_project, try_catch, is_party. rewrite findById_bind.
  destruct (escrow_projects w !! id) as [p|]; [| reflexivity].
  rewrite !populate_bind.
  destruct (Nat.eqb (EscrowProject.clientId p) (_id user)),
           (Nat.eqb (EscrowProject.workerId p) (_id user)); reflexivity.
Qed.

Lemma is_party_true me p :
  is_party me p = true
  <-> me = EscrowProject.clientId p \/ me = EscrowProject.workerId p.
Proof.
  unfold is_party. rewrite orb_true_iff, !Nat.eqb_eq. intuition congruence.
Qed.


(** The answer of a transition that passes its guards while the
    notification store works: the document it stored. *)
Lemma route_answer env user id t w p :
  escrow_projects w !! id = Some p ->
  _id user = party_id (required_party t) p ->
  precondition t p = true ->
  notificationFault env = None ->
  exists client worker,
    snd (route env user id t w)
    = res_json 200 (formatProject id (apply_transition env t p) client worker).
Proof.
  intros stored Hparty Hpre Hn.
  destruct t; simpl in Hparty, Hpre |- *;
    unfold post_accept, post_reject, post_advance_payment, patch_progress,
      post_complete, post_final_payment, post_rate, try_catch;
    rewrite findById_bind, stored, ?populate_bind, (eqb_party_true _ _ Hparty).
  - rewrite Hpre. simpl.
    unfold createNotification, bind, EscrowProject_save, modify, throw, ret.
    rewrite Hn. simpl. eauto.
  - rewrite Hpre. simpl.
    unfold createNotification, bind, EscrowProject_save, modify, throw, ret.
    rewrite Hn. simpl. eauto.
  - rewrite Hpre. simpl.
    unfold createNotification, bind, Transaction_create, EscrowProject_save, modify,
      throw, ret.
    rewrite Hn. simpl. eauto.
  - simpl. unfold bind, EscrowProject_save, modify, ret. simpl. eauto.
  - rewrite Hpre. simpl.
    unfold createNotification, bind, EscrowProject_save, modify, throw, ret.
    rewrite Hn. simpl. eauto.
  - rewrite Hpre. simpl.
    unfold createNotification, bind, Transaction_create, EscrowProject_save, modify,
      throw, ret.
    rewrite Hn. simpl. eauto.
  - apply rate_precondition in Hpre as (Hs & Hf & q & Hq & Hr).
    rewrite Hs, Hq. rewrite bool_decide_eq_true_2 by reflexivity.
    apply is_set_true in Hf. rewrite Hf.
    apply rating_rejected_false in Hr. rewrite Hr. simpl.
    unfold createNotification, bind, WorkerReview_create, EscrowProject_save,
      Transaction_create, UserCard_findOne, WorkerReview_find, UserCard_save,
      gets, modify, throw, ret. simpl. rewrite Hn.
    destruct (user_cards w !! EscrowProject.workerId p); simpl; eauto.
Qed.

Lemma apply_transition_parties env t p :
  EscrowProject.clientId (apply_transition env t p) = EscrowProject.clientId p
  /\ EscrowProject.workerId (apply_transition env t p) = EscrowProject.workerId p.
Proof.
  destruct t; try (split; reflexivity). simpl. unfold with_progress.
  destruct (ProgressBody.progressPercent body), (ProgressBody.milestones body);
    split; reflexivity.
Qed.



(** ** Lists of stored documents *)

Lemma In_take {A : Type} (n : nat) (l : list A) (x : A) : In x (take n l) -> In x l.
Proof.
  intros H. rewrite <- (firstn_skipn n l). apply in_or_app. now left.
Qed.

Lemma NoDup_take {A : Type} (n : nat) (l : list A) : NoDup l -> NoDup (take n l).
Proof.
  intros H. eapply sublist_NoDup; [exact H | apply sublist_take].
Qed.

Lemma NoDup_map_filter {A B : Type} (g : A -> B) (f : A -> bool) (l : list A) :
  NoDup (map g l) -> NoDup (map g (List.filter f l)).
Proof.
  induction l as [| x l IH]; simpl; intros H; [exact H |].
  apply NoDup_cons in H as [Hx Hl].
  destruct (f x); simpl; [| auto].
  apply NoDup_cons. split; [| auto].
  intros Hin. apply Hx. apply list_elem_of_In in Hin. apply list_elem_of_In.
  apply in_map_iff in Hin as (y & Hy & Hin).
  apply in_map_iff. exists y. split; [exact Hy |].
  now apply filter_In in Hin as [Hin _].
Qed.

Lemma stored_transactions_In w i r :
  In (i, r) (stored_transactions w) <-> transactions w !! i = Some r.
Proof.
  unfold stored_transactions. rewrite <- list_elem_of_In, elem_of_lookup_imap. split.
  - intros (j & y & E & Hl). now injection E as -> ->.
  - intros Hl. now exists i, r.
Qed.

Lemma stored_transactions_ids w : NoDup (map fst (stored_transactions w)).
Proof.
  apply NoDup_alt. intros i j x Hi Hj.
  unfold stored_transactions in Hi, Hj.
  change (map fst ?l) with (fst <$> l) in Hi, Hj.
  rewrite list_lookup_fmap, list_lookup_imap in Hi, Hj.
  destruct (transactions w !! i); [| discriminate].
  destruct (transactions w !! j); [| discriminate].
  simpl in Hi, Hj. congruence.
Qed.

Lemma stored_filter_length {A : Type} (f : A -> bool) (g : nat -> nat) (l : list A) :
  length (List.filter (fun d => f (snd d)) (imap (fun i r => (g i, r)) l))
  = length (List.filter f l).
Proof.
  revert g. induction l as [| x l IH]; intros g; [reflexivity |].
  simpl. destruct (f x); simpl; [f_equal |]; apply (IH (g ∘ S)).
Qed.

Section History.

Variable newest_first : Sort Transaction.t.
Hypothesis rearranges : forall l, Permutation (newest_first l) l.

Lemma get_transactions_runs user w :
  get_transactions newest_first user w
  = (w, Replied 200
          (map (formatTransaction w)
             (take 200 (newest_first
                (List.filter (fun d => involves (_id user) (snd d))
                   (stored_transactions w)))))).
Proof. reflexivity. Qed.

(** X16. The payment history: GET /transactions never writes and answers
    200 with at most 200 rows; every row shown is a stored ledger row that
    the actor paid or received, formatted, and no row is shown twice; when
    the actor has at most 200 such rows, all of them are shown. *)
Theorem payment_history_of_actor user w :
  let served := get_transactions newest_first user w in
  fst served = w
  /\ exists rows,
      snd served = Replied 200 rows
      /\ (length rows <= 200)%nat
      /\ (forall j, In j rows ->
            exists i r,
              transactions w !! i = Some r
              /\ (Transaction.fromUserId r = Some (_id user)
                  \/ Transaction.toUserId r = Some (_id user))
              /\ j = formatTransaction w (i, r))
      /\ NoDup (map TransactionJson.id rows)
      /\ ((length (List.filter (involves (_id user)) (transactions w)) <= 200)%nat ->
          forall i r,
            transactions w !! i = Some r ->
            involves (_id user) r = true ->
            In (formatTransaction w (i, r)) rows).
Proof.
  intros served. subst served. rewrite get_transactions_runs. simpl.
  split; [reflexivity |].
  set (found := List.filter (fun d => involves (_id user) (snd d)) (stored_transactions w)).
  exists (map (formatTransaction w) (take 200 (newest_first found))).
  split; [reflexivity |]. split; [| split; [| split]].
  - rewrite length_map. apply firstn_le_length.
  - intros j Hj. apply in_map_iff in Hj as ([i r] & <- & Hin).
    apply In_take in Hin.
    apply (Permutation_in _ (rearranges found)) in Hin.
    apply filter_In in Hin as [Hin Hf]. apply stored_transactions_In in Hin.
    exists i, r. split; [exact Hin |]. split; [| reflexivity].
    simpl in Hf. unfold involves in Hf. apply orb_true_iff in Hf as [H | H];
      apply bool_decide_eq_true in H; auto.
  - rewrite map_map. simpl. rewrite <- firstn_map. apply NoDup_take.
    rewrite (Permutation_map fst (rearranges found)).
    apply NoDup_map_filter, stored_transactions_ids.
  - intros Hfew i r Hl Hf.
    assert (Hlen : (length (newest_first found) <= 200)%nat).
    { rewrite (Permutation_length (rearranges found)). subst found.
      unfold stored_transactions.
      now rewrite (stored_filter_length (involves (_id user)) (fun i => i)). }
    rewrite (firstn_all2 _ Hlen).
    apply in_map. apply (Permutation_in _ (Permutation_sym (rearranges found))).
    apply filter_In. split; [now apply stored_transactions_In | exact Hf].
Qed.

End History.

Lemma payment_history_of_actor_witness :
  exists rows,
    snd (get_transactions (fun l => rev l) Sample.alice (Sample.released 10000 None))
    = Replied 200 rows
    /\ (length rows <= 200)%nat.
Proof.
  destruct (payment_history_of_actor (fun l => rev l)
              (fun l => Permutation_sym (Permutation_rev l))
              Sample.alice (Sample.released 10000 None))
    as (_ & rows & Hr & Hlen & _).
  exists rows. split; [exact Hr | exact Hlen].
Defined.

Lemma is_in_chat me withId p :
  in_chat me withId p = true
  <-> ((EscrowProject.clientId p = me /\ EscrowProject.workerId p = withId)
       \/ (EscrowProject.clientId p = withId /\ EscrowProject.workerId p = me))
      /\ EscrowProject.status p <> rejected
      /\ EscrowProject.status p <> cancelled.
Proof.
  unfold in_chat.
  rewrite andb_true_iff, orb_true_iff, !andb_true_iff, !Nat.eqb_eq,
    negb_true_iff, orb_false_iff, !bool_decide_eq_false.
  tauto.
Qed.

Lemma in_chat_sym a b p : in_chat a b p = in_chat b a p.
Proof. unfold in_chat. f_equal. apply orb_comm. Qed.

Lemma stored_projects_ids w : NoDup (map fst (map_to_list (escrow_projects w))).
Proof. apply (NoDup_fst_map_to_list (escrow_projects w)). Qed.

Section Listings.

Variable newest_first : Sort EscrowProject.t.
Hypothesis rearranges : forall l, Permutation (newest_first l) l.

Lemma find_rows (f : EscrowProject.t -> bool) (w : World) (j : ProjectJson.t) :
  In j (map (formatProjectLean w)
          (newest_first (List.filter (fun d => f (snd d))
                           (map_to_list (escrow_projects w)))))
  <-> exists id p,
        escrow_projects w !! id = Some p /\ f p = true
        /\ j = formatProjectLean w (id, p).
Proof.
  set (found := List.filter _ _). split.
  - intros Hj. apply in_map_iff in Hj as ([id p] & <- & Hin).
    apply (Permutation_in _ (rearranges found)) in Hin.
    apply filter_In in Hin as [Hin Hf].
    apply list_elem_of_In, elem_of_map_to_list in Hin. now exists id, p.
  - intros (id & p & Hl & Hf & ->). apply in_map.
    apply (Permutation_in _ (Permutation_sym (rearranges found))).
    apply filter_In. split; [| exact Hf].
    now apply list_elem_of_In, elem_of_map_to_list.
Qed.

Lemma find_rows_ids (f : EscrowProject.t -> bool) (w : World) :
  NoDup (map ProjectJson.id
           (map (formatProjectLean w)
              (newest_first (List.filter (fun d => f (snd d))
                               (map_to_list (escrow_projects w)))))).
Proof.
  rewrite map_map. simpl.
  rewrite (Permutation_map fst (rearranges _)).
  apply NoDup_map_filter, stored_projects_ids.
Qed.


(** X18. The projects of a conversation: GET /projects/chat/:withUserId
    never writes and answers 200; a project is in the list exactly when it
    is stored, the actor and the other user are its client and its worker
    (either way round), and it is neither rejected nor cancelled; every
    project of the list is in the actor's own list of GET /projects; and
    the other user, asking for the conversation with the actor, gets the
    same list. *)
Theorem chat_projects_listed user other w :
  let served := get_projects_chat newest_first user (_id other) w in
  fst served = w
  /\ exists rows,
      snd served = Replied 200 rows
      /\ (forall j,
            In j rows
            <-> exists id p,
                  escrow_projects w !! id = Some p
                  /\ ((EscrowProject.clientId p = _id user
                       /\ EscrowProject.workerId p = _id other)
                      \/ (EscrowProject.clientId p = _id other
                          /\ EscrowProject.workerId p = _id user))
                  /\ EscrowProject.status p <> rejected
                  /\ EscrowProject.status p <> cancelled
                  /\ j = formatProjectLean w (id, p))
      /\ (exists mine,
            snd (get_projects newest_first user w) = Replied 200 mine
            /\ incl rows mine)
      /\ snd (get_projects_chat newest_first other (_id user) w) = Replied 200 rows.
Proof.
  intros served. subst served. split; [reflexivity |].
  eexists. split; [reflexivity |]. split; [| split].
  - intros j. rewrite find_rows. split.
    + intros (id & p & Hl & Hf & E). exists id, p.
      apply is_in_chat in Hf. tauto.
    + intros (id & p & Hl & Hwho & Hr & Hc & E). exists id, p.
      split; [exact Hl |]. split; [| exact E]. apply is_in_chat. tauto.
  - eexists. split; [reflexivity |].
    intros j Hj. apply find_rows in Hj as (id & p & Hl & Hf & E).
    apply find_rows. exists id, p. split; [exact Hl |]. split; [| exact E].
    apply is_in_chat in Hf as (Hwho & _). apply is_party_true.
    intuition congruence.
  - unfold get_projects_chat, try_catch_reply, EscrowProject_find, bind, gets, ret.
    simpl.
    rewrite (filter_ext (fun d => in_chat (_id other) (_id user) (snd d))
               (fun d => in_chat (_id user) (_id other) (snd d)));
      [reflexivity | intros d; apply in_chat_sym].
Qed.

End Listings.


Lemma chat_projects_listed_witness :
  exists rows,
    snd (get_projects_chat (fun l => rev l) Sample.alice (_id Sample.bob)
           (Sample.released 10000 None))
    = Replied 200 rows
    /\ snd (get_projects_chat (fun l => rev l) Sample.bob (_id Sample.alice)
              (Sample.released 10000 None))
       = Replied 200 rows.
Proof.
  destruct (chat_projects_listed (fun l => rev l)
              (fun l => Permutation_sym (Permutation_rev l))
              Sample.alice Sample.bob (Sample.released 10000 None))
    as (_ & rows & Hr & _ & _ & Hsym).
  exists rows. split; [exact Hr | exact Hsym].
Defined.

(** ** The answers of the transitions *)

(** The status code of a transition that passes its guards. *)
Lemma route_passed_code env user id t w p :
  escrow_projects w !! id = Some p ->
  _id user = party_id (required_party t) p ->
  precondition t p = true ->
  statusCode (snd (route env user id t w))
  = if notifies t && is_set (notificationFault env) then 500%nat else 200%nat.
Proof.
  intros stored Hparty Hpre.
  destruct (notificationFault env) as [msg|] eqn:Hn.
  - destruct (notifies t) eqn:Hnot; simpl.
    + now rewrite (notification_fault_surfaces env user id t w p msg).
    + destruct t; try discriminate. simpl.
      now rewrite (patch_progress_worker env user id body w p stored Hparty).
  - rewrite andb_false_r.
    now apply (route_commits env user id t w p stored Hparty Hpre).
Qed.




(** ** Creating an offer *)





(** ** One review per released project *)

Lemma reviews_of_app id l l' :
  reviews_of id (l ++ l') = (reviews_of id l ++ reviews_of id l')%list.
Proof. apply List.filter_app. Qed.

Lemma reviews_of_rows user id t p id' :
  id' <> id -> reviews_of id' (review_rows user id t p) = [].
Proof.
  intros Hne. destruct t; try reflexivity. simpl.
  apply Nat.eqb_neq in Hne. rewrite Nat.eqb_sym in Hne. now rewrite Hne.
Qed.

Lemma with_progress_review body p r :
  review_agrees p r -> review_agrees (with_progress body p) r.
Proof.
  unfold review_agrees, with_progress.
  destruct (ProgressBody.progressPercent body), (ProgressBody.milestones body);
    simpl; tauto.
Qed.

(** A transition that passes its guards keeps the reviews of its project
    consistent with the document. *)
Lemma commit_reviewed env user id t p l :
  _id user = party_id (required_party t) p ->
  precondition t p = true ->
  (if is_released (EscrowProject.status p)
   then exists r, reviews_of id l = [r] /\ review_agrees p r
   else reviews_of id l = []) ->
  let p' := apply_transition env t p in
  let l' := (l ++ review_rows user id t p)%list in
  if is_released (EscrowProject.status p')
  then exists r, reviews_of id l' = [r] /\ review_agrees p' r
  else reviews_of id l' = [].
Proof.
  intros Hparty Hpre H. simpl. rewrite reviews_of_app.
  destruct t; simpl in Hparty, Hpre |- *.
  - apply bool_decide_eq_true in Hpre. rewrite Hpre in H. simpl in H.
    now rewrite H.
  - apply bool_decide_eq_true in Hpre. rewrite Hpre in H. simpl in H.
    now rewrite H.
  - rewrite app_nil_r.
    apply orb_true_iff in Hpre as [E|E]; apply bool_decide_eq_true in E;
      rewrite E in H; simpl in H; exact H.
  - rewrite app_nil_r.
    destruct (with_progress_frame body p) as (Hs & _). simpl in Hs. rewrite Hs.
    destruct (is_released (EscrowProject.status p)); [| exact H].
    destruct H as (r & Hr & Ha). exists r. split; [exact Hr |].
    now apply with_progress_review.
  - rewrite app_nil_r.
    apply orb_true_iff in Hpre as [E|E]; apply bool_decide_eq_true in E;
      rewrite E in H; simpl in H; exact H.
  - rewrite app_nil_r. apply bool_decide_eq_true in Hpre. rewrite Hpre in H.
    simpl in H. unfold finally_paid. simpl. rewrite Hpre. exact H.
  - apply andb_true_iff in Hpre as [Hpre _]. apply andb_true_iff in Hpre as [Hs _].
    apply bool_decide_eq_true in Hs. rewrite Hs in H. simpl in H. rewrite H.
    rewrite Nat.eqb_refl. simpl. eexists. split; [reflexivity |].
    repeat split; simpl; auto.
Qed.

Lemma serve_reviewed env user req w :
  reviewed w -> reviewed (fst (serve env user req w)).
Proof.
  intros B id. pose proof (B id) as Bid.
  destruct (serve_cases env user req w)
    as [(Hp & _ & Hr)
       | [(wk & ti & de & b & d & _ & _ & Hp & _ & Hr)
         | (id0 & t & p & _ & stored & Hparty & Hpre & Hp & _ & Hr)]];
    rewrite Hp, Hr.
  - exact Bid.
  - destruct (Nat.eq_dec (fresh (dom (escrow_projects w))) id) as [<- | Hne].
    + rewrite lookup_insert_eq. now rewrite fresh_id_unused in Bid.
    + rewrite lookup_insert_ne by exact Hne. exact Bid.
  - destruct (Nat.eq_dec id0 id) as [-> | Hne].
    + rewrite lookup_insert_eq. rewrite stored in Bid.
      now apply commit_reviewed.
    + rewrite lookup_insert_ne by exact Hne.
      rewrite reviews_of_app, (reviews_of_rows user id0 t p id), app_nil_r by congruence.
      exact Bid.
Qed.

Lemma serve_all_reviewed calls w : reviewed w -> reviewed (serve_all calls w).
Proof.
  revert w. induction calls as [|c rest IH]; intros w B; simpl; [exact B |].
  now apply IH, serve_reviewed.
Qed.



(** ** Reading and marking the notifications *)

Lemma stored_notifications_In w i n :
  In (i, n) (stored_notifications w) <-> notifications w !! i = Some n.
Proof.
  unfold stored_notifications. rewrite <- list_elem_of_In, elem_of_lookup_imap. split.
  - intros (j & y & E & Hl). now injection E as -> ->.
  - intros Hl. now exists i, n.
Qed.

Lemma stored_notifications_ids w : NoDup (map fst (stored_notifications w)).
Proof.
  apply NoDup_alt. intros i j x Hi Hj.
  unfold stored_notifications in Hi, Hj.
  change (map fst ?l) with (fst <$> l) in Hi, Hj.
  rewrite list_lookup_fmap, list_lookup_imap in Hi, Hj.
  destruct (notifications w !! i); [| discriminate].
  destruct (notifications w !! j); [| discriminate].
  simpl in Hi, Hj. congruence.
Qed.

(** Rewriting a document that the filter rejects, before and after, does
    not change what the filter finds. *)
Lemma filter_imap_insert {A : Type} (f : A -> bool) (g : nat -> nat) (l : list A)
    (i : nat) (x y : A) :
  l !! i = Some x -> f x = false -> f y = false ->
  List.filter (fun d => f (snd d)) (imap (fun j r => (g j, r)) (<[i := y]> l))
  = List.filter (fun d => f (snd d)) (imap (fun j r => (g j, r)) l).
Proof.
  revert g i. induction l as [| a l IH]; intros g i Hl Hx Hy; [discriminate |].
  destruct i as [| i]; simpl in Hl |- *.
  - injection Hl as ->. now rewrite Hx, Hy.
  - specialize (IH (g ∘ S) i Hl Hx Hy). unfold compose in IH.
    destruct (f a); [f_equal |]; exact IH.
Qed.

(** Rewriting a document the filter accepts into one it rejects removes
    one document from what the filter finds. *)
Lemma filter_insert_length {A : Type} (f : A -> bool) (l : list A) (i : nat) (x y : A) :
  l !! i = Some x -> f x = true -> f y = false ->
  S (length (List.filter f (<[i := y]> l))) = length (List.filter f l).
Proof.
  revert i. induction l as [| a l IH]; intros i Hl Hx Hy; [discriminate |].
  destruct i as [| i]; simpl in Hl |- *.
  - injection Hl as ->. now rewrite Hx, Hy.
  - specialize (IH i Hl Hx Hy). destruct (f a); simpl; now rewrite <- IH.
Qed.

Lemma post_read_runs env user id w :
  post_read env user id w
  = (match notifications w !! id with
     | Some n =>
         if addressed_to (_id user) n
         then set_notifications (<[id := marked_read env n]> (notifications w)) w
         else w
     | None => w
     end, Replied 200 true).
Proof. reflexivity. Qed.

(** X24. Marking a notification as read, POST /:id/read, is always answered
    success, and touches at most the notification with this id, and only
    when it is addressed to the actor: that one becomes read at the time of
    the request; no notification is added or removed, nothing else in the
    database changes, the list any other user gets from GET / is the same
    as before, and when the notification was unread the actor has one
    unread notification less. *)
Theorem read_marks_own_notification env user id w :
  let served := post_read env user id w in
  snd served = Replied 200 true
  /\ escrow_projects (fst served) = escrow_projects w
  /\ transactions (fst served) = transactions w
  /\ length (notifications (fst served)) = length (notifications w)
  /\ (forall i n,
        notifications w !! i = Some n ->
        notifications (fst served) !! i
        = Some (if Nat.eqb i id && addressed_to (_id user) n
                then marked_read env n else n))
  /\ (forall newest_first other,
        _id other <> _id user ->
        snd (get_notifications newest_first other (fst served))
        = snd (get_notifications newest_first other w))
  /\ (forall n,
        notifications w !! id = Some n ->
        Notification.userId n = _id user ->
        Notification.read n = false ->
        S (length (unread (_id user) (fst served))) = length (unread (_id user) w)).
Proof.
  intros served. subst served. rewrite post_read_runs. simpl.
  split; [reflexivity |].
  destruct (notifications w !! id) as [m|] eqn:Hid.
  - destruct (addressed_to (_id user) m) eqn:Hmine.
    + simpl. split; [reflexivity |]. split; [reflexivity |].
      split; [apply length_insert |].
      split; [| split].
      * intros i n Hi. destruct (Nat.eq_dec i id) as [-> | Hne].
        -- rewrite Nat.eqb_refl. simpl.
           pose proof (eq_trans (eq_sym Hid) Hi) as E; injection E as <-. rewrite Hmine.
           apply list_lookup_insert_eq. now apply lookup_lt_Some with m.
        -- apply Nat.eqb_neq in Hne as Hb. rewrite Hb. simpl.
           rewrite list_lookup_insert_ne by congruence. exact Hi.
      * intros newest_first other Hother.
        unfold get_notifications, try_catch_reply, Notification_find, bind, gets, ret,
          stored_notifications.
        simpl.
        apply (f_equal (fun l => Replied 200
                                   (map formatNotification (take 50 (newest_first l))))).
        apply (filter_imap_insert (addressed_to (_id other)) (fun j => j)
                 (notifications w) id m (marked_read env m) Hid).
        -- unfold addressed_to in *. apply Nat.eqb_eq in Hmine.
           apply Nat.eqb_neq. congruence.
        -- unfold addressed_to in *. apply Nat.eqb_eq in Hmine. simpl.
           apply Nat.eqb_neq. congruence.
      * intros n Hn Hu Hr. injection Hn as <-.
        unfold unread, stored_notifications. simpl.
        rewrite !(stored_filter_length
                    (fun n => addressed_to (_id user) n && negb (Notification.read n))
                    (fun j => j)).
        apply (filter_insert_length _ _ id m); [exact Hid | |].
        -- now rewrite Hmine, Hr.
        -- simpl. apply andb_false_r.
    + split; [reflexivity |]. split; [reflexivity |]. split; [reflexivity |].
      split; [| split].
      * intros i n Hi. destruct (Nat.eq_dec i id) as [-> | Hne].
        -- pose proof (eq_trans (eq_sym Hid) Hi) as E; injection E as <-. rewrite Hmine, andb_false_r.
           exact Hi.
        -- apply Nat.eqb_neq in Hne as Hb. now rewrite Hb.
      * reflexivity.
      * intros n Hn Hu. injection Hn as <-.
        unfold addressed_to in Hmine. apply Nat.eqb_neq in Hmine. congruence.
  - split; [reflexivity |]. split; [reflexivity |]. split; [reflexivity |].
    split; [| split].
    + intros i n Hi. destruct (Nat.eq_dec i id) as [-> | Hne];
        [pose proof (eq_trans (eq_sym Hid) Hi) as E; discriminate |].
      apply Nat.eqb_neq in Hne as Hb. now rewrite Hb.
    + reflexivity.
    + intros n Hn. discriminate.
Qed.

Section Inbox.

Variable newest_first : Sort Notification.t.
Hypothesis rearranges : forall l, Permutation (newest_first l) l.

Lemma get_notifications_runs user w :
  get_notifications newest_first user w
  = (w, Replied 200
          (map formatNotification
             (take 50 (newest_first
                (List.filter (fun d => addressed_to (_id user) (snd d))
                   (stored_notifications w)))))).
Proof. reflexivity. Qed.

(** X25. The list of notifications: GET / never writes and answers 200 with
    at most 50 rows; every row is a stored notification addressed to the
    actor, shown with its read flag, and no notification is shown twice;
    when at most 50 notifications are addressed to the actor, all of them
    are shown. *)
Theorem notifications_of_actor user w :
  let served := get_notifications newest_first user w in
  fst served = w
  /\ exists rows,
      snd served = Replied 200 rows
      /\ (length rows <= 50)%nat
      /\ (forall j, In j rows ->
            exists i n,
              notifications w !! i = Some n
              /\ Notification.userId n = _id user
              /\ j = formatNotification (i, n))
      /\ NoDup (map NotificationJson.id rows)
      /\ ((length (List.filter (addressed_to (_id user)) (notifications w)) <= 50)%nat ->
          forall i n,
            notifications w !! i = Some n ->
            Notification.userId n = _id user ->
            In (formatNotification (i, n)) rows).
Proof.
  intros served. subst served. rewrite get_notifications_runs. simpl.
  split; [reflexivity |].
  set (found := List.filter (fun d => addressed_to (_id user) (snd d))
                  (stored_notifications w)).
  exists (map formatNotification (take 50 (newest_first found))).
  split; [reflexivity |]. split; [| split; [| split]].
  - rewrite length_map. apply firstn_le_length.
  - intros j Hj. apply in_map_iff in Hj as ([i n] & <- & Hin).
    apply In_take in Hin.
    apply (Permutation_in _ (rearranges found)) in Hin.
    apply filter_In in Hin as [Hin Hf]. apply stored_notifications_In in Hin.
    exists i, n. split; [exact Hin |]. split; [| reflexivity].
    now apply Nat.eqb_eq in Hf.
  - rewrite map_map. simpl. rewrite <- firstn_map. apply NoDup_take.
    rewrite (Permutation_map fst (rearranges found)).
    apply NoDup_map_filter, stored_notifications_ids.
  - intros Hfew i n Hl Hf.
    assert (Hlen : (length (newest_first found) <= 50)%nat).
    { rewrite (Permutation_length (rearranges found)). subst found.
      unfold stored_notifications.
      now rewrite (stored_filter_length (addressed_to (_id user)) (fun i => i)). }
    rewrite (firstn_all2 _ Hlen).
    apply in_map. apply (Permutation_in _ (Permutation_sym (rearranges found))).
    apply filter_In. split; [now apply stored_notifications_In |].
    now apply Nat.eqb_eq.
Qed.


End Inbox.

Lemma notifications_of_actor_witness :
  exists rows,
    snd (get_notifications (fun l => rev l) Sample.bob (Sample.released 10000 None))
    = Replied 200 rows
    /\ (length rows <= 50)%nat.
Proof.
  destruct (notifications_of_actor (fun l => rev l)
              (fun l => Permutation_sym (Permutation_rev l))
              Sample.bob (Sample.released 10000 None))
    as (_ & rows & Hr & Hlen & _).
  exists rows. split; [exact Hr | exact Hlen].
Defined.


(** ** The devices of a user *)

Lemma same_device_key user token d :
  same_device user token d = true <-> device_key d = (user, token).
Proof.
  unfold same_device, device_key.
  rewrite andb_true_iff, Nat.eqb_eq, String.eqb_eq. split.
  - intros [-> ->]. reflexivity.
  - intros E. now injection E.
Qed.

Lemma tokens_of_keys user token l :
  In token (tokens_of user l) <-> In (user, token) (map device_key l).
Proof.
  unfold tokens_of. rewrite !in_map_iff. split.
  - intros (d & <- & Hd). apply filter_In in Hd as [Hd Hu].
    apply Nat.eqb_eq in Hu. exists d. split; [| exact Hd].
    unfold device_key. now rewrite Hu.
  - intros (d & E & Hd). unfold device_key in E. injection E as Hu Ht.
    exists d. split; [exact Ht |]. apply filter_In. split; [exact Hd |].
    now apply Nat.eqb_eq.
Qed.

(** The upsert keeps the keys when the key is there and appends it when it
    is not. *)
Lemma upsert_keys user token plat l :
  map device_key (DeviceToken_findOneAndUpdate user token plat l)
  = if existsb (same_device user token) l
    then map device_key l
    else (map device_key l ++ [(user, token)])%list.
Proof.
  induction l as [| d l IH]; [reflexivity |]. simpl.
  destruct (same_device user token d); simpl; [reflexivity |].
  rewrite IH. now destruct (existsb (same_device user token) l).
Qed.

Lemma existsb_same_device user token l :
  existsb (same_device user token) l = true <-> In (user, token) (map device_key l).
Proof.
  rewrite existsb_exists, in_map_iff. split.
  - intros (d & Hd & E). exists d. split; [now apply same_device_key | exact Hd].
  - intros (d & E & Hd). exists d. split; [exact Hd | now apply same_device_key].
Qed.

Lemma upsert_NoDup user token plat l :
  NoDup (map device_key l) ->
  NoDup (map device_key (DeviceToken_findOneAndUpdate user token plat l)).
Proof.
  intros H. rewrite upsert_keys.
  destruct (existsb (same_device user token) l) eqn:E; [exact H |].
  apply NoDup_app. split; [exact H |]. split; [| apply NoDup_singleton].
  intros k Hk Hin. apply list_elem_of_In in Hk. apply list_elem_of_In in Hin.
  destruct Hin as [<- | []].
  apply existsb_same_device in Hk. congruence.
Qed.

Lemma upsert_In user token plat l d :
  In d (DeviceToken_findOneAndUpdate user token plat l) ->
  In d l \/ (device_key d = (user, token) /\ DeviceToken.platform d = plat).
Proof.
  induction l as [| a l IH]; simpl.
  - intros [<- | []]. right. split; reflexivity.
  - destruct (same_device user token a) eqn:E; simpl.
    + intros [<- | H]; [| auto]. right. split; [| reflexivity].
      now apply same_device_key in E.
    + intros [<- | H]; [auto |]. destruct (IH H); auto.
Qed.

Lemma upsert_registered user token plat l :
  In (user, token) (map device_key (DeviceToken_findOneAndUpdate user token plat l)).
Proof.
  rewrite upsert_keys. destruct (existsb (same_device user token) l) eqn:E.
  - now apply existsb_same_device.
  - apply in_or_app. right. now left.
Qed.

Lemma upsert_twice user token plat l :
  DeviceToken_findOneAndUpdate user token plat
    (DeviceToken_findOneAndUpdate user token plat l)
  = DeviceToken_findOneAndUpdate user token plat l.
Proof.
  induction l as [| d l IH]; simpl.
  - unfold same_device. simpl. now rewrite Nat.eqb_refl, String.eqb_refl.
  - destruct (same_device user token d) eqn:E; simpl.
    + unfold same_device in E |- *. simpl. now rewrite E.
    + now rewrite E, IH.
Qed.

Lemma upsert_others user token plat other l :
  other <> user ->
  tokens_of other (DeviceToken_findOneAndUpdate user token plat l) = tokens_of other l.
Proof.
  intros Hne. unfold tokens_of. induction l as [| d l IH]; simpl.
  - apply Nat.eqb_neq in Hne. rewrite Nat.eqb_sym in Hne. now rewrite Hne.
  - destruct (same_device user token d) eqn:E; simpl.
    + destruct (Nat.eqb (DeviceToken.userId d) other); reflexivity.
    + destruct (Nat.eqb (DeviceToken.userId d) other); simpl; now rewrite IH.
Qed.

Lemma deleteOne_sublist user token l :
  sublist (DeviceToken_deleteOne user token l) l.
Proof.
  induction l as [| d l IH]; simpl; [constructor |].
  destruct (same_device user token d).
  - now apply sublist_cons.
  - now apply sublist_skip.
Qed.

Lemma deleteOne_In user token l d :
  In d (DeviceToken_deleteOne user token l) -> In d l.
Proof.
  intros H. apply list_elem_of_In. apply list_elem_of_In in H.
  exact (elem_of_sublist _ _ _ H (deleteOne_sublist user token l)).
Qed.

Lemma deleteOne_NoDup user token l :
  NoDup (map device_key l) -> NoDup (map device_key (DeviceToken_deleteOne user token l)).
Proof.
  intros H. apply (sublist_NoDup _ _ H).
  change (map device_key ?x) with (device_key <$> x).
  apply fmap_sublist, deleteOne_sublist.
Qed.

Lemma deleteOne_gone user token l :
  NoDup (map device_key l) ->
  ~ In (user, token) (map device_key (DeviceToken_deleteOne user token l)).
Proof.
  induction l as [| d l IH]; simpl; intros H; [tauto |].
  apply NoDup_cons in H as [Hd Hl].
  destruct (same_device user token d) eqn:E.
  - apply same_device_key in E. rewrite <- E. intros Hin. apply Hd.
    now apply list_elem_of_In.
  - simpl. intros [Hk | Hin]; [| now apply IH].
    apply same_device_key in Hk. congruence.
Qed.

Lemma deleteOne_others user token other l :
  other <> user ->
  tokens_of other (DeviceToken_deleteOne user token l) = tokens_of other l.
Proof.
  intros Hne. unfold tokens_of. induction l as [| d l IH]; simpl; [reflexivity |].
  destruct (same_device user token d) eqn:E; simpl.
  - apply andb_true_iff in E as [Hu _]. apply Nat.eqb_eq in Hu.
    apply Nat.eqb_neq in Hne. rewrite Nat.eqb_sym in Hne. now rewrite Hu, Hne.
  - destruct (Nat.eqb (DeviceToken.userId d) other); simpl; now rewrite IH.
Qed.

Lemma platform_allowed body :
  In (match DeviceBody.platform body with
      | Some p => if existsb (String.eqb p) platforms then p else "web"
      | None => "web"
      end) platforms.
Proof.
  destruct (DeviceBody.platform body) as [p|]; [| simpl; tauto].
  destruct (existsb (String.eqb p) platforms) eqn:E; [| simpl; tauto].
  apply existsb_exists in E as (q & Hq & E). apply String.eqb_eq in E. now subst.
Qed.

Lemma serve_device_registry c l : registry l -> registry (fst (serve_device c l)).
Proof.
  intros [Hk Hf]. destruct c as [user body | user token]; simpl.
  - unfold register_device. destruct (DeviceBody.token body) as [t|]; [| now split].
    destruct (String.eqb (JS.trim t) "") eqn:Et; [now split |]. simpl.
    split; [now apply upsert_NoDup |].
    apply Forall_forall. intros d Hd. apply list_elem_of_In in Hd.
    apply upsert_In in Hd as [Hd | [Hkey Hp]].
    + rewrite Forall_forall in Hf. apply Hf. now apply list_elem_of_In.
    + unfold device_key in Hkey. injection Hkey as _ Ht. split.
      * rewrite Ht. now apply String.eqb_neq.
      * rewrite Hp. apply platform_allowed.
  - unfold unregister_device. destruct token as [t|]; [| now split].
    destruct (String.eqb t ""); [now split |]. simpl.
    split; [now apply deleteOne_NoDup |].
    apply Forall_forall. intros d Hd. apply list_elem_of_In in Hd.
    apply deleteOne_In in Hd. rewrite Forall_forall in Hf. apply Hf.
    now apply list_elem_of_In.
Qed.

Lemma serve_devices_registry calls l : registry l -> registry (serve_devices calls l).
Proof.
  revert l. induction calls as [| c calls IH]; intros l H; simpl; [exact H |].
  now apply IH, serve_device_registry.
Qed.

(** X27. The device collection stays well formed. Starting without devices,
    whatever register-device and unregister-device requests are served, no
    two documents have the same user and token, every token is non-empty,
    and every platform is one of android, ios, web, windows and mac. *)
Theorem devices_well_formed calls :
  let devices := serve_devices calls [] in
  NoDup (map device_key devices)
  /\ Forall (fun d => DeviceToken.token d <> ""
                      /\ In (DeviceToken.platform d) platforms) devices.
Proof.
  apply (serve_devices_registry calls []). split; [constructor | constructor].
Qed.

(** X28. Registering and unregistering a device. On a collection without
    duplicates, a register-device request with a token that is not blank
    is answered success and afterwards the trimmed token is among the
    tokens push messages are sent to for this user; sending the request
    again changes nothing; unregistering the token removes it from them;
    and neither request changes the tokens of any other user. A blank or
    missing token is answered 400 and nothing is stored. *)
Theorem device_round_trip user body devices token :
  NoDup (map device_key devices) ->
  DeviceBody.token body = Some token ->
  let served := register_device user body devices in
  if String.eqb (JS.trim token) ""
  then served = (devices, Failed 400 token_required)
  else
    snd served = Replied 200 true
    /\ In (JS.trim token) (tokens_of (_id user) (fst served))
    /\ register_device user body (fst served) = served
    /\ ~ In (JS.trim token)
         (tokens_of (_id user) (fst (unregister_device user (Some token) (fst served))))
    /\ forall other,
         other <> _id user ->
         tokens_of other (fst served) = tokens_of other devices
         /\ tokens_of other (fst (unregister_device user (Some token) (fst served)))
            = tokens_of other devices.
Proof.
  intros Hk Ht served. subst served. unfold register_device. rewrite Ht.
  destruct (String.eqb (JS.trim token) "") eqn:Eb; [reflexivity |]. simpl.
  assert (Hne : String.eqb token "" = false).
  { apply String.eqb_neq. intros ->. discriminate. }
  split; [reflexivity |]. split; [| split; [| split]].
  - apply tokens_of_keys, upsert_registered.
  - now rewrite upsert_twice.
  - unfold unregister_device. rewrite Hne. simpl.
    rewrite tokens_of_keys. apply deleteOne_gone. now apply upsert_NoDup.
  - intros other Hother. unfold unregister_device. rewrite Hne. simpl.
    rewrite deleteOne_others by exact Hother.
    split; now apply upsert_others.
Qed.

Lemma device_round_trip_witness :
  In "abc"
    (tokens_of 1%nat
       (fst (register_device Sample.alice
               {| DeviceBody.token := Some " abc "; DeviceBody.platform := Some "ios" |}
               []))).
Proof.
  pose proof (device_round_trip Sample.alice
                {| DeviceBody.token := Some " abc "; DeviceBody.platform := Some "ios" |}
                [] " abc " NoDup_nil_2 eq_refl) as H.
  simpl in H. destruct H as (_ & H & _). exact H.
Defined.

(** ** The format of a phone number *)

Lemma digits_of_all s : all_digits (digits_of s) = true.
Proof.
  induction s as [| c s IH]; [reflexivity |]. simpl.
  destruct (is_digit c) eqn:E; [| exact IH]. simpl. now rewrite E.
Qed.

Lemma digits_of_digits s : all_digits s = true -> digits_of s = s.
Proof.
  induction s as [| c s IH]; [reflexivity |]. simpl.
  intros H. apply andb_true_iff in H as [Hc Hs]. now rewrite Hc, IH.
Qed.

Lemma digits_of_idempotent s : digits_of (digits_of s) = digits_of s.
Proof. apply digits_of_digits, digits_of_all. Qed.

(** X29. The normal form of a phone number. [validatePhoneNumber] accepts
    an input exactly when it has 10 to 15 digits, whatever else it
    contains; the cleaned number is a plus sign followed by those digits;
    validating the cleaned number again returns it unchanged, so a number
    stored at signup is found at login; the cleaned number matches the
    pattern of the login handler; and the login handler takes an input for
    a phone number exactly when [validatePhoneNumber] accepts it. *)
Theorem phone_number_normalised phone :
  let digits := digits_of phone in
  match validatePhoneNumber phone with
  | ValidPhone cleaned =>
      cleaned = "+" +:+ digits
      /\ (10 <= String.length digits <= 15)%nat
      /\ validatePhoneNumber cleaned = ValidPhone cleaned
      /\ phone_pattern cleaned = true
      /\ isPhone phone = true
  | InvalidPhone _ =>
      (String.length digits < 10 \/ 15 < String.length digits)%nat
      /\ isPhone phone = false
  end.
Proof.
  simpl. unfold validatePhoneNumber, isPhone.
  destruct ((String.length (digits_of phone) <? 10)%nat
            || (15 <? String.length (digits_of phone))%nat) eqn:E.
  - apply orb_true_iff in E.
    split; [destruct E as [E|E]; apply Nat.ltb_lt in E; lia |].
    unfold phone_pattern.
    assert (Hbody : match digits_of phone with
                    | String "+" s' => s'
                    | _ => digits_of phone
                    end = digits_of phone).
    { pose proof (digits_of_all phone) as Hd.
      destruct (digits_of phone) as [| c s]; [reflexivity |].
      simpl in Hd. apply andb_true_iff in Hd as [Hc _].
      destruct c as [[] [] [] [] [] [] [] []]; try reflexivity; discriminate. }
    rewrite Hbody.
    destruct E as [E|E]; apply Nat.ltb_lt in E.
    + replace (10 <=? String.length (digits_of phone))%nat with false
        by (symmetry; apply Nat.leb_gt; lia).
      now rewrite andb_false_r.
    + replace (String.length (digits_of phone) <=? 15)%nat with false
        by (symmetry; apply Nat.leb_gt; lia).
      now rewrite andb_false_r.
  - apply orb_false_iff in E as [E1 E2].
    apply Nat.ltb_ge in E1. apply Nat.ltb_ge in E2.
    assert (Hplus : digits_of ("+" +:+ digits_of phone) = digits_of phone).
    { change ("+" +:+ digits_of phone) with (String "+" (digits_of phone)).
      cbn -[digits_of]. change (digits_of (String "+" (digits_of phone)))
        with (digits_of (digits_of phone)). apply digits_of_idempotent. }
    assert (Hpat : phone_pattern ("+" +:+ digits_of phone) = true).
    { unfold phone_pattern.
      change ("+" +:+ digits_of phone) with (String "+" (digits_of phone)).
      cbn -[Nat.leb all_digits String.length digits_of].
      rewrite digits_of_all. cbn -[Nat.leb String.length digits_of].
      apply andb_true_iff. split; apply Nat.leb_le; lia. }
    split; [reflexivity |]. split; [lia |].
    split; [| split; [exact Hpat |]].
    + rewrite Hplus.
      replace (String.length (digits_of phone) <? 10)%nat with false
        by (symmetry; apply Nat.ltb_ge; lia).
      replace (15 <? String.length (digits_of phone))%nat with false
        by (symmetry; apply Nat.ltb_ge; lia).
      reflexivity.
    + unfold phone_pattern.
      assert (Hbody : match digits_of phone with
                      | String "+" s' => s'
                      | _ => digits_of phone
                      end = digits_of phone).
      { pose proof (digits_of_all phone) as Hd.
        destruct (digits_of phone) as [| c s]; [reflexivity |].
        simpl in Hd. apply andb_true_iff in Hd as [Hc _].
        destruct c as [[] [] [] [] [] [] [] []]; try reflexivity; discriminate. }
      rewrite Hbody, digits_of_all. cbn -[Nat.leb String.length digits_of].
      apply andb_true_iff. split; apply Nat.leb_le; lia.
Qed.

(** ** Presence *)

Lemma check_asked env ids seen :
  ids <> [] ->
  check env (Some ids) seen
  = (fun lastSeenAt =>
       let lastSeen := match lastSeenAt with Some t => t | None => 0%Z end in
       (now env - lastSeen <? ACTIVE_THRESHOLD_MS)%Z)
    <$> filter (fun kv => fst kv ∈ ids) seen.
Proof. destruct ids; [congruence | reflexivity]. Qed.

(** X30. Heartbeat and check. After the heartbeat of a known user, a check
    that asks for this user reports them online exactly when less than five
    minutes have passed since the heartbeat; the heartbeat changes the
    presence of nobody else; a check reports only users that exist and were
    asked for; and a user who never sent a heartbeat is reported with a
    last activity at time 0. *)
Theorem presence_round_trip env env' user ids seen :
  is_Some (seen !! _id user) ->
  _id user ∈ ids ->
  let seen' := heartbeat env user seen in
  check env' (Some ids) seen' !! _id user
  = Some (now env' - now env <? ACTIVE_THRESHOLD_MS)%Z
  /\ (forall other, other <> _id user -> seen' !! other = seen !! other)
  /\ (forall k online,
        check env' (Some ids) seen' !! k = Some online ->
        k ∈ ids /\ is_Some (seen !! k))
  /\ (forall k,
        k <> _id user -> k ∈ ids -> seen !! k = Some None ->
        check env' (Some ids) seen' !! k = Some (now env' <? ACTIVE_THRESHOLD_MS)%Z).
Proof.
  intros [last Hlast] Hin seen'. subst seen'. unfold heartbeat. rewrite Hlast.
  assert (Hids : ids <> []) by (intros ->; now apply elem_of_nil in Hin).
  rewrite (check_asked env' ids _ Hids).
  split; [| split; [| split]].
  - apply lookup_fmap_Some. exists (Some (now env)). split; [reflexivity |].
    apply map_lookup_filter_Some_2; [apply lookup_insert_eq | exact Hin].
  - intros other Hne. now apply lookup_insert_ne.
  - intros k online Hk. apply lookup_fmap_Some in Hk as (x & _ & E).
    apply map_lookup_filter_Some in E as [E Hk']. split; [exact Hk' |].
    destruct (Nat.eq_dec k (_id user)) as [-> | Hne]; [now exists last |].
    exists x. eapply eq_trans; [| exact E].
    symmetry. apply lookup_insert_ne. congruence.
  - intros k Hne Hk Hnever. apply lookup_fmap_Some. exists None.
    split; [simpl; now rewrite Z.sub_0_r |].
    apply map_lookup_filter_Some_2; [| exact Hk].
    eapply eq_trans; [| exact Hnever]. apply lookup_insert_ne. congruence.
Qed.

Lemma presence_round_trip_witness :
  check {| now := 1700000060000%Z; notificationFault := None;
           emailFault := None; pushFault := None |}
    (Some [1%nat])
    (heartbeat Sample.env Sample.alice {[ 1%nat := None ]}) !! 1%nat
  = Some true.
Proof.
  destruct (presence_round_trip Sample.env
              {| now := 1700000060000%Z; notificationFault := None;
                 emailFault := None; pushFault := None |}
              Sample.alice [1%nat] {[ 1%nat := None ]}) as (H & _).
  - exists None. reflexivity.
  - apply list_elem_of_In. simpl. auto.
  - exact H.
Defined.
